(** * Locator resolution and validation engine

    A shallow embedding of the decision logic of [src/locator_generator.py]
    (class [AILocatorGenerator]: quality tier, confidence score, structural
    validation, the inference entry points, the locators of a test case and
    their file), of [src/screen.py] (class [AppiumBase]: driver set-up,
    [find_element_safe], scrolling, page source, closing), of
    [src/script_generator.py] (extraction, generation and validation of a
    script) and of the lookup helpers of the scripts under
    [src/output/generated_scripts], followed by the properties established
    about them.

    Conventions.
    - A Python value obtained from [json.loads] is a [value]; a [str] is the
      string of its UTF-8 bytes, a [dict] the list of its items in insertion
      order (keys pairwise distinct).
    - A Python [int] is a [Z]; a Python [float] is a binary64 number, given
      by the rational it denotes, and each float operation rounds its exact
      result to the nearest binary64 number, ties to even ([Binary64]).
    - A call that may raise returns a [result]; [try]/[except] is a match on
      the raised [exn].
    - The Appium driver, the text-generation model and the [re]/[json]
      library calls are fields of records standing for [self] and for the
      interpreter's libraries. *)

From Stdlib Require Import ZArith QArith Qminmax Qround Qpower Qabs.
From Stdlib Require Import List String Ascii Bool Lia Lqa.
From Stdlib Require Import DecimalString.
From Stdlib Require Import PrimFloat FloatOps SpecFloat Uint63.
Import ListNotations.

#[local] Set Warnings "-abstract-large-number".
#[local] Set Warnings "-inexact-float".

Local Open Scope string_scope.
Local Open Scope list_scope.

(* ===================================================================== *)
(** * Python values, exceptions and the operations the sources apply      *)
(* ===================================================================== *)

Module Py.

(** The exception classes that occur in the two modules.
    [JSONDecodeError] is a subclass of [ValueError].  In selenium,
    [TimeoutException] and [NoSuchElementException] are subclasses of
    [WebDriverException]; the constructor [WebDriverException] stands for
    every driver error that is neither of the two. *)
Inductive exn : Type :=
| KeyError (key : string)
| TypeError
| AttributeError
| ValueError (msg : string)
| JSONDecodeError
| Exception (msg : string)
| TimeoutException
| NoSuchElementException (msg : string)
| WebDriverException (msg : string).

Inductive result (A : Type) : Type :=
| Ok (a : A)
| Raise (e : exn).

Arguments Ok {A} a.
Arguments Raise {A} e.

Definition bind {A B : Type} (m : result A) (k : A -> result B) : result B :=
  match m with
  | Ok a => k a
  | Raise e => Raise e
  end.

Declare Scope py_scope.
Delimit Scope py_scope with py.
Notation "x <- m ;; k" := (bind m (fun x => k))
  (at level 61, m at next level, right associativity) : py_scope.

(** [value]: what [json.loads] produces. *)
#[warnings="-register-all"]
Inductive value : Type :=
| PNone
| PBool (b : bool)
| PInt (n : Z)
| PFloat (x : Q)
| PStr (s : string)
| PList (l : list value)
| PDict (items : list (string * value)).

(** ** Strings *)

(** A byte [10xxxxxx] continues a UTF-8 code point. *)
Definition is_continuation (c : ascii) : bool :=
  let n := nat_of_ascii c in (128 <=? n)%nat && (n <? 192)%nat.

Definition starts_with_continuation (s : string) : bool :=
  match s with
  | String c _ => is_continuation c
  | EmptyString => false
  end.

(** The characters of a [str], each as a one-character [str]. *)
Fixpoint chars (s : string) : list string :=
  match s with
  | EmptyString => []
  | String c rest =>
      let tl := chars rest in
      if starts_with_continuation rest then
        match tl with
        | h :: t => String c h :: t
        | [] => [String c EmptyString]
        end
      else String c EmptyString :: tl
  end.

(** [sub in s] for two [str]. *)
Fixpoint contains (sub s : string) : bool :=
  prefix sub s ||
  match s with
  | EmptyString => false
  | String _ rest => contains sub rest
  end.

(** [s.count(c)] for a one-character ASCII [c]. *)
Fixpoint count_char (c : ascii) (s : string) : Z :=
  match s with
  | EmptyString => 0
  | String a rest => (if Ascii.eqb a c then 1 else 0) + count_char c rest
  end.

(** ** Dictionaries *)

Fixpoint lookup (key : string) (items : list (string * value)) : option value :=
  match items with
  | [] => None
  | (k, v) :: rest => if String.eqb k key then Some v else lookup key rest
  end.

(** [d[key] = v] on the item list: replace in place, or append. *)
Fixpoint store {A : Type} (key : string) (v : A) (items : list (string * A))
  : list (string * A) :=
  match items with
  | [] => [(key, v)]
  | (k, w) :: rest =>
      if String.eqb k key then (k, v) :: rest else (k, w) :: store key v rest
  end.

(** ** Built-in operations on values *)

(** [x == s] for a [str] literal [s]: only a [str] equals a [str]. *)
Definition eq_str (x : value) (s : string) : bool :=
  match x with
  | PStr t => String.eqb t s
  | _ => false
  end.

(** [x in l] for a list [l] of [str]. *)
Definition in_strs (x : value) (l : list string) : bool :=
  existsb (eq_str x) l.

(** [bool(x)]. *)
Definition truthy (x : value) : bool :=
  match x with
  | PNone => false
  | PBool b => b
  | PInt n => negb (n =? 0)%Z
  | PFloat q => negb (Qeq_bool q 0)
  | PStr s => negb (String.eqb s "")
  | PList l => match l with [] => false | _ => true end
  | PDict items => match items with [] => false | _ => true end
  end.

(** [key in x] for a [str] key. *)
Definition contains_key (key : string) (x : value) : result bool :=
  match x with
  | PDict items => Ok (match lookup key items with Some _ => true | None => false end)
  | PList l => Ok (existsb (fun e => eq_str e key) l)
  | PStr s => Ok (contains key s)
  | _ => Raise TypeError
  end.

(** [x[key]] for a [str] key. *)
Definition getitem (x : value) (key : string) : result value :=
  match x with
  | PDict items =>
      match lookup key items with
      | Some v => Ok v
      | None => Raise (KeyError key)
      end
  | _ => Raise TypeError
  end.

(** [x.get(key, default)]: only a [dict] has the method. *)
Definition get (x : value) (key : string) (default : value) : result value :=
  match x with
  | PDict items =>
      match lookup key items with
      | Some v => Ok v
      | None => Ok default
      end
  | _ => Raise AttributeError
  end.

(** [len(x)]. *)
Definition len (x : value) : result Z :=
  match x with
  | PStr s => Ok (Z.of_nat (List.length (chars s)))
  | PList l => Ok (Z.of_nat (List.length l))
  | PDict items => Ok (Z.of_nat (List.length items))
  | _ => Raise TypeError
  end.

(** The items a [for] loop over [x] visits. *)
Definition iter (x : value) : result (list value) :=
  match x with
  | PStr s => Ok (map PStr (chars s))
  | PList l => Ok l
  | PDict items => Ok (map (fun kv => PStr (fst kv)) items)
  | _ => Raise TypeError
  end.

(** [hash(x)] succeeds: lists and dicts are unhashable. *)
Definition hashable (x : value) : bool :=
  match x with
  | PList _ | PDict _ => false
  | _ => true
  end.

(** [sub in x] for a [str] [sub] (same operator as [contains_key]). *)
Definition str_in := contains_key.

(** [x.count(c)] for a one-character ASCII [c]: [str] and [list] have the
    method. *)
Definition count (x : value) (c : ascii) : result Z :=
  match x with
  | PStr s => Ok (count_char c s)
  | PList l =>
      Ok (Z.of_nat (List.length
            (filter (fun e => eq_str e (String c EmptyString)) l)))
  | _ => Raise AttributeError
  end.

End Py.

Import Py.
Local Open Scope py_scope.

(* ===================================================================== *)
(** * Python floats                                                       *)
(* ===================================================================== *)

Module Binary64.

Local Open Scope Q_scope.

(** A finite binary64 number is given by the rational it denotes.  An
    operation on floats computes the exact result and rounds it: to 53
    significant bits, to the nearest such number, to the one with an even
    last bit when two are equally near, with no place below [2^-1074].
    (Numbers from [2^1024] on are outside binary64; the sums of this
    development stay below 2, and a length is below [2^63].) *)

(** The floor of the binary logarithm of a positive rational. *)
Definition ilog2 (q : Q) : Z :=
  let k := (Z.log2 (Qnum q) - Z.log2 (Zpos (Qden q)))%Z in
  if Qle_bool (2 ^ k) q then k else (k - 1)%Z.

(** The nearest integer, the even one of two that are equally near. *)
Definition round_half_even (x : Q) : Z :=
  let f := Qfloor x in
  match Qcompare (x - inject_Z f) (1 # 2) with
  | Lt => f
  | Gt => (f + 1)%Z
  | Eq => if Z.even f then f else (f + 1)%Z
  end.

(** The exponent of the last place of a positive number. *)
Definition last_place (q : Q) : Z := Z.max (ilog2 q - 52) (-1074).

Definition round_positive (q : Q) : Q :=
  let e := last_place q in
  inject_Z (round_half_even (q / 2 ^ e)) * 2 ^ e.

Definition round64 (q : Q) : Q :=
  match Qcompare q 0 with
  | Eq => 0
  | Gt => Qred (round_positive q)
  | Lt => Qred (- round_positive (- q))
  end.

(** A float literal, [x + y], [x * y], and [float(n)] for an [int]. *)
Definition literal (q : Q) : Q := round64 q.
Definition fadd (x y : Q) : Q := round64 (x + y).
Definition fmul (x y : Q) : Q := round64 (x * y).
Definition of_int (n : Z) : Q := round64 (inject_Z n).

(** [min(x, y)]: [y] when [y < x], otherwise [x]. *)
Definition fmin (x y : Q) : Q := Qmin x y.

(** The rational a primitive binary64 number of the kernel denotes, for
    comparison. *)
Definition Q_of_spec (f : spec_float) : option Q :=
  match f with
  | S754_zero _ => Some 0
  | S754_finite s m e =>
      Some (Qred ((if s then -1 else 1) * inject_Z (Zpos m) * 2 ^ e))
  | _ => None
  end.

Definition Q_of_float (f : float) : option Q := Q_of_spec (Prim2SF f).

End Binary64.

(* ===================================================================== *)
(** * [src/locator_generator.py]                                          *)
(* ===================================================================== *)

Module LocatorGenerator.

Import Binary64.

(** [class LocatorQuality(Enum)]. *)
Inductive LocatorQuality : Type := EXCELLENT | GOOD | ACCEPTABLE | POOR.

(** [@dataclass LocatorAnalysis].  The fields hold whatever the parsed reply
    carries: the dataclass does not check its annotations. *)
Record LocatorAnalysis : Type := mkLocatorAnalysis {
  element_name : value;
  primary_locator : value;
  fallback_locators : value;
  element_type : value;
  suggested_actions : value;
  validation_text : value;
  screen_context : value;
  quality_score : LocatorQuality;
  accessibility_info : value;
  confidence : Q
}.

(** The attributes of [self] the methods read.  [supported_strategies],
    [supported_actions] and [element_types] are the three [enum] lists
    [_load_locator_schema] takes from [locator_schema.json];
    [generate_content prompt] is [self.model.generate_content(prompt).text];
    [has_driver] is [bool(self.driver)] and [get_page_source] the outcome of
    the inherited method of that name. *)
Record AILocatorGenerator : Type := mkAILocatorGenerator {
  supported_strategies : list string;
  supported_actions : list string;
  element_types : list string;
  generate_content : string -> result string;
  has_driver : bool;
  get_page_source : result string
}.

(** The library calls of the module: [re.sub] with the two fence patterns,
    [re.findall(r'\{.*\}', _, re.DOTALL)], [json.loads] ([None] when it raises
    [JSONDecodeError]), [str.strip], the two prompt templates applied with
    [str.format], and [str()] inside an f-string. *)
Record Libs : Type := mkLibs {
  re_sub_json_fence : string -> string;
  re_sub_closing_fence : string -> string;
  re_findall_object : string -> list string;
  json_loads : string -> option value;
  strip : string -> string;
  format_locator_prompt : string -> string -> string -> string;
  format_complete_screen_prompt : string -> string -> string;
  str_of : value -> string
}.

(** [s[:n]]: the first [n] characters. *)
Definition truncate (n : nat) (s : string) : string :=
  String.concat "" (firstn n (chars s)).

(** ** [_extract_json_from_response] *)
Definition _extract_json_from_response (lib : Libs) (response_text : string)
  : result string :=
  let response_text := re_sub_json_fence lib response_text in
  let response_text := re_sub_closing_fence lib response_text in
  match re_findall_object lib response_text with
  | m :: _ => Ok (strip lib m)
  | [] =>
      match json_loads lib (strip lib response_text) with
      | Some _ => Ok (strip lib response_text)
      | None => Raise (ValueError "No valid JSON found in AI response")
      end
  end.

(** ** [_assess_locator_quality] *)

(** [value and not '//' in value]. *)
Definition nonempty_without_double_slash (v : value) : result bool :=
  if truthy v then (b <- str_in "//" v ;; Ok (negb b)) else Ok false.

(** [value.count('/') <= bound]. *)
Definition slash_count_le (v : value) (bound : Z) : result bool :=
  n <- count v "/"%char ;; Ok (n <=? bound)%Z.

Definition _assess_locator_quality (locator : value) : result LocatorQuality :=
  strategy <- get locator "strategy" (PStr "") ;;
  v <- get locator "value" (PStr "") ;;
  c1 <- (if eq_str strategy "id"
         then nonempty_without_double_slash v else Ok false) ;;
  if c1 then Ok EXCELLENT else
  if eq_str strategy "accessibility_id" && truthy v then Ok EXCELLENT else
  c3 <- (if eq_str strategy "class_name"
         then nonempty_without_double_slash v else Ok false) ;;
  if c3 then Ok GOOD else
  c4 <- (if eq_str strategy "xpath" then slash_count_le v 3 else Ok false) ;;
  if c4 then Ok GOOD else
  c5 <- (if eq_str strategy "xpath" then slash_count_le v 6 else Ok false) ;;
  if c5 then Ok ACCEPTABLE else
  Ok POOR.

(** ** [_validate_generated_locator] *)

Definition required_fields : list string :=
  ["element_name"; "element_type"; "primary_locator"].

(** [for field in fields: if field not in locator_data: return False]. *)
Fixpoint has_fields (fields : list string) (locator_data : value) : result bool :=
  match fields with
  | [] => Ok true
  | field :: rest =>
      present <- contains_key field locator_data ;;
      if present then has_fields rest locator_data else Ok false
  end.

(** The body of the [try] block. *)
Definition validate_body (self : AILocatorGenerator) (locator_data : value)
  : result bool :=
  complete <- has_fields required_fields locator_data ;;
  if negb complete then Ok false else
  primary <- getitem locator_data "primary_locator" ;;
  strategy <- getitem primary "strategy" ;;
  if negb (in_strs strategy (supported_strategies self)) then Ok false else
  etype <- getitem locator_data "element_type" ;;
  if negb (in_strs etype (element_types self)) then Ok false else
  listed <- contains_key "suggested_actions" locator_data ;;
  if listed then
    actions <- getitem locator_data "suggested_actions" ;;
    entries <- iter actions ;;
    Ok (forallb (fun action => in_strs action (supported_actions self)) entries)
  else Ok true.

(** [except (KeyError, TypeError): return False]. *)
Definition _validate_generated_locator (self : AILocatorGenerator)
  (locator_data : value) : result bool :=
  match validate_body self locator_data with
  | Ok b => Ok b
  | Raise (KeyError _) => Ok false
  | Raise TypeError => Ok false
  | Raise e => Raise e
  end.

(** ** [_calculate_confidence] *)

Definition strategy_scores : list (string * Q) :=
  [("id", literal 0.4); ("accessibility_id", literal 0.35);
   ("class_name", literal 0.2); ("android_uiautomator", literal 0.15);
   ("xpath", literal 0.1); ("name", literal 0.1);
   ("tag_name", literal 0.05)]%Q.

Fixpoint score_of (key : string) (table : list (string * Q)) : option Q :=
  match table with
  | [] => None
  | (k, q) :: rest => if String.eqb k key then Some q else score_of key rest
  end.

(** [strategy_scores.get(strategy, 0)]: the key is hashed first. *)
Definition strategy_scores_get (strategy : value) : result Q :=
  if hashable strategy then
    Ok (match strategy with
        | PStr s => match score_of s strategy_scores with
                    | Some q => q
                    | None => 0
                    end
        | _ => 0
        end)
  else Raise TypeError.

Definition _calculate_confidence (locator_data : value) (page_source : string)
  : result Q :=
  let confidence := literal 0.5 in
  primary <- getitem locator_data "primary_locator" ;;
  strategy <- getitem primary "strategy" ;;
  bonus <- strategy_scores_get strategy ;;
  let confidence := fadd confidence bonus in
  fallbacks <- get locator_data "fallback_locators" (PList []) ;;
  fallback_count <- len fallbacks ;;
  let confidence :=
    fadd confidence
      (fmin (fmul (of_int fallback_count) (literal 0.05)) (literal 0.15)) in
  info <- get locator_data "accessibility_info" (PDict []) ;;
  content_desc <- get info "content_desc" PNone ;;
  let confidence :=
    if truthy content_desc then fadd confidence (literal 0.1)
    else confidence in
  Ok (fmin confidence (literal 1.0)).

(** ** [analyze_element] *)

Definition analyze_element (lib : Libs) (self : AILocatorGenerator)
  (target_element : string) (screen_context_arg : string)
  (page_source : option string) : result LocatorAnalysis :=
  (* if not page_source: ... page_source = self.get_page_source() *)
  page_source <-
    match page_source with
    | Some s =>
        if negb (String.eqb s "") then Ok s
        else if has_driver self then get_page_source self
        else Raise (ValueError "No page source provided and driver not initialized")
    | None =>
        if has_driver self then get_page_source self
        else Raise (ValueError "No page source provided and driver not initialized")
    end ;;
  let truncated_source := truncate 4000 page_source in
  let prompt :=
    format_locator_prompt lib target_element screen_context_arg truncated_source in
  text <- generate_content self prompt ;;
  if String.eqb text "" then Raise (Exception "Empty response from Gemini API") else
  json_text <- _extract_json_from_response lib text ;;
  locator_data <-
    match json_loads lib json_text with
    | Some d => Ok d
    | None => Raise JSONDecodeError
    end ;;
  valid <- _validate_generated_locator self locator_data ;;
  if negb valid
  then Raise (ValueError "Generated locator doesn't match schema requirements")
  else
  primary <- getitem locator_data "primary_locator" ;;
  quality <- _assess_locator_quality primary ;;
  conf <- _calculate_confidence locator_data page_source ;;
  f_name <- getitem locator_data "element_name" ;;
  f_primary <- getitem locator_data "primary_locator" ;;
  f_fallbacks <- get locator_data "fallback_locators" (PList []) ;;
  f_type <- getitem locator_data "element_type" ;;
  f_actions <- get locator_data "suggested_actions" (PList []) ;;
  f_text <- get locator_data "validation_text" PNone ;;
  f_context <- get locator_data "screen_context" (PStr screen_context_arg) ;;
  f_info <- get locator_data "accessibility_info" (PDict []) ;;
  Ok (mkLocatorAnalysis f_name f_primary f_fallbacks f_type f_actions f_text
        f_context quality f_info conf).

(** ** [analyze_complete_screen] *)

(** The body of [for element_name, element_data in screen_elements.items()]
    up to the construction of the [LocatorAnalysis]. *)
Definition analysis_of_element (lib : Libs) (merged_xml screen_context_arg : string)
  (element_data : value) : result LocatorAnalysis :=
  primary <- getitem element_data "primary_locator" ;;
  quality <- _assess_locator_quality primary ;;
  conf <- _calculate_confidence element_data merged_xml ;;
  f_name <- getitem element_data "element_name" ;;
  f_primary <- getitem element_data "primary_locator" ;;
  f_fallbacks <- get element_data "fallback_locators" (PList []) ;;
  f_type <- getitem element_data "element_type" ;;
  f_actions <- get element_data "suggested_actions" (PList []) ;;
  f_text <- get element_data "validation_text" PNone ;;
  position <- get element_data "scroll_position" (PStr "unknown") ;;
  f_info <- get element_data "accessibility_info" (PDict []) ;;
  Ok (mkLocatorAnalysis f_name f_primary f_fallbacks f_type f_actions f_text
        (PStr (screen_context_arg ++ "_" ++ str_of lib position))
        quality f_info conf).

(** The loop: [analyses[element_name] = analysis] for each item in turn. *)
Fixpoint analyse_items (lib : Libs) (merged_xml screen_context_arg : string)
  (items : list (string * value)) (analyses : list (string * LocatorAnalysis))
  : result (list (string * LocatorAnalysis)) :=
  match items with
  | [] => Ok analyses
  | (name, element_data) :: rest =>
      analysis <- analysis_of_element lib merged_xml screen_context_arg element_data ;;
      analyse_items lib merged_xml screen_context_arg rest (store name analysis analyses)
  end.

(** [x.items()]: only a [dict] has the method. *)
Definition dict_items (x : value) : result (list (string * value)) :=
  match x with
  | PDict its => Ok its
  | _ => Raise AttributeError
  end.

Definition analyze_complete_screen (lib : Libs) (self : AILocatorGenerator)
  (merged_xml : string) (screen_context_arg : string)
  : result (list (string * LocatorAnalysis)) :=
  let formatted_prompt :=
    format_complete_screen_prompt lib screen_context_arg (truncate 8000 merged_xml) in
  text <- generate_content self formatted_prompt ;;
  if String.eqb text "" then Raise (Exception "Empty response from Gemini API") else
  json_text <- _extract_json_from_response lib text ;;
  screen_data <-
    match json_loads lib json_text with
    | Some d => Ok d
    | None => Raise JSONDecodeError
    end ;;
  screen_elements <- get screen_data "screen_elements" (PDict []) ;;
  its <- dict_items screen_elements ;;
  analyse_items lib merged_xml screen_context_arg its [].

End LocatorGenerator.

(* ===================================================================== *)
(** * [src/screen.py]                                                     *)
(* ===================================================================== *)

Module Screen.

(** The members of [AppiumBy] the strategy mapping uses. *)
Inductive AppiumBy : Type :=
| ID | XPATH | ACCESSIBILITY_ID | CLASS_NAME | ANDROID_UIAUTOMATOR.

(** The live UI surface behind [self.driver], with state [D] and element
    handles [E]:
    - [wait_presence d t by v] is
      [WebDriverWait(driver, t).until(EC.presence_of_element_located((by, v)))];
    - [is_displayed d e] is [e.is_displayed()].
    Each returns the state it leaves the surface in. *)
Class WebDriver (D E : Type) : Type := {
  wait_presence : D -> Z -> AppiumBy -> string -> D * result E;
  is_displayed : D -> E -> D * result bool
}.

Definition DEFAULT_TIMEOUT : Z := 15.

(** [strategies], in the order the dict literal lists its keys. *)
Definition strategies : list (string * AppiumBy) :=
  [("id", ID); ("xpath", XPATH); ("accessibility_id", ACCESSIBILITY_ID);
   ("class_name", CLASS_NAME); ("android_uiautomator", ANDROID_UIAUTOMATOR)].

Fixpoint by_of (strategy : string) (table : list (string * AppiumBy))
  : option AppiumBy :=
  match table with
  | [] => None
  | (k, by_) :: rest => if String.eqb k strategy then Some by_ else by_of strategy rest
  end.

(** [[locator_strategy] + [s for s in strategies.keys() if s != locator_strategy]]. *)
Definition strategy_order (locator_strategy : string) : list string :=
  locator_strategy ::
  filter (fun s => negb (String.eqb s locator_strategy)) (map fst strategies).

(** [timeout or self.DEFAULT_TIMEOUT]. *)
Definition effective_timeout (timeout : option Z) : Z :=
  match timeout with
  | Some t => if (t =? 0)%Z then DEFAULT_TIMEOUT else t
  | None => DEFAULT_TIMEOUT
  end.

(** [except (TimeoutException, NoSuchElementException): continue]. *)
Definition absorbed (x : exn) : bool :=
  match x with
  | TimeoutException | NoSuchElementException _ => true
  | _ => false
  end.

Section Resolver.

Context {D E : Type} {W : WebDriver D E}.

(** How one pass through the loop body ends. *)
Inductive trial_outcome : Type :=
| Accepted (element : E)
| Rejected
| Crashed (x : exn).

(** What a call does to the surface, in order. *)
Inductive event : Type :=
| Trial (strategy : string) (by_ : AppiumBy) (v : string) (timeout : Z)
        (o : trial_outcome)
| TextFallback (by_ : AppiumBy) (v : string) (timeout : Z) (found : option E)
| Info (msg : string).

Record run : Type := mkRun {
  final : option D;
  trace : list event;
  outcome : result (option E)
}.

(** The [try] block of the loop body. *)
Definition attempt (d : D) (timeout : Z) (by_ : AppiumBy) (v : string)
  : D * trial_outcome :=
  match wait_presence d timeout by_ v with
  | (d1, Ok element) =>
      match is_displayed d1 element with
      | (d2, Ok true) => (d2, Accepted element)
      | (d2, Ok false) => (d2, Rejected)
      | (d2, Raise x) => (d2, if absorbed x then Rejected else Crashed x)
      end
  | (d1, Raise x) => (d1, if absorbed x then Rejected else Crashed x)
  end.

(** [for strategy in strategy_order]: [None] when the loop runs to its end. *)
Fixpoint try_strategies (d : D) (per_strategy : Z) (locator_value : string)
  (order : list string) : D * list event * option (result E) :=
  match order with
  | [] => (d, [], None)
  | strategy :: rest =>
      match by_of strategy strategies with
      | None => try_strategies d per_strategy locator_value rest
      | Some by_ =>
          let '(d1, o) := attempt d per_strategy by_ locator_value in
          let ev := Trial strategy by_ locator_value per_strategy o in
          match o with
          | Accepted element =>
              (d1, [ev; Info ("Element found using " ++ strategy)], Some (Ok element))
          | Crashed x => (d1, [ev], Some (Raise x))
          | Rejected =>
              let '(d2, tr, r) :=
                try_strategies d1 per_strategy locator_value rest in
              (d2, ev :: tr, r)
          end
      end
  end.

Definition text_xpath (locator_value : string) : string :=
  "//*[contains(@text, '" ++ locator_value ++ "')]".

Definition find_element_safe (driver : option D)
  (locator_strategy locator_value : string) (timeout : option Z) : run :=
  match driver with
  | None => mkRun None [] (Ok None)
  | Some d =>
      let timeout := effective_timeout timeout in
      let order := strategy_order locator_strategy in
      let per_strategy := (timeout / Z.of_nat (List.length order))%Z in
      match try_strategies d per_strategy locator_value order with
      | (d1, tr, Some (Ok element)) => mkRun (Some d1) tr (Ok (Some element))
      | (d1, tr, Some (Raise x)) => mkRun (Some d1) tr (Raise x)
      | (d1, tr, None) =>
          let xp := text_xpath locator_value in
          match wait_presence d1 2 XPATH xp with
          | (d2, Ok element) =>
              mkRun (Some d2)
                (tr ++ [TextFallback XPATH xp 2 (Some element);
                        Info "Element found using text fallback"])
                (Ok (Some element))
          | (d2, Raise _) =>
              mkRun (Some d2)
                (tr ++ [TextFallback XPATH xp 2 None])
                (Raise (NoSuchElementException
                          ("Element not found: " ++ locator_value)))
          end
      end
  end.

End Resolver.

Arguments trial_outcome E : clear implicits.
Arguments event E : clear implicits.
Arguments run D E : clear implicits.

End Screen.

Import Binary64.
Import LocatorGenerator.
Import Screen.


(* ===================================================================== *)
(** * [src/screen.py]: the other methods of [AppiumBase]                  *)
(* ===================================================================== *)

Module AppiumBase.

(** [str(n)] for an [int]. *)
Definition str_of_int (n : Z) : string := NilZero.string_of_int (Z.to_int n).

(** What the methods below ask of the session behind [self.driver], beyond
    the lookups of [WebDriver]:
    - [get_window_size d] is [driver.get_window_size()] read at the keys
      [width] and [height];
    - [swipe d width height] is
      [driver.swipe(width//2, int(height*0.8), width//2, int(height*0.2), 1000)];
    - [page_source d] is the property [driver.page_source];
    - [session_id d] is [bool(driver.session_id)];
    - [quit d] is [driver.quit()]. *)
Class Session (D : Type) : Type := {
  get_window_size : D -> D * result (Z * Z);
  swipe : D -> Z -> Z -> D * result unit;
  page_source : D -> D * result string;
  session_id : D -> bool;
  quit : D -> result unit
}.

(** [webdriver.Remote(appium_url, options=options)] against a server in
    state [S], with the capability set-up that precedes it. *)
Class Server (S D : Type) : Type := {
  remote : S -> S * result D
}.

Definition MAX_RETRY_ATTEMPTS : Z := 3.

Section Methods.

Context {D E : Type} {W : WebDriver D E} {X : Session D}.

(** ** [scroll_to_element] *)

Inductive scroll_event : Type :=
| Attempt (r : run D E)
| Swipe (width height : Z)
| Sleep (seconds : Z).

Record scroll_run : Type := mkScrollRun {
  scroll_final : option D;
  scroll_trace : list scroll_event;
  scroll_outcome : result (option E)
}.

(** [for attempt in range(max_scrolls + 1)], from [attempt] on, with
    [remaining] iterations to go; [None] when the range is used up. *)
Fixpoint scroll_attempts (d : D) (locator_strategy locator_value : string)
  (width height max_scrolls attempt : Z) (remaining : nat)
  : D * list scroll_event * option (result (option E)) :=
  match remaining with
  | O => (d, [], None)
  | S k =>
      let r := find_element_safe (Some d) locator_strategy locator_value
                 (Some 2%Z) in
      let d1 := match final r with Some d' => d' | None => d end in
      match outcome r with
      | Ok element => (d1, [Attempt r], Some (Ok element))
      | Raise (NoSuchElementException _) =>
          if (attempt <? max_scrolls)%Z then
            match swipe d1 width height with
            | (d2, Ok _) =>
                let '(d3, tr, res) :=
                  scroll_attempts d2 locator_strategy locator_value
                    width height max_scrolls (attempt + 1)%Z k in
                (d3, Attempt r :: Swipe width height :: Sleep 1 :: tr, res)
            | (d2, Raise x) =>
                (d2, [Attempt r; Swipe width height], Some (Raise x))
            end
          else
            let '(d3, tr, res) :=
              scroll_attempts d1 locator_strategy locator_value
                width height max_scrolls (attempt + 1)%Z k in
            (d3, Attempt r :: tr, res)
      | Raise x => (d1, [Attempt r], Some (Raise x))
      end
  end.

Definition scroll_to_element (driver : option D)
  (locator_strategy locator_value : string) (max_scrolls : Z) : scroll_run :=
  match driver with
  | None => mkScrollRun None [] (Ok None)
  | Some d =>
      match get_window_size d with
      | (d0, Raise x) => mkScrollRun (Some d0) [] (Raise x)
      | (d0, Ok (width, height)) =>
          match scroll_attempts d0 locator_strategy locator_value
                  width height max_scrolls 0%Z
                  (Z.to_nat (max_scrolls + 1)) with
          | (d1, tr, Some res) => mkScrollRun (Some d1) tr res
          | (d1, tr, None) =>
              mkScrollRun (Some d1) tr
                (Raise (NoSuchElementException
                          ("Element not found after " ++ str_of_int max_scrolls
                           ++ " scrolls: " ++ locator_value)))
          end
      end
  end.

(** ** [get_page_source] *)

(** [str_exn] is [str(e)] for an exception, as the f-string renders it. *)
Definition get_page_source (str_exn : exn -> string) (driver : option D)
  : option D * result string :=
  match driver with
  | None => (None, Raise (WebDriverException "Driver not initialized"))
  | Some d =>
      match page_source d with
      | (d1, Ok src) =>
          if String.eqb src "" || (Z.of_nat (List.length (chars src)) <? 50)%Z
          then (Some d1,
                Raise (WebDriverException
                         ("Page source retrieval failed: "
                          ++ str_exn (WebDriverException "Invalid page source"))))
          else (Some d1, Ok src)
      | (d1, Raise e) =>
          (Some d1,
           Raise (WebDriverException
                    ("Page source retrieval failed: " ++ str_exn e)))
      end
  end.

(** ** [close_driver] *)

(** The driver field and the audit entries (action, result) it adds. *)
Definition close_driver (driver : option D)
  : option D * list (string * string) :=
  match driver with
  | None => (None, [])
  | Some d =>
      match quit d with
      | Ok _ => (None, [("driver_closure", "SUCCESS")])
      | Raise _ => (None, [])
      end
  end.

(** ** [initialize_driver] *)

Section Initialisation.

Context {S : Type} {R : Server S D}.

Record init_run : Type := mkInitRun {
  server : S;
  driver_field : option D;
  remote_calls : nat;
  sleeps : list Z;
  audits : list (string * string);
  returned : bool
}.

(** The [except] branch of attempt number [attempt], followed by the rest
    of the loop [continue]. *)
Definition after_failure (str_exn : exn -> string) (e : exn) (attempt : Z)
  (continue : init_run) (s : S) (driver : option D) : init_run :=
  if (attempt <? MAX_RETRY_ATTEMPTS - 1)%Z then
    mkInitRun (server continue) (driver_field continue)
      (Datatypes.S (remote_calls continue))
      (((attempt + 1) * 2)%Z :: sleeps continue)
      (audits continue) (returned continue)
  else
    mkInitRun s driver 1 []
      [("driver_initialization", ("FAILED: " ++ str_exn e)%string)] false.

(** [for attempt in range(self.MAX_RETRY_ATTEMPTS)], from [attempt] on. *)
Fixpoint initialize_attempts (str_exn : exn -> string) (s : S)
  (driver : option D) (attempt : Z) (remaining : nat) : init_run :=
  match remaining with
  | O => mkInitRun s driver 0 [] [] false
  | Datatypes.S k =>
      match remote s with
      | (s1, Raise e) =>
          after_failure str_exn e attempt
            (initialize_attempts str_exn s1 driver (attempt + 1)%Z k)
            s1 driver
      | (s1, Ok d) =>
          if negb (session_id d) then
            after_failure str_exn
              (WebDriverException "Driver health check failed") attempt
              (initialize_attempts str_exn s1 (Some d) (attempt + 1)%Z k)
              s1 (Some d)
          else
            match page_source d with
            | (d1, Raise e) =>
                after_failure str_exn e attempt
                  (initialize_attempts str_exn s1 (Some d1) (attempt + 1)%Z k)
                  s1 (Some d1)
            | (d1, Ok src) =>
                if (Z.of_nat (List.length (chars src)) <? 100)%Z then
                  after_failure str_exn
                    (WebDriverException "Driver health check failed") attempt
                    (initialize_attempts str_exn s1 (Some d1)
                       (attempt + 1)%Z k)
                    s1 (Some d1)
                else
                  mkInitRun s1 (Some d1) 1 []
                    [("driver_initialization", "SUCCESS")] true
            end
      end
  end.

Definition initialize_driver (str_exn : exn -> string) (s : S)
  (driver : option D) : init_run :=
  initialize_attempts str_exn s driver 0%Z (Z.to_nat MAX_RETRY_ATTEMPTS).

End Initialisation.

End Methods.

Arguments scroll_event D E : clear implicits.
Arguments scroll_run D E : clear implicits.
Arguments init_run D S : clear implicits.

End AppiumBase.

(* ===================================================================== *)
(** * [src/locator_generator.py]: the other methods of [AILocatorGenerator] *)
(* ===================================================================== *)

Module AILocator.

Import LocatorGenerator.

(** ** [_setup_ai_model] *)

(** ['*' * n]: empty for [n <= 0]. *)
Fixpoint stars (n : nat) : string :=
  match n with
  | O => EmptyString
  | S k => String "*"%char (stars k)
  end.

(** [f"{api_key[:2]}{'*' * (len(api_key) - 2)}"]. *)
Definition masked_key (api_key : string) : string :=
  (String.concat "" (firstn 2 (chars api_key))
   ++ stars (List.length (chars api_key) - 2))%string.

(** [api_key] is [os.getenv('GEMINI_API_KEY')]; [configure key] is
    [genai.configure] followed by the construction of the model.  The
    result carries the lines logged and the audit entries added. *)
Definition _setup_ai_model {M : Type} (configure : string -> result M)
  (api_key : option string) : list string * list (string * string) * result M :=
  match api_key with
  | None => ([], [], Raise (ValueError "GEMINI_API_KEY not configured properly"))
  | Some key =>
      if String.eqb key "" || prefix "your_" key
      then ([], [], Raise (ValueError "GEMINI_API_KEY not configured properly"))
      else
        let line :=
          ("Gemini API configured with key: " ++ masked_key key)%string in
        match configure key with
        | Ok model => ([line], [("ai_model_initialization", "SUCCESS")], Ok model)
        | Raise e => ([line], [], Raise e)
        end
  end.

(** ** [generate_locators_for_test_case] *)

(** Numbers as dictionary keys: [True == 1 == 1.0]. *)
Definition key_number (x : value) : option Q :=
  match x with
  | PBool b => Some (if b then 1 else 0)
  | PInt n => Some (inject_Z n)
  | PFloat q => Some q
  | _ => None
  end.

(** [a == b] for two hashable values. *)
Definition key_eqb (a b : value) : bool :=
  match a, b with
  | PNone, PNone => true
  | PStr s, PStr t => String.eqb s t
  | _, _ =>
      match key_number a, key_number b with
      | Some p, Some q => Qeq_bool p q
      | _, _ => false
      end
  end.

Fixpoint key_lookup {A : Type} (key : value) (d : list (value * A)) : option A :=
  match d with
  | [] => None
  | (k, a) :: rest => if key_eqb k key then Some a else key_lookup key rest
  end.

(** [d[key] = a]. *)
Fixpoint key_store {A : Type} (key : value) (a : A) (d : list (value * A))
  : list (value * A) :=
  match d with
  | [] => [(key, a)]
  | (k, b) :: rest =>
      if key_eqb k key then (k, a) :: rest else (k, b) :: key_store key a rest
  end.

Section TestCase.

(** [analyze_other target] is [self.analyze_element] called with a target
    that is not a [str] (the prompt template renders it with [str()]). *)
Variable lib : Libs.
Variable self : AILocatorGenerator.
Variable analyze_other : value -> result LocatorAnalysis.

(** [self.analyze_element(target_element=element_name,
    screen_context=screen_context, page_source=page_source)]. *)
Definition analyze_target (element_name : value) (screen_context_arg : string)
  (page_source : option string) : result LocatorAnalysis :=
  match element_name with
  | PStr s => analyze_element lib self s screen_context_arg page_source
  | _ => analyze_other element_name
  end.

(** The body of [for step in test_case.get('steps', [])] on the steps
    left. *)
Fixpoint locators_of_steps (screen_context_arg : string)
  (page_source : option string) (steps : list value)
  (locators : list (value * LocatorAnalysis))
  : result (list (value * LocatorAnalysis)) :=
  match steps with
  | [] => Ok locators
  | step :: rest =>
      element_name <- get step "element" PNone ;;
      if truthy element_name then
        if hashable element_name then
          match key_lookup element_name locators with
          | Some _ =>
              locators_of_steps screen_context_arg page_source rest locators
          | None =>
              match analyze_target element_name screen_context_arg page_source with
              | Ok analysis =>
                  locators_of_steps screen_context_arg page_source rest
                    (key_store element_name analysis locators)
              | Raise _ =>
                  locators_of_steps screen_context_arg page_source rest locators
              end
          end
        else Raise TypeError
      else locators_of_steps screen_context_arg page_source rest locators
  end.

Definition generate_locators_for_test_case (test_case : value)
  (screen_context_arg : string) : result (list (value * LocatorAnalysis)) :=
  page_source <-
    (if has_driver self
     then (src <- get_page_source self ;; Ok (Some src))
     else Ok None) ;;
  steps_value <- get test_case "steps" (PList []) ;;
  steps <- iter steps_value ;;
  locators_of_steps screen_context_arg page_source steps [].

End TestCase.

(** ** [generate_locators_for_test_case] over a service with state *)

(** The model service and the session change with every call: over a state
    [M], [analyse m name context source] is
    [self.analyze_element(target_element=name, screen_context=context,
    page_source=source)] called in state [m], [read_source m] is
    [self.get_page_source()], and [driver_present] is [bool(self.driver)].
    Each returns the state it leaves behind. *)
Section Service.

Context {M : Type}.
Variable analyse :
  M -> value -> string -> option string -> M * result LocatorAnalysis.
Variable read_source : M -> M * result string.
Variable driver_present : bool.

(** A run: the state after it, the analyses made with their outcomes, in
    order, and the result. *)
Record generation : Type := mkGeneration {
  service_after : M;
  analyses : list (value * result LocatorAnalysis);
  generated : result (list (value * LocatorAnalysis))
}.

(** The loop over the steps left, from state [m]. *)
Fixpoint locators_of_steps_in (screen_context_arg : string)
  (page_source : option string) (steps : list value) (m : M)
  (locators : list (value * LocatorAnalysis)) : generation :=
  match steps with
  | [] => mkGeneration m [] (Ok locators)
  | step :: rest =>
      match get step "element" PNone with
      | Raise e => mkGeneration m [] (Raise e)
      | Ok element_name =>
          if truthy element_name then
            if hashable element_name then
              match key_lookup element_name locators with
              | Some _ =>
                  locators_of_steps_in screen_context_arg page_source rest m
                    locators
              | None =>
                  let (m1, outcome) :=
                    analyse m element_name screen_context_arg page_source in
                  let g :=
                    locators_of_steps_in screen_context_arg page_source rest m1
                      match outcome with
                      | Ok analysis => key_store element_name analysis locators
                      | Raise _ => locators
                      end in
                  mkGeneration (service_after g)
                    ((element_name, outcome) :: analyses g) (generated g)
              end
            else mkGeneration m [] (Raise TypeError)
          else
            locators_of_steps_in screen_context_arg page_source rest m locators
      end
  end.

Definition generate_locators_for_test_case_in (m : M) (test_case : value)
  (screen_context_arg : string) : generation :=
  let after_source :=
    if driver_present
    then match read_source m with
         | (m1, Ok src) => (m1, Ok (Some src))
         | (m1, Raise e) => (m1, Raise e)
         end
    else (m, Ok None) in
  match after_source with
  | (m1, Raise e) => mkGeneration m1 [] (Raise e)
  | (m1, Ok page_source) =>
      match bind (get test_case "steps" (PList [])) iter with
      | Raise e => mkGeneration m1 [] (Raise e)
      | Ok steps =>
          locators_of_steps_in screen_context_arg page_source steps m1 []
      end
  end.

End Service.

Arguments generation M : clear implicits.

(** ** [save_locators_schema_compliant] *)

(** The value stored under an element name. *)
Definition locator_entry (lib : Libs) (analysis : LocatorAnalysis) : value :=
  PDict [("element_name", element_name analysis);
         ("element_type", element_type analysis);
         ("primary_locator", primary_locator analysis);
         ("fallback_locators", fallback_locators analysis);
         ("description",
          PStr ("Auto-generated locator for "
                ++ str_of lib (element_name analysis)));
         ("suggested_actions", suggested_actions analysis);
         ("validation_text", validation_text analysis);
         ("screen_context", screen_context analysis);
         ("accessibility_info", accessibility_info analysis)].

(** [for element_name, analysis in locators.items(): ...] *)
Fixpoint element_locators (lib : Libs)
  (locators : list (string * LocatorAnalysis))
  (entries : list (string * value)) : list (string * value) :=
  match locators with
  | [] => entries
  | (name, analysis) :: rest =>
      element_locators lib rest (store name (locator_entry lib analysis) entries)
  end.

(** The file name and the document handed to [json.dump]. *)
Definition save_locators_schema_compliant (lib : Libs)
  (self : AILocatorGenerator) (locators : list (string * LocatorAnalysis))
  (test_case_name : string) : string * value :=
  let schema_compliant :=
    PDict [("element_locators", PDict (element_locators lib locators []));
           ("test_case_structure",
            PDict [("test_name", PStr test_case_name);
                   ("test_type", PStr "positive");
                   ("description",
                    PStr ("Auto-generated locators for " ++ test_case_name));
                   ("steps", PList [])]);
           ("configuration",
            PDict [("supported_strategies",
                    PList (map PStr (supported_strategies self)));
                   ("supported_actions",
                    PList (map PStr (supported_actions self)));
                   ("default_timeout", PInt 15);
                   ("retry_attempts", PInt 3);
                   ("screenshot_on_failure", PBool true)])] in
  (("locators_" ++ test_case_name ++ ".json")%string, schema_compliant).

End AILocator.

(* ===================================================================== *)
(** * [src/script_generator.py]                                           *)
(* ===================================================================== *)

Module ScriptGenerator.

(** The library calls of the module: [re.findall(pattern, text, re.DOTALL)],
    [re.sub(r'^[^#\n]*\n', '', text)], [str.strip], [str.upper],
    [json.dumps(locators, indent=2)], the prompt applied to its six parts,
    and [str(e)] of an exception. *)
Record ScriptLibs : Type := mkScriptLibs {
  re_findall : string -> string -> list string;
  re_sub_first_line : string -> string;
  str_strip : string -> string;
  str_upper : string -> string;
  json_dumps : value -> result string;
  format_flow_prompt : string -> value -> value -> string -> string -> string;
  str_of_exn : exn -> string
}.

(** ** [_extract_python_code_from_response] *)

(** The patterns, the first and the ones after it. *)
Definition first_pattern : string := "```python\s*(.*?)\s*```".

Definition later_patterns : list string :=
  ["```\s*(.*?)\s*```";
   "# Python code:(.*?)(?=\n\n|\Z)";
   "def test_.*?(?=\n\n|\Z)"].

(** [for pattern in patterns: matches = re.findall(...)]: what [matches]
    holds when the loop is over.  The test [if matches:] comes after the
    loop, not inside it. *)
Definition matches_after_loop (lib : ScriptLibs) (response_text : string)
  : list string :=
  fold_left (fun _ pattern => re_findall lib pattern response_text)
    later_patterns (re_findall lib first_pattern response_text).

(** [re.sub(r'^[^#\n]*\n', '', response_text.strip())] *)
Definition cleaned_response (lib : ScriptLibs) (response_text : string)
  : string :=
  re_sub_first_line lib (str_strip lib response_text).

Definition _extract_python_code_from_response (lib : ScriptLibs)
  (response_text : string) : string :=
  match matches_after_loop lib response_text with
  | m :: _ =>
      let extracted := str_strip lib m in
      if (100 <? Z.of_nat (List.length (chars extracted)))%Z
      then extracted
      else cleaned_response lib response_text
  | [] => cleaned_response lib response_text
  end.

(** ** [generate_comprehensive_flow_script] *)

(** The body of the [try] block; [generate prompt] is
    [self.model.generate_content(prompt, ...)] read at [.text]. *)
Definition generate_body (lib : ScriptLibs) (generate : string -> result string)
  (prompt : string) : result string :=
  text <- generate prompt ;;
  if String.eqb text "" then Raise (Exception "Empty response from Gemini API")
  else
    let generated_script := _extract_python_code_from_response lib text in
    if (Z.of_nat (List.length (chars generated_script)) <? 200)%Z
    then Raise (Exception "Generated script is too short for comprehensive flows")
    else Ok generated_script.

Definition generate_comprehensive_flow_script (lib : ScriptLibs)
  (generate : string -> result string) (test_case locators : value)
  (page_source flow_type : string) : result string :=
  (* the prompt is built before the [try] *)
  test_name <- get test_case "test_name" (PStr "Comprehensive Flow Test") ;;
  description <-
    get test_case "description" (PStr "End-to-end user journey testing") ;;
  dumped <- json_dumps lib locators ;;
  let source :=
    if String.eqb page_source "" then "Page source not provided"
    else truncate 2000 page_source in
  let flow_specific_prompt :=
    format_flow_prompt lib (str_upper lib flow_type) test_name description
      dumped source in
  match generate_body lib generate flow_specific_prompt with
  | Ok generated_script => Ok generated_script
  | Raise e =>
      Raise (Exception ("Failed to generate comprehensive flow script: "
                        ++ str_of_exn lib e))
  end.

(** [generate_test_script] *)
Definition generate_test_script (lib : ScriptLibs)
  (generate : string -> result string) (test_case locators : value)
  (page_source : string) : result string :=
  generate_comprehensive_flow_script lib generate test_case locators
    page_source "standard".

(** ** [validate_generated_script] *)

Record validation_result : Type := mkValidation {
  is_valid : bool;
  issues : list string;
  warnings : list string;
  score : Z
}.

Definition required_imports : list string :=
  ["unittest"; "from helper import"; "get_locator"].

Definition required_functions : list string :=
  ["def setUp"; "def tearDown"; "def test_login";
   "def test_product_selection"; "def test_add_to_cart"].

Definition required_features : list string :=
  ["launch()"; "wait_for_screen_transition"; "logger"; "screenshot";
   "handle_possible_popups"; "try:"; "except"].

(** [for imp in required_imports: if imp not in script_content: ...] *)
Fixpoint check_imports (names : list string) (script_content : string)
  (v : validation_result) : validation_result :=
  match names with
  | [] => v
  | imp :: rest =>
      check_imports rest script_content
        (if contains imp script_content then v
         else mkValidation (is_valid v)
                (issues v ++ [("Missing import: " ++ imp)%string])
                (warnings v) (score v - 10))
  end.

(** The two loops that add warnings, with the label of the message. *)
Fixpoint check_warnings (label : string) (names : list string)
  (script_content : string) (v : validation_result) : validation_result :=
  match names with
  | [] => v
  | name :: rest =>
      check_warnings label rest script_content
        (if contains name script_content then v
         else mkValidation (is_valid v) (issues v)
                (warnings v ++ [(label ++ name)%string]) (score v - 5))
  end.

Definition validate_generated_script (script_content : string)
  : validation_result :=
  let v := mkValidation true [] [] 100 in
  let v := check_imports required_imports script_content v in
  let v := check_warnings "Missing function: " required_functions
             script_content v in
  let v := check_warnings "Missing feature: " required_features
             script_content v in
  let v :=
    if (Z.of_nat (List.length (chars script_content)) <? 300)%Z
    then mkValidation (is_valid v)
           (issues v ++ ["Script too short for comprehensive flows"])
           (warnings v) (score v - 20)
    else v in
  if (score v <? 70)%Z
  then mkValidation false (issues v) (warnings v) (score v)
  else v.

End ScriptGenerator.

(* ===================================================================== *)
(** * [src/output/generated_scripts]                                      *)
(* ===================================================================== *)

Module GeneratedScripts.

(** The first argument of [driver.find_element]: a strategy read from a
    locator dictionary, or a member of [AppiumBy]. *)
Inductive by_arg : Type :=
| Raw (strategy : value)
| Member (b : AppiumBy).

(** [find_element_by d by value] is [driver.find_element(by, value)]; it
    returns the state it leaves the surface in. *)
Class Finder (D E : Type) : Type := {
  find_element_by : D -> by_arg -> value -> D * result E
}.

Section Flows.

Context {D E : Type} {F : Finder D E}.

(** A run: the state of the surface after it, the lookups made with
    whether they found an element, and the result. *)
Record lookup_run : Type := mkLookupRun {
  after : D;
  lookups : list (by_arg * value * bool);
  found : result E
}.

Definition is_ok (r : result E) : bool :=
  match r with
  | Ok _ => true
  | Raise _ => false
  end.

(** [driver.find_element(by=locator["strategy"], value=locator["value"])] *)
Definition find_with (d : D) (locator : value) : lookup_run :=
  match getitem locator "strategy" with
  | Raise e => mkLookupRun d [] (Raise e)
  | Ok strategy =>
      match getitem locator "value" with
      | Raise e => mkLookupRun d [] (Raise e)
      | Ok v =>
          let (d', r) := find_element_by d (Raw strategy) v in
          mkLookupRun d' [(Raw strategy, v, is_ok r)] r
      end
  end.

(** ** [test_shopping_app_login_flow.py]: [find_element_with_fallback] *)

(** [for fallback in element_data.get("fallback_locators", []): ...] on the
    fallbacks left; [None] when the loop runs out.  The handler formats
    [fallback['strategy']] into its message before it continues. *)
Fixpoint try_fallbacks (d : D) (fallbacks : list value)
  : D * list (by_arg * value * bool) * option (result E) :=
  match fallbacks with
  | [] => (d, [], None)
  | fallback :: rest =>
      let r := find_with d fallback in
      match found r with
      | Ok e => (after r, lookups r, Some (Ok e))
      | Raise _ =>
          match getitem fallback "strategy" with
          | Raise e' => (after r, lookups r, Some (Raise e'))
          | Ok _ =>
              let '(d', calls, res) := try_fallbacks (after r) rest in
              (d', lookups r ++ calls, res)
          end
      end
  end.

Definition find_element_with_fallback (driver : D) (element_name : string)
  (locators : value) : lookup_run :=
  match getitem locators element_name with
  | Raise e => mkLookupRun driver [] (Raise e)
  | Ok element_data =>
      match getitem element_data "primary_locator" with
      | Raise e => mkLookupRun driver [] (Raise e)
      | Ok primary_locator =>
          let r := find_with driver primary_locator in
          match found r with
          | Ok e => r
          | Raise _ =>
              match bind (get element_data "fallback_locators" (PList [])) iter with
              | Raise e => mkLookupRun (after r) (lookups r) (Raise e)
              | Ok fallbacks =>
                  let '(d, calls, res) := try_fallbacks (after r) fallbacks in
                  match res with
                  | Some res => mkLookupRun d (lookups r ++ calls) res
                  | None =>
                      let xpath := PStr (text_xpath element_name) in
                      let (d', res) := find_element_by d (Member XPATH) xpath in
                      mkLookupRun d'
                        (lookups r ++ calls ++ [(Member XPATH, xpath, is_ok res)])
                        res
                  end
              end
          end
      end
  end.

(** ** [test_shopping_app_checkout_flow.py]: [find_element] *)

(** [driver.find_element(locator[key]["strategy"], locator[key]["value"])] *)
Definition find_by_key (d : D) (locator : value) (key : string) : lookup_run :=
  match bind (getitem locator key) (fun l => getitem l "strategy") with
  | Raise e => mkLookupRun d [] (Raise e)
  | Ok strategy =>
      match bind (getitem locator key) (fun l => getitem l "value") with
      | Raise e => mkLookupRun d [] (Raise e)
      | Ok v =>
          let (d', r) := find_element_by d (Raw strategy) v in
          mkLookupRun d' [(Raw strategy, v, is_ok r)] r
      end
  end.

Definition find_element (driver : D) (locator : value) : lookup_run :=
  let r := find_by_key driver locator "primary_locator" in
  match found r with
  | Ok _ => r
  | Raise _ =>
      let r' := find_by_key (after r) locator "secondary_locator" in
      mkLookupRun (after r') (lookups r ++ lookups r') (found r')
  end.

End Flows.

Arguments lookup_run D E : clear implicits.

End GeneratedScripts.
(* ===================================================================== *)
(** * Vocabulary of the statements                                        *)
(* ===================================================================== *)

(** ** The quality tier *)

(** A [LocatorCandidate] as a parsed dict: any dict whose [strategy] and
    [value] entries are the given strings (other entries, such as the
    timeout, are free). *)
Definition is_candidate (items : list (string * value)) (strategy v : string)
  : Prop :=
  lookup "strategy" items = Some (PStr strategy) /\
  lookup "value" items = Some (PStr v).

Definition candidate (strategy v : string) : value :=
  PDict [("strategy", PStr strategy); ("value", PStr v)].

(** The rule table the code implements on string fields: rows one and three
    test for the two-character substring [//], rows four and five count the
    single character [/]. *)
Definition quality_rules (strategy v : string) : LocatorQuality :=
  let nonempty := negb (String.eqb v "") in
  let depth := count_char "/"%char v in
  if String.eqb strategy "id" && nonempty && negb (contains "//" v) then EXCELLENT
  else if String.eqb strategy "accessibility_id" && nonempty then EXCELLENT
  else if String.eqb strategy "class_name" && nonempty && negb (contains "//" v)
       then GOOD
  else if String.eqb strategy "xpath" && (depth <=? 3)%Z then GOOD
  else if String.eqb strategy "xpath" && (depth <=? 6)%Z then ACCEPTABLE
  else POOR.

(** Occurrences of [tok] in [s], counted from the left without overlap;
    [skip] characters are still covered by the last occurrence. *)
Fixpoint count_token_from (tok s : string) (skip : nat) : Z :=
  match s with
  | EmptyString => 0
  | String _ rest =>
      match skip with
      | S k => count_token_from tok rest k
      | O =>
          if prefix tok s
          then 1 + count_token_from tok rest (String.length tok - 1)
          else count_token_from tok rest 0
      end
  end.

Definition count_token (tok s : string) : Z := count_token_from tok s 0.

(** The table of the specification, read with one path-separator token
    [tok] for both "has no path-separator token" and "path depth". *)
Definition assessQuality_spec (tok strategy v : string) : LocatorQuality :=
  let nonempty := negb (String.eqb v "") in
  let depth := count_token tok v in
  if String.eqb strategy "id" && nonempty && negb (contains tok v) then EXCELLENT
  else if String.eqb strategy "accessibility_id" && nonempty then EXCELLENT
  else if String.eqb strategy "class_name" && nonempty && negb (contains tok v)
       then GOOD
  else if String.eqb strategy "xpath" && (depth <=? 3)%Z then GOOD
  else if String.eqb strategy "xpath" && (depth <=? 6)%Z then ACCEPTABLE
  else POOR.

(** [excellent > good > acceptable > poor]. *)
Definition rank (q : LocatorQuality) : Z :=
  match q with
  | EXCELLENT => 3
  | GOOD => 2
  | ACCEPTABLE => 1
  | POOR => 0
  end.

(** The string an entry contributes when it is absent or a [str]. *)
Definition str_field (key : string) (items : list (string * value))
  : option string :=
  match lookup key items with
  | None => Some ""
  | Some (PStr s) => Some s
  | Some _ => None
  end.


(** ** The confidence score *)

(** The three facts about a [LocatorRecord] the score depends on, read off
    the parsed dict as the data model types them: the strategy of the
    primary locator, the number of fallback locators (none when the entry is
    absent) and whether [accessibility_info.content_desc] is present and
    non-empty. *)
Definition primary_strategy_view (items : list (string * value))
  : option string :=
  match lookup "primary_locator" items with
  | Some (PDict primary) =>
      match lookup "strategy" primary with
      | Some (PStr s) => Some s
      | _ => None
      end
  | _ => None
  end.

Definition fallback_count_view (items : list (string * value)) : option Z :=
  match lookup "fallback_locators" items with
  | None => Some 0%Z
  | Some (PList l) => Some (Z.of_nat (List.length l))
  | Some _ => None
  end.

Definition content_desc_view (items : list (string * value)) : option bool :=
  match lookup "accessibility_info" items with
  | None => Some false
  | Some (PDict info) =>
      match lookup "content_desc" info with
      | None => Some false
      | Some (PStr t) => Some (negb (String.eqb t ""))
      | Some _ => None
      end
  | Some _ => None
  end.

(** The per-strategy bonus of the specification. *)
Definition strategy_bonus (strategy : string) : Q :=
  if String.eqb strategy "id" then 0.4
  else if String.eqb strategy "accessibility_id" then 0.35
  else if String.eqb strategy "class_name" then 0.2
  else if String.eqb strategy "android_uiautomator" then 0.15
  else if String.eqb strategy "xpath" then 0.1
  else if String.eqb strategy "name" then 0.1
  else if String.eqb strategy "tag_name" then 0.05
  else 0.

Definition clamp01 (x : Q) : Q := Qmax 0 (Qmin x 1).

(** The score of the specification: base, bonus, capped fallback term,
    accessibility term, clamped to [[0,1]]. *)
Definition confidence_spec (strategy : string) (fallbackCount : Z)
  (content_desc : bool) : Q :=
  clamp01 (0.5 + strategy_bonus strategy
           + Qmin (0.05 * inject_Z fallbackCount) 0.15
           + (if content_desc then 0.1 else 0)).

(** The capped fallback term and the score of a record with strategy [s],
    [n] fallback locators and a content description or none, as the method
    computes them on floats. *)
Definition fallback_term (n : Z) : Q :=
  fmin (fmul (of_int n) (literal 0.05)) (literal 0.15).

Definition confidence_value (s : string) (n : Z) (acc : bool) : Q :=
  let c := fadd (literal 0.5) (literal (strategy_bonus s)) in
  let c := fadd c (fallback_term n) in
  fmin (if acc then fadd c (literal 0.1) else c) (literal 1.0).

(** The score of the specification with its constants read as float
    literals and its sum and product carried out on floats, from left to
    right. *)
Definition confidence_binary64 (s : string) (n : Z) (acc : bool) : Q :=
  let c := fadd (literal 0.5) (literal (strategy_bonus s)) in
  let c := fadd c (fmin (fmul (literal 0.05) (of_int n)) (literal 0.15)) in
  clamp01 (if acc then fadd c (literal 0.1) else c).

(** Half a unit in the last place of the numbers between 1 and 2. *)
Definition half_ulp : Q := 1 # 9007199254740992.

(** The same sum on the primitive binary64 numbers of the kernel, with the
    bonus given as a float and the count as a machine integer. *)
Definition primitive_confidence (bonus : float) (n : int) (acc : bool)
  : float :=
  let c := (0.5 + bonus)%float in
  let t := (of_uint63 n * 0.05)%float in
  let c := (c + (if (0.15 <? t)%float then 0.15 else t))%float in
  let c := if acc then (c + 0.1)%float else c in
  if (1.0 <? c)%float then 1.0%float else c.

(** The strategies of the bonus table with their bonus as a float literal,
    and one that the table does not list ([strategy_scores.get] answers the
    [int] 0 for it). *)
Definition bonus_literals : list (string * float) :=
  [("id", 0.4); ("accessibility_id", 0.35); ("class_name", 0.2);
   ("android_uiautomator", 0.15); ("xpath", 0.1); ("name", 0.1);
   ("tag_name", 0.05); ("css", 0)]%float.

Definition same_number (f : float) (q : Q) : bool :=
  match Q_of_float f with
  | Some x => Qeq_bool x q
  | None => false
  end.

(** ** The structural validator *)

(** The four rules of the validator on a candidate object, one predicate
    each. *)

(** Rule 1: the three required top-level fields are present. *)
Definition required_present (items : list (string * value)) : bool :=
  match lookup "element_name" items, lookup "element_type" items,
        lookup "primary_locator" items with
  | Some _, Some _, Some _ => true
  | _, _, _ => false
  end.

(** Rule 2: [primary_locator.strategy] exists and is a known strategy. *)
Definition strategy_known (self : AILocatorGenerator)
  (items : list (string * value)) : bool :=
  match lookup "primary_locator" items with
  | Some primary =>
      match getitem primary "strategy" with
      | Ok s => in_strs s (supported_strategies self)
      | Raise _ => false
      end
  | None => false
  end.

(** Rule 3: [element_type] is a known element type. *)
Definition type_known (self : AILocatorGenerator)
  (items : list (string * value)) : bool :=
  match lookup "element_type" items with
  | Some t => in_strs t (element_types self)
  | None => false
  end.

(** Rule 4: [suggested_actions], if present, can be iterated and every
    entry is a known action. *)
Definition actions_known (self : AILocatorGenerator)
  (items : list (string * value)) : bool :=
  match lookup "suggested_actions" items with
  | None => true
  | Some actions =>
      match iter actions with
      | Ok entries =>
          forallb (fun action => in_strs action (supported_actions self)) entries
      | Raise _ => false
      end
  end.

(** The exceptions the [except] clause of the validator names. *)
Definition key_or_type_error (e : exn) : Prop :=
  e = TypeError \/ exists k : string, e = KeyError k.

(** ** The two inference entry points *)

(** A candidate the validator rejects: neither its element type nor the
    strategy of its primary locator is in any registry that lacks
    [hologram] and [css]. *)
Definition unvalidated_candidate : value :=
  PDict [("element_name", PStr "login");
         ("element_type", PStr "hologram");
         ("primary_locator",
          PDict [("strategy", PStr "css"); ("value", PStr "#login")])].

(** The reply of the whole-screen prompt that carries it. *)
Definition unvalidated_screen : value :=
  PDict [("screen_elements", PDict [("login", unvalidated_candidate)])].

(** A generator whose model answers every prompt with the text [reply], and
    library functions under which that text parses to
    [unvalidated_screen]. *)
Definition replying_generator : AILocatorGenerator :=
  mkAILocatorGenerator
    ["id"; "xpath"; "accessibility_id"; "class_name"; "android_uiautomator";
     "name"; "tag_name"]
    ["click"; "send_keys"; "verify_text"]
    ["button"; "text_field"; "text_view"; "image"; "checkbox"; "radio_button";
     "dropdown"; "list_item"; "container"]
    (fun _ => Ok "reply") false
    (Raise (WebDriverException "Driver not initialized")).

Definition reply_libs : Libs :=
  mkLibs (fun s => s) (fun s => s)
    (fun s => if String.eqb s "reply" then [s] else [])
    (fun s => if String.eqb s "reply" then Some unvalidated_screen else None)
    (fun s => s)
    (fun target context source => source)
    (fun context xml => xml)
    (fun v => match v with PStr s => s | _ => "" end).

(** ** Element resolution *)

(** A lookup the resolver performs: strategy name, [AppiumBy] member, value
    and wait timeout. *)
Abbreviation call := (string * AppiumBy * string * Z)%type (only parsing).

Definition call_timeout (c : call) : Z := snd c.
Definition call_value (c : call) : string := snd (fst c).
Definition call_strategy (c : call) : string := fst (fst (fst c)).

(** The lookups the loop makes when no trial ends it early: one for every
    name of [order] that the strategy mapping knows, in order. *)
Definition planned_calls (order : list string) (v : string) (per_strategy : Z)
  : list call :=
  flat_map (fun s => match by_of s strategies with
                     | Some b => [(s, b, v, per_strategy)]
                     | None => []
                     end) order.

(** The trial order of the specification for a record, as (strategy, value)
    pairs: the primary locator, the fallback locators in their order, then
    every known strategy not yet included, with the value of the primary
    locator. *)
Definition spec_trial_order (primary : string * string)
  (fallbacks : list (string * string)) (known : list string)
  : list (string * string) :=
  primary :: fallbacks ++
  map (fun s => (s, snd primary))
      (filter (fun s => negb (existsb (String.eqb s)
                                      (map fst (primary :: fallbacks))))
              known).

Section ResolverVocabulary.

Context {E : Type}.

(** The strategy trials of a trace, without their outcomes. *)
Definition call_of (ev : event E) : list call :=
  match ev with
  | Trial s b v t _ => [(s, b, v, t)]
  | _ => []
  end.

Definition trial_calls (tr : list (event E)) : list call := flat_map call_of tr.

(** The timeouts of the strategy trials, and of the text fallback. *)
Definition trial_waits (tr : list (event E)) : list Z :=
  map call_timeout (trial_calls tr).

Definition fallback_waits (tr : list (event E)) : list Z :=
  flat_map (fun ev => match ev with
                      | TextFallback _ _ t _ => [t]
                      | _ => []
                      end) tr.

Definition total (ws : list Z) : Z := fold_right Z.add 0%Z ws.

(** Trials that all ended in timeout, not-found or not-displayed. *)
Definition rejected_trials (cs : list call) : list (event E) :=
  map (fun c : call =>
         Trial (call_strategy c) (snd (fst (fst c))) (call_value c)
               (call_timeout c) Rejected) cs.

(** Exhaustion: every known strategy of the order was tried and rejected,
    then the text lookup for the value found nothing. *)
Definition exhausted (locator_strategy v : string) (per_strategy : Z)
  (tr : list (event E)) : Prop :=
  tr = rejected_trials
         (planned_calls (strategy_order locator_strategy) v per_strategy)
       ++ [TextFallback XPATH (text_xpath v) 2 None].

End ResolverVocabulary.

(** The (strategy, value) pairs a trace tried, in order. *)
Definition tried {E : Type} (tr : list (event E)) : list (string * string) :=
  map (fun c : call => (call_strategy c, call_value c)) (trial_calls tr).

(** The wait each strategy trial of a call gets. *)
Definition per_strategy_wait (locator_strategy : string) (timeout : option Z)
  : Z :=
  (effective_timeout timeout
   / Z.of_nat (List.length (strategy_order locator_strategy)))%Z.

Definition AppiumBy_eqb (a b : AppiumBy) : bool :=
  match a, b with
  | ID, ID | XPATH, XPATH | ACCESSIBILITY_ID, ACCESSIBILITY_ID
  | CLASS_NAME, CLASS_NAME | ANDROID_UIAUTOMATOR, ANDROID_UIAUTOMATOR => true
  | _, _ => false
  end.

(** Sample surfaces with state [unit] and elements numbered by [nat]. *)

(** Only the xpath [//Button[@text='Login']] locates an element (number 1),
    which is displayed. *)
Definition login_button_surface : WebDriver unit nat :=
  {| wait_presence := fun d _ b v =>
       if AppiumBy_eqb b XPATH && String.eqb v "//Button[@text='Login']"
       then (d, Ok 1%nat) else (d, Raise TimeoutException);
     is_displayed := fun d _ => (d, Ok true) |}.

(** Every xpath lookup for [login_btn] locates the displayed element 1; no
    other lookup locates anything. *)
Definition xpath_only_surface : WebDriver unit nat :=
  {| wait_presence := fun d _ b v =>
       if AppiumBy_eqb b XPATH && String.eqb v "login_btn"
       then (d, Ok 1%nat) else (d, Raise TimeoutException);
     is_displayed := fun d _ => (d, Ok true) |}.

(** Only the text lookup for [Login] locates an element (number 7). *)
Definition text_only_surface : WebDriver unit nat :=
  {| wait_presence := fun d _ b v =>
       if AppiumBy_eqb b XPATH && String.eqb v (text_xpath "Login")
       then (d, Ok 7%nat) else (d, Raise TimeoutException);
     is_displayed := fun d _ => (d, Ok false) |}.

(** No lookup locates anything. *)
Definition empty_surface : WebDriver unit nat :=
  {| wait_presence := fun d _ _ _ => (d, Raise TimeoutException);
     is_displayed := fun d _ => (d, Ok true) |}.

(** The session is lost: every lookup raises a [WebDriverException]. *)
Definition broken_surface : WebDriver unit nat :=
  {| wait_presence := fun d _ _ _ =>
       (d, Raise (WebDriverException "session deleted"));
     is_displayed := fun d _ => (d, Ok true) |}.

(** ** Scrolling *)

Section ScrollVocabulary.

Context {D E : Type}.

(** The resolution attempts of a scroll trace, and the number of swipes. *)
Definition attempts_of (tr : list (AppiumBase.scroll_event D E))
  : list (run D E) :=
  flat_map (fun ev => match ev with
                      | AppiumBase.Attempt r => [r]
                      | _ => []
                      end) tr.

Definition swipes_of (tr : list (AppiumBase.scroll_event D E)) : nat :=
  List.length (filter (fun ev => match ev with
                                 | AppiumBase.Swipe _ _ => true
                                 | _ => false
                                 end) tr).

End ScrollVocabulary.

(** The exception is a [NoSuchElementException]. *)
Definition not_found (x : exn) : bool :=
  match x with
  | NoSuchElementException _ => true
  | _ => false
  end.

(** The run ended in a [NoSuchElementException]. *)
Definition failed {D E : Type} (r : run D E) : Prop :=
  exists m : string, outcome r = Raise (NoSuchElementException m).

(** The message of the exception [scroll_to_element] ends with. *)
Definition not_found_after (max_scrolls : Z) (v : string) : string :=
  "Element not found after " ++ AppiumBase.str_of_int max_scrolls
  ++ " scrolls: " ++ v.

(** A session with a 1080 x 1920 window whose gestures succeed and whose
    page source is [src]. *)
Definition steady_session (src : string) : AppiumBase.Session unit :=
  {| AppiumBase.get_window_size := fun d => (d, Ok (1080, 1920)%Z);
     AppiumBase.swipe := fun d _ _ => (d, Ok tt);
     AppiumBase.page_source := fun d => (d, Ok src);
     AppiumBase.session_id := fun _ => true;
     AppiumBase.quit := fun _ => Ok tt |}.

(** The backoff before the attempts that follow attempt number [attempt]:
    [(attempt + 1) * 2] seconds after each failed attempt but the last. *)
Fixpoint backoff (attempt : Z) (failures : nat) : list Z :=
  match failures with
  | O => []
  | Datatypes.S k => ((attempt + 1) * 2)%Z :: backoff (attempt + 1)%Z k
  end.

(** A session without a session id. *)
Definition idless_session : AppiumBase.Session unit :=
  {| AppiumBase.get_window_size := fun d => (d, Ok (1080, 1920)%Z);
     AppiumBase.swipe := fun d _ _ => (d, Ok tt);
     AppiumBase.page_source := fun d => (d, Ok "");
     AppiumBase.session_id := fun _ => false;
     AppiumBase.quit := fun _ => Ok tt |}.

(** A server that creates a session on every request. *)
Definition willing_server : AppiumBase.Server unit unit :=
  {| AppiumBase.remote := fun s => (s, Ok tt) |}.

(** A rendering of exceptions that shows only a driver message. *)
Definition plain_message (e : exn) : string :=
  match e with
  | WebDriverException m => m
  | _ => ""
  end.

(** ** The API key in the log *)

(** Every byte of the string is an ASCII character. *)
Fixpoint ascii_only (s : string) : bool :=
  match s with
  | EmptyString => true
  | String c rest => (nat_of_ascii c <? 128)%nat && ascii_only rest
  end.

(** ** Script validation *)

(** The required names a script does not contain. *)
Definition missing (names : list string) (script_content : string)
  : list string :=
  filter (fun name => negb (contains name script_content)) names.

(** The script has fewer than 300 characters. *)
Definition too_short (script_content : string) : bool :=
  (Z.of_nat (List.length (chars script_content)) <? 300)%Z.

(** What a script loses: 10 for a missing import, 5 for a missing function
    or feature, 20 for being too short. *)
Definition penalty (script_content : string) : Z :=
  10 * Z.of_nat (List.length
                   (missing ScriptGenerator.required_imports script_content))
  + 5 * Z.of_nat (List.length
                    (missing ScriptGenerator.required_functions script_content))
  + 5 * Z.of_nat (List.length
                    (missing ScriptGenerator.required_features script_content))
  + (if too_short script_content then 20 else 0).

(** ** Records and saved entries *)

(** The strategy of the primary locator of a record is a known strategy. *)
Definition record_strategy_known (self : AILocatorGenerator)
  (r : LocatorAnalysis) : Prop :=
  exists s : value,
    getitem (primary_locator r) "strategy" = Ok s /\
    in_strs s (supported_strategies self) = true.

(** Every suggested action of a record is a known action. *)
Definition record_actions_known (self : AILocatorGenerator)
  (r : LocatorAnalysis) : Prop :=
  exists actions : list value,
    iter (suggested_actions r) = Ok actions /\
    forall a : value, In a actions ->
                      in_strs a (supported_actions self) = true.

(** A candidate the validator accepts under [replying_generator]. *)
Definition login_candidate : value :=
  PDict [("element_name", PStr "login_button");
         ("element_type", PStr "button");
         ("primary_locator",
          PDict [("strategy", PStr "id"); ("value", PStr "login_btn")]);
         ("suggested_actions", PList [PStr "click"])].

(** Library functions under which the reply parses to [login_candidate],
    and a generator that holds a page source. *)
Definition login_libs : Libs :=
  mkLibs (fun s => s) (fun s => s)
    (fun s => if String.eqb s "reply" then [s] else [])
    (fun s => if String.eqb s "reply" then Some login_candidate else None)
    (fun s => s)
    (fun target context source => source)
    (fun context xml => xml)
    (fun v => match v with PStr s => s | _ => "" end).

(** Library functions under which the reply parses to a screen of two
    elements. *)
Definition screen_libs : Libs :=
  mkLibs (fun s => s) (fun s => s)
    (fun s => if String.eqb s "reply" then [s] else [])
    (fun s => if String.eqb s "reply"
              then Some (PDict [("screen_elements",
                                 PDict [("login", login_candidate);
                                        ("odd", unvalidated_candidate)])])
              else None)
    (fun s => s)
    (fun target context source => source)
    (fun context xml => xml)
    (fun v => match v with PStr s => s | _ => "" end).

(** A test case of three steps, two of them on the same element. *)
Definition login_test_case : value :=
  PDict [("test_name", PStr "login");
         ("steps",
          PList [PDict [("action", PStr "click");
                        ("element", PStr "login_button")];
                 PDict [("action", PStr "wait")];
                 PDict [("action", PStr "verify_text");
                        ("element", PStr "login_button")]])].

(** ** Test cases *)

(** A step names [name]: [step.get('element')] is the [str] [name]. *)
Definition names_element (step : value) (name : string) : Prop :=
  get step "element" PNone = Ok (PStr name).

(** A step is an object whose element, if it has one, is a [str]. *)
Definition plain_step (step : value) : Prop :=
  exists items : list (string * value),
    step = PDict items /\
    (lookup "element" items = None \/
     exists name : string, lookup "element" items = Some (PStr name)).

(** A step whose element is a non-empty list: truthy and unhashable. *)
Definition list_step (step : value) : Prop :=
  exists (items : list (string * value)) (x : value) (l : list value),
    step = PDict items /\ lookup "element" items = Some (PList (x :: l)).

(** The steps a test case object carries: none when it has no [steps]. *)
Definition steps_of (items : list (string * value)) (steps : list value)
  : Prop :=
  match lookup "steps" items with
  | Some v => v = PList steps
  | None => steps = []
  end.

(** The page source can be read whenever there is a driver. *)
Definition source_readable (self : AILocatorGenerator) : Prop :=
  has_driver self = true -> exists src : string, get_page_source self = Ok src.

(** The page source of a screen with a login button. *)
Definition login_page_source : string :=
  "<hierarchy rotation='0'><android.widget.Button resource-id='login_btn' text='Login' bounds='[0,0][200,80]'/></hierarchy>".

(** [replying_generator] with a driver that reports [login_page_source]. *)
Definition sourced_generator : AILocatorGenerator :=
  mkAILocatorGenerator
    (supported_strategies replying_generator)
    (supported_actions replying_generator)
    (element_types replying_generator)
    (generate_content replying_generator) true (Ok login_page_source).

(** ** Analyses of a test case *)

(** The records of the analyses that returned, in order. *)
Definition successes (calls : list (value * result LocatorAnalysis))
  : list (value * LocatorAnalysis) :=
  flat_map (fun c => match snd c with
                     | Ok r => [(fst c, r)]
                     | Raise _ => []
                     end) calls.

(** The analyses of the element [name], and the steps that name it. *)
Definition calls_for (name : string)
  (calls : list (value * result LocatorAnalysis))
  : list (value * result LocatorAnalysis) :=
  filter (fun c => AILocator.key_eqb (fst c) (PStr name)) calls.

Definition naming (name : string) (steps : list value) : list value :=
  filter (fun step => match get step "element" PNone with
                      | Ok (PStr t) => String.eqb t name
                      | _ => false
                      end) steps.

(** The analysis raised. *)
Definition failed_call (c : value * result LocatorAnalysis) : Prop :=
  exists e : exn, snd c = Raise e.

(** The element [name] is analysed at each of the [k] steps that name it
    until an analysis returns, and not after: either all [k] analyses
    failed and it has no record, or the last of at most [k] analyses
    returned its record and the ones before failed. *)
Definition analysed_until_success (name : string)
  (calls : list (value * result LocatorAnalysis)) (k : nat)
  (locators : list (value * LocatorAnalysis)) : Prop :=
  (Forall failed_call (calls_for name calls) /\
   List.length (calls_for name calls) = k /\
   AILocator.key_lookup (PStr name) locators = None) \/
  (exists (fails : list (value * result LocatorAnalysis))
          (r : LocatorAnalysis),
     calls_for name calls = fails ++ [(PStr name, Ok r)] /\
     Forall failed_call fails /\
     (List.length (calls_for name calls) <= k)%nat /\
     AILocator.key_lookup (PStr name) locators = Some r).

(** A record for the login button, and a service that fails on its first
    call and answers with that record from then on; its state counts the
    calls. *)
Definition login_record : LocatorAnalysis :=
  mkLocatorAnalysis (PStr "login_button")
    (PDict [("strategy", PStr "id"); ("value", PStr "login_btn")])
    (PList []) (PStr "button") (PList [PStr "click"]) PNone
    (PStr "login_screen") EXCELLENT (PDict []) (literal 0.9).

Definition flaky_analyse (m : nat) (name : value) (context : string)
  (source : option string) : nat * result LocatorAnalysis :=
  (S m,
   match m with
   | O => Raise (Exception "Empty response from Gemini API")
   | S _ => Ok login_record
   end).

Definition steady_source (m : nat) : nat * result string :=
  (m, Ok login_page_source).

(** ** The generated scripts *)

(** The lookup a locator dictionary stands for, when it has both
    fields. *)
Definition locator_lookup (locator : value)
  : list (GeneratedScripts.by_arg * value) :=
  match getitem locator "strategy", getitem locator "value" with
  | Ok s, Ok v => [(GeneratedScripts.Raw s, v)]
  | _, _ => []
  end.

(** The lookups of the login flow when nothing is found: the primary
    locator, the fallback locators in their order, the text of the name. *)
Definition fallback_plan (primary : value) (fallbacks : list value)
  (element_name : string) : list (GeneratedScripts.by_arg * value) :=
  locator_lookup primary ++ flat_map locator_lookup fallbacks
  ++ [(GeneratedScripts.Member XPATH, PStr (text_xpath element_name))].

(** The lookup found nothing. *)
Definition missed (c : GeneratedScripts.by_arg * value * bool) : bool :=
  negb (snd c).

(** A surface on which no lookup finds anything. *)
Definition finds_nothing {D E : Type} (F : GeneratedScripts.Finder D E)
  : Prop :=
  forall (d : D) (b : GeneratedScripts.by_arg) (v : value),
    exists (d' : D) (e : exn),
      GeneratedScripts.find_element_by d b v = (d', Raise e).

(** A surface that finds the button only by its xpath, and one that finds
    nothing; the state counts the lookups. *)
Definition xpath_finder : GeneratedScripts.Finder nat string :=
  {| GeneratedScripts.find_element_by := fun d b v =>
       (S d,
        match b, v with
        | GeneratedScripts.Raw (PStr "xpath"),
          PStr "//Button[@text='Login']" => Ok "button"
        | _, _ => Raise (NoSuchElementException "no such element")
        end) |}.

Definition blind_finder : GeneratedScripts.Finder nat string :=
  {| GeneratedScripts.find_element_by := fun d b v =>
       (S d, Raise (NoSuchElementException "no such element")) |}.

(** The locators of a login button with two fallbacks. *)
Definition login_locators : value :=
  PDict [("login_button",
          PDict [("primary_locator",
                  PDict [("strategy", PStr "id"); ("value", PStr "login_btn")]);
                 ("fallback_locators",
                  PList [PDict [("strategy", PStr "xpath");
                                ("value", PStr "//Button[@text='Login']")];
                         PDict [("strategy", PStr "accessibility_id");
                                ("value", PStr "Login")]])])].

(** The same button with a second fallback that has no strategy. *)
Definition malformed_locators : value :=
  PDict [("login_button",
          PDict [("primary_locator",
                  PDict [("strategy", PStr "id"); ("value", PStr "login_btn")]);
                 ("fallback_locators",
                  PList [PDict [("strategy", PStr "xpath");
                                ("value", PStr "//Button")];
                         PDict [("value", PStr "Login")];
                         PDict [("strategy", PStr "class_name");
                                ("value", PStr "Button")]])])].

(** ** Script extraction *)

(** The last of the four patterns. *)
Definition last_pattern : string := "def test_.*?(?=\n\n|\Z)".

(** The number of characters of a string. *)
Definition char_length (s : string) : Z := Z.of_nat (List.length (chars s)).

(** The message of every failure inside the [try] of
    [generate_comprehensive_flow_script]. *)
Definition wrapped_failure (e : exn) : Prop :=
  exists msg : string,
    e = Exception ("Failed to generate comprehensive flow script: " ++ msg).

(** Two regular-expression engines for one reply: under the first the
    fence pattern finds a block of code, under the second no pattern finds
    anything but the last one, on which they agree. *)
Definition fenced_code : string :=
  "import unittest
from helper import *

class TestShoppingApp(unittest.TestCase):
    def setUp(self):
        self.driver = launch()

    def test_login(self):
        logger.info('login')".

Definition fence_libs : ScriptGenerator.ScriptLibs :=
  ScriptGenerator.mkScriptLibs
    (fun pattern text =>
       if String.eqb pattern ScriptGenerator.first_pattern then [fenced_code]
       else if String.eqb pattern last_pattern then ["def test_login(self):"]
       else [])
    (fun text => text) (fun text => text) (fun text => text)
    (fun _ => Ok "{}")
    (fun flow name description dumped source => source)
    (fun _ => "error").

Definition plain_libs : ScriptGenerator.ScriptLibs :=
  ScriptGenerator.mkScriptLibs
    (fun pattern text =>
       if String.eqb pattern last_pattern then ["def test_login(self):"]
       else [])
    (fun text => text) (fun text => text) (fun text => text)
    (fun _ => Ok "{}")
    (fun flow name description dumped source => source)
    (fun _ => "error").
(* ===================================================================== *)
(** * Properties                                                          *)
(* ===================================================================== *)

(** ** The quality tier *)

Example quality_android_id :
  _assess_locator_quality
    (candidate "id" "com.example.shoppingapp:id/login_button") = Ok EXCELLENT.
Proof. reflexivity. Qed.

Example quality_deep_xpath :
  _assess_locator_quality (candidate "xpath" "/a/b/c/d/e/f/g") = Ok POOR.
Proof. reflexivity. Qed.

(** On string fields the method returns, and returns the row of
    [quality_rules]. *)
Lemma assess_str_fields (items : list (string * value)) (strategy v : string) :
  str_field "strategy" items = Some strategy ->
  str_field "value" items = Some v ->
  _assess_locator_quality (PDict items) = Ok (quality_rules strategy v).
Proof.
  unfold str_field, _assess_locator_quality, quality_rules, get.
  intros Hs Hv.
  destruct (lookup "strategy" items) as [[]|]; try discriminate;
    destruct (lookup "value" items) as [[]|]; try discriminate;
    injection Hs as <-; injection Hv as <-;
    unfold nonempty_without_double_slash, slash_count_le, str_in,
      contains_key, count, bind, eq_str, truthy;
    repeat match goal with
           | |- context [String.eqb ?a ?b] => destruct (String.eqb a b) eqn:?
           | |- context [contains ?a ?b] => destruct (contains a b) eqn:?
           | |- context [(?a <=? ?b)%Z] => destruct (a <=? b)%Z eqn:?
           end; cbn; try reflexivity; try discriminate.
Qed.

Lemma assess_candidate (items : list (string * value)) (strategy v : string) :
  is_candidate items strategy v ->
  _assess_locator_quality (PDict items) = Ok (quality_rules strategy v).
Proof.
  intros [Hs Hv].
  apply assess_str_fields; unfold str_field; [rewrite Hs | rewrite Hv];
    reflexivity.
Qed.

(** A token that does not occur in [a/b] occurs at most twice in [////]. *)
Lemma token_absent_from_a_slash_b (tok : string) :
  contains tok "a/b" = false -> (count_token tok "////" <= 3)%Z.
Proof.
  unfold count_token.
  destruct tok as [|c1 [|c2 [|c3 [|c4 t]]]]; cbn;
    repeat match goal with
           | |- context [ascii_dec ?a ?b] => destruct (ascii_dec a b); subst; cbn
           | |- context [prefix ?a ?b] => destruct (prefix a b); cbn
           end; intros; try discriminate; try lia.
  destruct t; lia.
Qed.

(** C3, as stated: no single path-separator token makes the rule table of
    the specification agree with [_assess_locator_quality] on every
    candidate.  The candidates that separate them are [id] with value
    [a/b] (rated excellent by the code) and [xpath] with value [////]
    (rated acceptable by the code). *)
Lemma assess_quality_single_token_refuted :
  ~ (exists tok : string, forall strategy v : string,
        _assess_locator_quality (candidate strategy v)
        = Ok (assessQuality_spec tok strategy v)).
Proof.
  intros [tok H].
  pose proof (H "id" "a/b") as Hid.
  pose proof (H "xpath" "////") as Hxp.
  change (_assess_locator_quality (candidate "id" "a/b"))
    with (Ok EXCELLENT) in Hid.
  change (_assess_locator_quality (candidate "xpath" "////"))
    with (Ok ACCEPTABLE) in Hxp.
  injection Hid as Hid. injection Hxp as Hxp.
  change (assessQuality_spec tok "id" "a/b")
    with (if negb (contains tok "a/b") then EXCELLENT else POOR) in Hid.
  change (assessQuality_spec tok "xpath" "////")
    with (if (count_token tok "////" <=? 3)%Z then GOOD
          else if (count_token tok "////" <=? 6)%Z then ACCEPTABLE
          else POOR) in Hxp.
  destruct (contains tok "a/b") eqn:Hc; [discriminate Hid|].
  pose proof (token_absent_from_a_slash_b tok Hc) as Hle.
  apply Z.leb_le in Hle. rewrite Hle in Hxp. discriminate Hxp.
Qed.

(** C3, amended: on every locator candidate (string strategy and value)
    [_assess_locator_quality] returns the first matching row of the table
    - [id], value non-empty and without the substring [//]: excellent;
    - [accessibility_id], value non-empty: excellent;
    - [class_name], value non-empty and without the substring [//]: good;
    - [xpath] with at most 3 characters [/]: good;
    - [xpath] with at most 6 characters [/]: acceptable;
    - otherwise poor. *)
Theorem assess_quality_rule_table
  (items : list (string * value)) (strategy v : string) :
  is_candidate items strategy v ->
  _assess_locator_quality (PDict items) = Ok (quality_rules strategy v) /\
  (strategy = "id" -> v <> "" -> contains "//" v = false ->
     quality_rules strategy v = EXCELLENT) /\
  (strategy = "accessibility_id" -> v <> "" ->
     quality_rules strategy v = EXCELLENT) /\
  (strategy = "class_name" -> v <> "" -> contains "//" v = false ->
     quality_rules strategy v = GOOD) /\
  (strategy = "xpath" -> (count_char "/" v <= 3)%Z ->
     quality_rules strategy v = GOOD) /\
  (strategy = "xpath" -> (3 < count_char "/" v <= 6)%Z ->
     quality_rules strategy v = ACCEPTABLE) /\
  (quality_rules strategy v <> POOR ->
     (strategy = "id" /\ v <> "" /\ contains "//" v = false) \/
     (strategy = "accessibility_id" /\ v <> "") \/
     (strategy = "class_name" /\ v <> "" /\ contains "//" v = false) \/
     (strategy = "xpath" /\ (count_char "/" v <= 6)%Z)).
Proof.
  intros Hcand.
  split; [apply assess_candidate; exact Hcand|]. clear Hcand.
  unfold quality_rules.
  repeat split.
  - intros -> Hne Hc. apply String.eqb_neq in Hne. rewrite Hne, Hc. reflexivity.
  - intros -> Hne. apply String.eqb_neq in Hne. rewrite Hne. reflexivity.
  - intros -> Hne Hc. apply String.eqb_neq in Hne. rewrite Hne, Hc. reflexivity.
  - intros -> Hd. apply Z.leb_le in Hd. rewrite Hd. reflexivity.
  - intros -> [Hlo Hhi]. apply Z.leb_gt in Hlo. apply Z.leb_le in Hhi.
    rewrite Hlo, Hhi. reflexivity.
  - destruct (String.eqb strategy "id") eqn:E1;
      destruct (String.eqb strategy "accessibility_id") eqn:E2;
      destruct (String.eqb strategy "class_name") eqn:E3;
      destruct (String.eqb strategy "xpath") eqn:E4;
      destruct (String.eqb v "") eqn:E5;
      destruct (contains "//" v) eqn:E6;
      destruct (count_char "/" v <=? 3)%Z eqn:E7;
      destruct (count_char "/" v <=? 6)%Z eqn:E8;
      cbn; intros Hq; try (exfalso; apply Hq; reflexivity);
      try apply String.eqb_eq in E1; try apply String.eqb_eq in E2;
      try apply String.eqb_eq in E3; try apply String.eqb_eq in E4;
      try apply String.eqb_neq in E5;
      try apply Z.leb_le in E7; try apply Z.leb_le in E8;
      try apply Z.leb_gt in E7;
      try (left; repeat split; assumption);
      try (right; left; repeat split; assumption);
      try (right; right; left; repeat split; assumption);
      try (right; right; right; split; [assumption | lia]).
Qed.

(** The candidate [{strategy: xpath, value: //a/b}] satisfies the
    precondition of [assess_quality_rule_table]. *)
Lemma assess_quality_rule_table_witness :
  is_candidate [("strategy", PStr "xpath"); ("value", PStr "//a/b")]
    "xpath" "//a/b" /\
  _assess_locator_quality
    (PDict [("strategy", PStr "xpath"); ("value", PStr "//a/b")])
  = Ok (quality_rules "xpath" "//a/b").
Proof.
  split.
  - split; reflexivity.
  - apply (assess_quality_rule_table
             [("strategy", PStr "xpath"); ("value", PStr "//a/b")]
             "xpath" "//a/b").
    split; reflexivity.
Defined.

(** The rows of [quality_rules] for an [xpath] candidate. *)
Lemma quality_rules_xpath (v : string) :
  quality_rules "xpath" v =
  if (count_char "/" v <=? 3)%Z then GOOD
  else if (count_char "/" v <=? 6)%Z then ACCEPTABLE
  else POOR.
Proof. reflexivity. Qed.

(** C7: for two xpath candidates, the one with the smaller path depth (the
    number of [/] in its value) is rated at least as high under
    [excellent > good > acceptable > poor]; depth at most 3 is good, depth
    at most 6 acceptable, depth above 6 poor. *)
Theorem xpath_quality_monotone
  (items1 items2 : list (string * value)) (v1 v2 : string) :
  is_candidate items1 "xpath" v1 ->
  is_candidate items2 "xpath" v2 ->
  (count_char "/" v1 <= count_char "/" v2)%Z ->
  exists q1 q2 : LocatorQuality,
    _assess_locator_quality (PDict items1) = Ok q1 /\
    _assess_locator_quality (PDict items2) = Ok q2 /\
    (rank q2 <= rank q1)%Z /\
    ((count_char "/" v1 <= 3)%Z -> q1 = GOOD) /\
    ((3 < count_char "/" v1 <= 6)%Z -> q1 = ACCEPTABLE) /\
    ((6 < count_char "/" v1)%Z -> q1 = POOR).
Proof.
  intros H1 H2 Hle.
  pose proof (assess_candidate items1 "xpath" v1 H1) as E1.
  pose proof (assess_candidate items2 "xpath" v2 H2) as E2.
  exists (quality_rules "xpath" v1), (quality_rules "xpath" v2).
  split; [exact E1|]. split; [exact E2|].
  rewrite !quality_rules_xpath.
  destruct (count_char "/" v1 <=? 3)%Z eqn:A1;
    destruct (count_char "/" v1 <=? 6)%Z eqn:A2;
    destruct (count_char "/" v2 <=? 3)%Z eqn:B1;
    destruct (count_char "/" v2 <=? 6)%Z eqn:B2;
    try apply Z.leb_le in A1; try apply Z.leb_gt in A1;
    try apply Z.leb_le in A2; try apply Z.leb_gt in A2;
    try apply Z.leb_le in B1; try apply Z.leb_gt in B1;
    try apply Z.leb_le in B2; try apply Z.leb_gt in B2;
    cbn [rank]; repeat split; intros; try reflexivity; lia.
Qed.

(** Two xpath candidates of depth 2 and 5. *)
Lemma xpath_quality_monotone_witness :
  exists q1 q2 : LocatorQuality,
    _assess_locator_quality (candidate "xpath" "//a") = Ok q1 /\
    _assess_locator_quality (candidate "xpath" "//a/b/c/d") = Ok q2 /\
    (rank q2 <= rank q1)%Z /\
    ((count_char "/" "//a" <= 3)%Z -> q1 = GOOD) /\
    ((3 < count_char "/" "//a" <= 6)%Z -> q1 = ACCEPTABLE) /\
    ((6 < count_char "/" "//a")%Z -> q1 = POOR).
Proof.
  apply (xpath_quality_monotone
           [("strategy", PStr "xpath"); ("value", PStr "//a")]
           [("strategy", PStr "xpath"); ("value", PStr "//a/b/c/d")]
           "//a" "//a/b/c/d").
  - split; reflexivity.
  - split; reflexivity.
  - vm_compute. discriminate.
Defined.

(** C10, as stated: the candidate [{strategy: xpath, value: None}] makes
    [_assess_locator_quality] raise [AttributeError] ([None] has no
    [count]); so does not every candidate dictionary get a tier. *)
Lemma assess_quality_raises_on_null_value :
  _assess_locator_quality (PDict [("strategy", PStr "xpath"); ("value", PNone)])
  = Raise AttributeError /\
  ~ (forall items : list (string * value),
       exists q : LocatorQuality, _assess_locator_quality (PDict items) = Ok q).
Proof.
  split; [reflexivity|].
  intros Htotal.
  destruct (Htotal [("strategy", PStr "xpath"); ("value", PNone)]) as [q Hq].
  discriminate Hq.
Qed.

(** C10, amended: on every candidate dictionary whose [strategy] and
    [value] entries, when present, are strings, [_assess_locator_quality]
    returns a tier; an absent entry counts as the empty string, so a
    candidate without a strategy is poor and an xpath candidate with an
    empty or absent value is good. *)
Theorem assess_quality_total_on_str_fields
  (items : list (string * value)) (strategy v : string) :
  str_field "strategy" items = Some strategy ->
  str_field "value" items = Some v ->
  _assess_locator_quality (PDict items) = Ok (quality_rules strategy v) /\
  (lookup "strategy" items = None ->
     strategy = "" /\ _assess_locator_quality (PDict items) = Ok POOR) /\
  (lookup "value" items = None -> v = "") /\
  (strategy = "xpath" -> v = "" ->
     _assess_locator_quality (PDict items) = Ok GOOD).
Proof.
  intros Hs Hv.
  pose proof (assess_str_fields items strategy v Hs Hv) as E.
  split; [exact E|]. split; [|split].
  - intros Hnone. unfold str_field in Hs. rewrite Hnone in Hs.
    injection Hs as <-. split; [reflexivity|]. rewrite E. reflexivity.
  - intros Hnone. unfold str_field in Hv. rewrite Hnone in Hv.
    injection Hv as <-. reflexivity.
  - intros -> ->. rewrite E. reflexivity.
Qed.

(** A candidate that carries only a strategy. *)
Lemma assess_quality_total_on_str_fields_witness :
  str_field "strategy" [("strategy", PStr "xpath")] = Some "xpath" /\
  str_field "value" [("strategy", PStr "xpath")] = Some "" /\
  _assess_locator_quality (PDict [("strategy", PStr "xpath")]) = Ok GOOD.
Proof.
  split; [reflexivity|]. split; [reflexivity|].
  destruct (assess_quality_total_on_str_fields
              [("strategy", PStr "xpath")] "xpath" ""
              eq_refl eq_refl) as [_ [_ [_ Hgood]]].
  apply Hgood; reflexivity.
Defined.

(** ** The confidence score *)

Lemma bind_ok {A B : Type} (m : result A) (k : A -> result B) (b : B) :
  bind m k = Ok b -> exists a : A, m = Ok a /\ k a = Ok b.
Proof.
  destruct m as [a|e]; cbn; intros Hb; [exists a; auto | discriminate].
Qed.

Lemma Ok_inj {A : Type} (a b : A) : Ok a = Ok b -> a = b.
Proof. intros Hab. congruence. Qed.

(** Peel one [<-] off a computation that returned. *)
Ltac bind_inv H x Hx :=
  let H' := fresh in
  destruct (bind_ok _ _ _ H) as [x [Hx H']]; clear H; rename H' into H.

(** ** Rounding to binary64 *)

Lemma pow2_pos (e : Z) : 0 < 2 ^ e.
Proof. apply Qpower_0_lt. reflexivity. Qed.

Lemma pow2_le (a b : Z) : (a <= b)%Z -> 2 ^ a <= 2 ^ b.
Proof. intros H. apply Qpower_le_compat_l; [exact H|]. discriminate. Qed.

Lemma pow2_add (a b : Z) : 2 ^ (a + b) == 2 ^ a * 2 ^ b.
Proof. apply Qpower_plus. discriminate. Qed.

Lemma pow2_Z (n : Z) : (0 <= n)%Z -> inject_Z (2 ^ n) == 2 ^ n.
Proof. intros H. rewrite (Zpower_Qpower 2 n H). reflexivity. Qed.

(** [ilog2] is the floor of the binary logarithm. *)
Lemma ilog2_spec (q : Q) :
  0 < q -> 2 ^ ilog2 q <= q /\ q < 2 ^ (ilog2 q + 1).
Proof.
  intros Hq. destruct q as [a b].
  assert (Ha : (0 < a)%Z) by (unfold Qlt in Hq; cbn in Hq; lia).
  unfold ilog2. cbn [Qnum Qden].
  set (la := Z.log2 a). set (lb := Z.log2 (Z.pos b)).
  pose proof (Z.log2_spec a Ha) as [Ha1 Ha2]. fold la in Ha1, Ha2.
  pose proof (Z.log2_spec (Z.pos b) (Pos2Z.is_pos b)) as [Hb1 Hb2].
  fold lb in Hb1, Hb2.
  pose proof (Z.log2_nonneg a) as Hla. fold la in Hla.
  pose proof (Z.log2_nonneg (Z.pos b)) as Hlb. fold lb in Hlb.
  assert (HA1 : 2 ^ la <= inject_Z a).
  { rewrite <- pow2_Z by lia. rewrite <- Zle_Qle. exact Ha1. }
  assert (HA2 : inject_Z a < 2 ^ (la + 1)).
  { rewrite <- pow2_Z by lia. rewrite <- Zlt_Qlt. exact Ha2. }
  assert (HB1 : 2 ^ lb <= inject_Z (Z.pos b)).
  { rewrite <- pow2_Z by lia. rewrite <- Zle_Qle. exact Hb1. }
  assert (HB2 : inject_Z (Z.pos b) < 2 ^ (lb + 1)).
  { rewrite <- pow2_Z by lia. rewrite <- Zlt_Qlt. exact Hb2. }
  assert (HB : 0 < inject_Z (Z.pos b)) by reflexivity.
  assert (Hlow : 2 ^ (la - lb - 1) <= a # b).
  { rewrite (Qmake_Qdiv a b). apply Qle_shift_div_l; [exact HB|].
    pose proof (pow2_add (la - lb - 1) (lb + 1)) as E.
    replace (la - lb - 1 + (lb + 1))%Z with la in E by lia.
    pose proof (pow2_pos (la - lb - 1)) as P1.
    pose proof (pow2_pos (lb + 1)) as P2.
    apply Qle_trans with (2 ^ (la - lb - 1) * 2 ^ (lb + 1)).
    - apply Qmult_le_l; [exact P1|]. apply Qlt_le_weak. exact HB2.
    - rewrite <- E. exact HA1. }
  assert (Hhigh : a # b < 2 ^ (la - lb + 1)).
  { rewrite (Qmake_Qdiv a b). apply Qlt_shift_div_r; [exact HB|].
    pose proof (pow2_add (la - lb + 1) lb) as E.
    replace (la - lb + 1 + lb)%Z with (la + 1)%Z in E by lia.
    pose proof (pow2_pos (la - lb + 1)) as P1.
    apply Qlt_le_trans with (2 ^ (la + 1)); [exact HA2|].
    rewrite E. apply Qmult_le_l; [exact P1 | exact HB1]. }
  destruct (Qle_bool (2 ^ (la - lb)) (a # b)) eqn:Hk.
  - apply Qle_bool_iff in Hk. split; [exact Hk | exact Hhigh].
  - split; [exact Hlow|].
    replace (la - lb - 1 + 1)%Z with (la - lb)%Z by lia.
    apply Qnot_le_lt. intros H. apply Qle_bool_iff in H. congruence.
Qed.

Lemma ilog2_mono (x y : Q) : 0 < x -> x <= y -> (ilog2 x <= ilog2 y)%Z.
Proof.
  intros Hx Hxy.
  assert (Hy : 0 < y) by (apply Qlt_le_trans with x; assumption).
  destruct (ilog2_spec x Hx) as [Hx1 _].
  destruct (ilog2_spec y Hy) as [_ Hy2].
  destruct (Z_lt_le_dec (ilog2 y) (ilog2 x)) as [Hlt|Hle]; [|exact Hle].
  exfalso.
  assert (H : 2 ^ (ilog2 y + 1) <= 2 ^ ilog2 x) by (apply pow2_le; lia).
  apply (Qlt_irrefl y).
  apply Qlt_le_trans with (2 ^ (ilog2 y + 1)); [exact Hy2|].
  apply Qle_trans with (2 ^ ilog2 x); [exact H|].
  apply Qle_trans with x; assumption.
Qed.

Lemma round_half_even_bounds (x : Q) :
  (Qfloor x <= round_half_even x <= Qfloor x + 1)%Z.
Proof.
  unfold round_half_even.
  destruct (Qcompare (x - inject_Z (Qfloor x)) (1 # 2));
    try destruct (Z.even (Qfloor x)); lia.
Qed.

Lemma round_half_even_lower (x : Q) (z : Z) :
  inject_Z z <= x -> (z <= round_half_even x)%Z.
Proof.
  intros H. apply Qfloor_resp_le in H. rewrite Qfloor_Z in H.
  pose proof (round_half_even_bounds x). lia.
Qed.

Lemma round_half_even_upper (x : Q) (z : Z) :
  x <= inject_Z z -> (round_half_even x <= z)%Z.
Proof.
  intros H. pose proof (round_half_even_bounds x) as Hb.
  destruct (Z_lt_le_dec (Qfloor x) z) as [Hlt|Hge]; [lia|].
  assert (Hfz : Qfloor x = z).
  { apply Qfloor_resp_le in H. rewrite Qfloor_Z in H. lia. }
  unfold round_half_even. rewrite Hfz.
  assert (Hx : x == inject_Z z).
  { apply Qle_antisym; [exact H|]. rewrite <- Hfz. apply Qfloor_le. }
  destruct (Qcompare_spec (x - inject_Z z) (1 # 2)) as [E|E|E];
    [exfalso; lra | lia | exfalso; lra].
Qed.

Lemma round_half_even_mono (x y : Q) :
  x <= y -> (round_half_even x <= round_half_even y)%Z.
Proof.
  intros Hxy.
  pose proof (Qfloor_resp_le x y Hxy) as Hf.
  pose proof (round_half_even_bounds x) as Hbx.
  pose proof (round_half_even_bounds y) as Hby.
  destruct (Z_lt_le_dec (Qfloor x) (Qfloor y)) as [Hlt|Hge]; [lia|].
  assert (Hfe : Qfloor x = Qfloor y) by lia.
  unfold round_half_even. rewrite Hfe.
  destruct (Qcompare_spec (x - inject_Z (Qfloor y)) (1 # 2)) as [Ex|Ex|Ex];
    destruct (Qcompare_spec (y - inject_Z (Qfloor y)) (1 # 2)) as [Ey|Ey|Ey];
    try destruct (Z.even (Qfloor y)); try lia; exfalso; lra.
Qed.

Lemma last_place_mono (x y : Q) :
  0 < x -> x <= y -> (last_place x <= last_place y)%Z.
Proof.
  intros Hx Hxy. pose proof (ilog2_mono x y Hx Hxy). unfold last_place. lia.
Qed.

Lemma round_positive_mono (x y : Q) :
  0 < x -> x <= y -> round_positive x <= round_positive y.
Proof.
  intros Hx Hxy.
  assert (Hy : 0 < y) by (apply Qlt_le_trans with x; assumption).
  pose proof (last_place_mono x y Hx Hxy) as He.
  unfold round_positive.
  set (ex := last_place x) in *. set (ey := last_place y) in *.
  pose proof (pow2_pos ex) as Pex. pose proof (pow2_pos ey) as Pey.
  destruct (Z.eq_dec ex ey) as [Heq|Hne].
  - rewrite <- Heq. apply Qmult_le_compat_r; [|apply Qlt_le_weak; exact Pex].
    rewrite <- Zle_Qle. apply round_half_even_mono.
    unfold Qdiv. apply Qmult_le_compat_r; [exact Hxy|].
    apply Qlt_le_weak. apply Qinv_lt_0_compat. exact Pex.
  - assert (Hlt : (ex + 1 <= ey)%Z) by lia.
    destruct (ilog2_spec x Hx) as [_ Hx2].
    destruct (ilog2_spec y Hy) as [Hy1 _].
    assert (Hey : ey = (ilog2 y - 52)%Z).
    { unfold ey, ex, last_place in *. lia. }
    assert (Hex : (ilog2 x + 1 <= ex + 53)%Z).
    { unfold ex, last_place. lia. }
    (* the rounding of [x] is at most [2^53 * 2^ex] *)
    assert (Hrx : (round_half_even (x / 2 ^ ex) <= 2 ^ 53)%Z).
    { apply round_half_even_upper. apply Qle_shift_div_r; [exact Pex|].
      rewrite (pow2_Z 53) by lia. rewrite <- pow2_add.
      apply Qlt_le_weak. apply Qlt_le_trans with (2 ^ (ilog2 x + 1));
        [exact Hx2|]. apply pow2_le. lia. }
    (* the rounding of [y] is at least [2^52 * 2^ey] *)
    assert (Hry : (2 ^ 52 <= round_half_even (y / 2 ^ ey))%Z).
    { apply round_half_even_lower. apply Qle_shift_div_l; [exact Pey|].
      rewrite (pow2_Z 52) by lia. rewrite <- pow2_add.
      apply Qle_trans with (2 ^ ilog2 y); [|exact Hy1].
      apply pow2_le. lia. }
    apply Qle_trans with (inject_Z (2 ^ 53) * 2 ^ ex).
    { apply Qmult_le_compat_r; [|apply Qlt_le_weak; exact Pex].
      rewrite <- Zle_Qle. exact Hrx. }
    apply Qle_trans with (inject_Z (2 ^ 52) * 2 ^ ey).
    2:{ apply Qmult_le_compat_r; [|apply Qlt_le_weak; exact Pey].
        rewrite <- Zle_Qle. exact Hry. }
    rewrite (pow2_Z 53), (pow2_Z 52) by lia. rewrite <- !pow2_add.
    apply pow2_le. lia.
Qed.

Lemma round_positive_nonneg (x : Q) : 0 < x -> 0 <= round_positive x.
Proof.
  intros Hx. unfold round_positive.
  pose proof (pow2_pos (last_place x)) as P.
  apply Qmult_le_0_compat; [|apply Qlt_le_weak; exact P].
  change 0 with (inject_Z 0). rewrite <- Zle_Qle.
  apply round_half_even_lower.
  apply Qle_shift_div_l; [exact P|].
  change (inject_Z 0) with 0. rewrite Qmult_0_l. apply Qlt_le_weak. exact Hx.
Qed.

(** Rounding keeps the order of non-negative numbers. *)
Lemma round64_mono (x y : Q) : 0 <= x -> x <= y -> round64 x <= round64 y.
Proof.
  intros Hx Hxy. unfold round64.
  destruct (Qcompare_spec x 0) as [Ex|Ex|Ex];
    destruct (Qcompare_spec y 0) as [Ey|Ey|Ey]; try (exfalso; lra).
  - apply Qle_refl.
  - rewrite Qred_correct. apply round_positive_nonneg. exact Ey.
  - rewrite !Qred_correct. apply round_positive_mono; assumption.
Qed.

Lemma round64_nonneg (x : Q) : 0 <= x -> 0 <= round64 x.
Proof. intros Hx. apply (round64_mono 0 x); [apply Qle_refl | exact Hx]. Qed.

(** The rounding agrees with the kernel's binary64 numbers on every sum the
    method forms for zero to four fallback locators, and for a thousand. *)
Example rounding_agrees_with_primitive_floats :
  forallb
    (fun sb : string * float =>
       forallb
         (fun n : Z =>
            same_number (primitive_confidence (snd sb) (Uint63.of_Z n) true)
              (confidence_value (fst sb) n true)
            && same_number
                 (primitive_confidence (snd sb) (Uint63.of_Z n) false)
                 (confidence_value (fst sb) n false))
         [0; 1; 2; 3; 4; 1000]%Z)
    bonus_literals = true.
Proof. vm_compute. reflexivity. Qed.

(** ** The confidence score *)

Lemma score_of_table (s : string) :
  match score_of s strategy_scores with
  | Some q => q
  | None => 0
  end = literal (strategy_bonus s).
Proof.
  unfold strategy_bonus, strategy_scores, score_of.
  rewrite (String.eqb_sym "id"), (String.eqb_sym "accessibility_id"),
    (String.eqb_sym "class_name"), (String.eqb_sym "android_uiautomator"),
    (String.eqb_sym "xpath"), (String.eqb_sym "name"),
    (String.eqb_sym "tag_name").
  repeat match goal with
         | |- context [String.eqb s ?k] => destruct (String.eqb s k)
         end; reflexivity.
Qed.

(** Split on the row of the bonus table a strategy falls in. *)
Ltac strategy_cases s :=
  unfold strategy_bonus;
  repeat (match goal with
          | |- context [String.eqb s ?k] => destruct (String.eqb s k)
          end; cbv iota).

Lemma strategy_scores_get_bonus (strategy : value) (bonus : Q) :
  strategy_scores_get strategy = Ok bonus ->
  exists s : string, bonus = literal (strategy_bonus s).
Proof.
  intros Hb.
  destruct strategy as [| | | |s| |]; unfold strategy_scores_get, hashable in Hb;
    try discriminate Hb; apply Ok_inj in Hb; subst bonus;
    try (exists ""; reflexivity).
  exists s. apply score_of_table.
Qed.

Lemma len_nonneg (x : value) (n : Z) : len x = Ok n -> (0 <= n)%Z.
Proof.
  destruct x; cbn; try discriminate; intros Hn; injection Hn as <-; lia.
Qed.

Lemma count_cases (n : Z) :
  (0 <= n)%Z -> n = 0%Z \/ n = 1%Z \/ n = 2%Z \/ (3 <= n)%Z.
Proof. lia. Qed.

Lemma fmin_right (x y : Q) : y < x -> fmin x y = y.
Proof.
  intros H. unfold fmin, Qmin, GenericMinMax.gmin.
  apply Qgt_alt in H. rewrite H. reflexivity.
Qed.

(** The float of a length of three or more is at least 3. *)
Lemma of_int_from_three (n : Z) : (3 <= n)%Z -> 3 <= of_int n.
Proof.
  intros Hn. unfold of_int.
  apply Qle_trans with (round64 (inject_Z 3)).
  - vm_compute. discriminate.
  - apply round64_mono; [vm_compute; discriminate|].
    rewrite <- Zle_Qle. exact Hn.
Qed.

(** From three fallback locators on, the product exceeds the cap, in
    either order of its factors. *)
Lemma fallback_term_capped (n : Z) :
  (3 <= n)%Z -> fallback_term n = literal 0.15.
Proof.
  intros Hn. unfold fallback_term. apply fmin_right.
  apply Qlt_le_trans with (round64 (3 * literal 0.05)).
  - vm_compute. reflexivity.
  - unfold fmul. apply round64_mono; [vm_compute; discriminate|].
    apply Qmult_le_compat_r; [apply of_int_from_three; exact Hn|].
    vm_compute. discriminate.
Qed.

Lemma spec_term_capped (n : Z) :
  (3 <= n)%Z ->
  fmin (fmul (literal 0.05) (of_int n)) (literal 0.15) = literal 0.15.
Proof.
  intros Hn. apply fmin_right.
  apply Qlt_le_trans with (round64 (literal 0.05 * 3)).
  - vm_compute. reflexivity.
  - unfold fmul. apply round64_mono; [vm_compute; discriminate|].
    rewrite !(Qmult_comm (literal 0.05)).
    apply Qmult_le_compat_r; [apply of_int_from_three; exact Hn|].
    vm_compute. discriminate.
Qed.

(** The exact capped term of the specification, from three on. *)
Lemma exact_term_capped (n : Z) :
  (3 <= n)%Z -> Qmin (0.05 * inject_Z n) 0.15 == 0.15.
Proof.
  intros Hn. apply Q.min_r.
  assert (H : inject_Z 3 <= inject_Z n) by (rewrite <- Zle_Qle; exact Hn).
  change (inject_Z 3) with 3 in H. lra.
Qed.

(** Close a goal about concrete scores by evaluation. *)
Ltac by_evaluation :=
  vm_compute;
  repeat match goal with
         | |- _ /\ _ => split
         end;
  first [reflexivity | discriminate].

(** The score of a record lies in [[0.5, 1]]. *)
Lemma confidence_value_range (s : string) (n : Z) (acc : bool) :
  (0 <= n)%Z -> 0.5 <= confidence_value s n acc <= 1.
Proof.
  intros Hn. unfold confidence_value.
  destruct (count_cases n Hn) as [->|[->|[->|H3]]];
    [| | |rewrite (fallback_term_capped n H3)];
    strategy_cases s; destruct acc; by_evaluation.
Qed.

(** It is the score of the specification carried out on floats. *)
Lemma confidence_value_binary64 (s : string) (n : Z) (acc : bool) :
  (0 <= n)%Z -> confidence_value s n acc == confidence_binary64 s n acc.
Proof.
  intros Hn. unfold confidence_value, confidence_binary64.
  destruct (count_cases n Hn) as [->|[->|[->|H3]]];
    [| | |rewrite (fallback_term_capped n H3), (spec_term_capped n H3)];
    strategy_cases s; destruct acc; by_evaluation.
Qed.

(** It is within half a unit in the last place of the exact score. *)
Lemma confidence_value_error (s : string) (n : Z) (acc : bool) :
  (0 <= n)%Z ->
  Qabs (confidence_value s n acc - confidence_spec s n acc) <= half_ulp.
Proof.
  intros Hn. unfold confidence_value, confidence_spec, clamp01.
  destruct (count_cases n Hn) as [->|[->|[->|H3]]];
    [| | |rewrite (fallback_term_capped n H3), (exact_term_capped n H3)];
    strategy_cases s; destruct acc; by_evaluation.
Qed.

(** Whatever the parsed reply, a score that is returned lies in
    [[0.5, 1]]. *)
Lemma confidence_range (d : value) (src : string) (c : Q) :
  _calculate_confidence d src = Ok c -> 0.5 <= c <= 1.
Proof.
  unfold _calculate_confidence. intros Hc.
  bind_inv Hc primary Hprimary. bind_inv Hc strategy Hstrategy.
  bind_inv Hc bonus Hbonus. bind_inv Hc fallbacks Hfallbacks.
  bind_inv Hc n Hn. bind_inv Hc info Hinfo.
  bind_inv Hc content_desc Hdesc.
  apply Ok_inj in Hc. subst c.
  apply strategy_scores_get_bonus in Hbonus as [s ->].
  apply len_nonneg in Hn.
  exact (confidence_value_range s n (truthy content_desc) Hn).
Qed.

Example confidence_xpath_one_fallback :
  _calculate_confidence
    (PDict [("primary_locator", PDict [("strategy", PStr "xpath")]);
            ("fallback_locators", PList [PDict []])]) ""
  = Ok (literal 0.65).
Proof. vm_compute. reflexivity. Qed.

Example confidence_id_is_capped :
  _calculate_confidence
    (PDict [("primary_locator", PDict [("strategy", PStr "id")]);
            ("fallback_locators", PList [PNone; PNone; PNone; PNone]);
            ("accessibility_info", PDict [("content_desc", PStr "Login")])])
    "" = Ok 1.
Proof. vm_compute. reflexivity. Qed.

Example confidence_null_info_raises :
  _calculate_confidence
    (PDict [("primary_locator", PDict [("strategy", PStr "id")]);
            ("accessibility_info", PNone)]) "" = Raise AttributeError.
Proof. reflexivity. Qed.

(** On a record shaped as the data model says, the method returns the sum
    it accumulates on floats, capped at 1. *)
Lemma confidence_on_record
  (items : list (string * value)) (src s : string) (n : Z) (acc : bool) :
  primary_strategy_view items = Some s ->
  fallback_count_view items = Some n ->
  content_desc_view items = Some acc ->
  _calculate_confidence (PDict items) src = Ok (confidence_value s n acc).
Proof.
  unfold primary_strategy_view, fallback_count_view, content_desc_view.
  intros Hs Hn Hacc.
  destruct (lookup "primary_locator" items) as [[| | | | |? |primary]|] eqn:E1;
    try discriminate Hs.
  destruct (lookup "strategy" primary) as [[| | | |s'| |]|] eqn:E2;
    try discriminate Hs.
  apply (f_equal (fun o => match o with Some x => x | None => s end)) in Hs.
  cbv beta iota in Hs. subst s'.
  unfold _calculate_confidence, confidence_value, fallback_term, getitem.
  rewrite E1. cbn [bind]. rewrite E2.
  cbn [bind]. unfold strategy_scores_get. cbn [hashable bind].
  rewrite score_of_table. unfold get.
  assert (Hlen : (fallbacks <-
                    match lookup "fallback_locators" items with
                    | Some v => Ok v
                    | None => Ok (PList [])
                    end ;; len fallbacks) = Ok n).
  { destruct (lookup "fallback_locators" items) as [[| | | | |l|]|];
      try discriminate Hn; cbn [bind len List.length Z.of_nat];
      f_equal; congruence. }
  destruct (lookup "fallback_locators" items) as [fallbacks|];
    cbn [bind] in Hlen |- *; rewrite Hlen; cbn [bind]; clear Hlen.
  all: destruct (lookup "accessibility_info" items) as [[| | | | | |info]|];
    try discriminate Hacc; cbn [bind].
  all: try (destruct (lookup "content_desc" info) as [[| | | |t| |]|];
            try discriminate Hacc; cbn [bind truthy]).
  all: try (cbn [lookup bind truthy]).
  all: apply (f_equal (fun o => match o with Some x => x | None => acc end))
         in Hacc; cbv beta iota in Hacc; subst acc; try reflexivity.
Qed.

Lemma fallback_count_view_nonneg (items : list (string * value)) (n : Z) :
  fallback_count_view items = Some n -> (0 <= n)%Z.
Proof.
  unfold fallback_count_view. intros Hn.
  destruct (lookup "fallback_locators" items) as [[]|]; try discriminate Hn;
    apply (f_equal (fun o => match o with Some x => x | None => n end)) in Hn;
    cbv beta iota in Hn; subst n; lia.
Qed.

(** C4, as amended: the confidence of a locator record is the score of the
    specification carried out in binary64 floating point: base 0.5, plus
    the bonus of the strategy, plus [min(0.05 * fallbackCount, 0.15)], plus
    0.1 when a content description is present and non-empty, clamped to
    [[0,1]], with every constant a float literal and every sum and product
    rounded.  It differs from the exact score by at most [2^-53], and lies
    in [[0,1]]. *)
Theorem confidence_matches_specification
  (items : list (string * value)) (src s : string) (n : Z) (acc : bool) :
  primary_strategy_view items = Some s ->
  fallback_count_view items = Some n ->
  content_desc_view items = Some acc ->
  exists c : Q,
    _calculate_confidence (PDict items) src = Ok c /\
    c == confidence_binary64 s n acc /\
    Qabs (c - confidence_spec s n acc) <= half_ulp /\
    0 <= c <= 1.
Proof.
  intros Hs Hn Hacc.
  pose proof (confidence_on_record items src s n acc Hs Hn Hacc) as E.
  pose proof (fallback_count_view_nonneg items n Hn) as Hnn.
  exists (confidence_value s n acc). split; [exact E|].
  split; [exact (confidence_value_binary64 s n acc Hnn)|].
  split; [exact (confidence_value_error s n acc Hnn)|].
  pose proof (confidence_value_range s n acc Hnn) as Hrange.
  split; [|apply Hrange].
  apply Qle_trans with 0.5; [discriminate | apply Hrange].
Qed.

(** An [id] record with two fallbacks and a content description. *)
Lemma confidence_matches_specification_witness :
  exists c : Q,
    _calculate_confidence
      (PDict [("primary_locator", PDict [("strategy", PStr "id")]);
              ("fallback_locators", PList [PDict []; PDict []]);
              ("accessibility_info", PDict [("content_desc", PStr "Login")])])
      "" = Ok c /\
    c == confidence_binary64 "id" 2 true /\
    Qabs (c - confidence_spec "id" 2 true) <= half_ulp /\
    0 <= c <= 1.
Proof.
  apply (confidence_matches_specification
           [("primary_locator", PDict [("strategy", PStr "id")]);
            ("fallback_locators", PList [PDict []; PDict []]);
            ("accessibility_info", PDict [("content_desc", PStr "Login")])]
           "" "id" 2 true); reflexivity.
Defined.

(** C4, as stated: an [id] record with one fallback locator scores
    [0.9500000000000001], the float above the one nearest to 0.95: the
    score is neither the exact sum [0.5 + 0.4 + 0.05] nor its rounding. *)
Lemma confidence_is_not_the_exact_sum :
  exists c : Q,
    _calculate_confidence
      (PDict [("primary_locator", PDict [("strategy", PStr "id")]);
              ("fallback_locators", PList [PDict []])]) "" = Ok c /\
    c == 8556839292003943 # 9007199254740992 /\
    confidence_spec "id" 1 false == 0.95 /\
    ~ c == confidence_spec "id" 1 false /\
    ~ c == literal (confidence_spec "id" 1 false).
Proof.
  eexists. split; [vm_compute; reflexivity|].
  split; [reflexivity|]. split; [reflexivity|].
  split; vm_compute; discriminate.
Qed.

(** C9: the confidence of a locator record whose primary locator carries a
    strategy is at least the base 0.5 and at most 1; with a strategy outside
    the bonus table, no fallback locators and no content description it is
    exactly 0.5.  No returned score, on any input, is below 0.5. *)
Theorem confidence_never_below_base
  (items : list (string * value)) (src s : string) (n : Z) (acc : bool) :
  primary_strategy_view items = Some s ->
  fallback_count_view items = Some n ->
  content_desc_view items = Some acc ->
  (exists c : Q,
     _calculate_confidence (PDict items) src = Ok c /\
     0.5 <= c <= 1 /\
     (score_of s strategy_scores = None -> n = 0%Z -> acc = false ->
        c == 0.5)) /\
  (forall (d : value) (src' : string) (c' : Q),
     _calculate_confidence d src' = Ok c' -> 0.5 <= c' <= 1).
Proof.
  intros Hs Hn Hacc.
  split; [|intros d src' c'; apply confidence_range].
  pose proof (confidence_on_record items src s n acc Hs Hn Hacc) as E.
  eexists. split; [exact E|].
  split; [exact (confidence_range _ _ _ E)|].
  intros Hunknown -> ->.
  pose proof (score_of_table s) as Hbonus. rewrite Hunknown in Hbonus.
  unfold confidence_value. rewrite <- Hbonus. by_evaluation.
Qed.

(** A record with a strategy the bonus table does not list and nothing
    else. *)
Lemma confidence_never_below_base_witness :
  exists c : Q,
    _calculate_confidence
      (PDict [("primary_locator", PDict [("strategy", PStr "css")])]) ""
    = Ok c /\ c == 0.5.
Proof.
  destruct (confidence_never_below_base
              [("primary_locator", PDict [("strategy", PStr "css")])]
              "" "css" 0 false eq_refl eq_refl eq_refl)
    as [[c [Hc [_ Hexact]]] _].
  exists c. split; [exact Hc|].
  apply Hexact; reflexivity.
Defined.

(** ** The structural validator *)

Lemma bind_raise {A B : Type} (m : result A) (k : A -> result B) (e : exn) :
  bind m k = Raise e ->
  m = Raise e \/ exists a : A, m = Ok a /\ k a = Raise e.
Proof.
  destruct m as [a|e']; cbn; intros Hr;
    [right; exists a; auto | left; congruence].
Qed.

Lemma contains_key_raises (key : string) (x : value) (e : exn) :
  contains_key key x = Raise e -> key_or_type_error e.
Proof.
  destruct x; cbn; intros Hr; try discriminate Hr; left; congruence.
Qed.

Lemma getitem_raises (x : value) (key : string) (e : exn) :
  getitem x key = Raise e -> key_or_type_error e.
Proof.
  destruct x as [| | | | | |its]; cbn; intros Hr; try (left; congruence).
  destruct (lookup key its); [discriminate Hr|].
  right; exists key; congruence.
Qed.

Lemma iter_raises (x : value) (e : exn) :
  iter x = Raise e -> key_or_type_error e.
Proof.
  destruct x; cbn; intros Hr; try discriminate Hr; left; congruence.
Qed.

Lemma has_fields_raises (fields : list string) (d : value) (e : exn) :
  has_fields fields d = Raise e -> key_or_type_error e.
Proof.
  induction fields as [|field rest IH]; cbn; intros Hr; [discriminate Hr|].
  apply bind_raise in Hr as [Hr|[present [_ Hr]]].
  - eapply contains_key_raises; eassumption.
  - destruct present; [auto | discriminate Hr].
Qed.

(** The [try] block raises nothing but [KeyError] and [TypeError]. *)
Lemma validate_body_raises (self : AILocatorGenerator) (d : value) (e : exn) :
  validate_body self d = Raise e -> key_or_type_error e.
Proof.
  unfold validate_body. intros Hr.
  apply bind_raise in Hr as [Hr|[complete [_ Hr]]];
    [eapply has_fields_raises; eassumption|].
  destruct (negb complete); [discriminate Hr|].
  apply bind_raise in Hr as [Hr|[primary [_ Hr]]];
    [eapply getitem_raises; eassumption|].
  apply bind_raise in Hr as [Hr|[strategy [_ Hr]]];
    [eapply getitem_raises; eassumption|].
  destruct (negb (in_strs strategy (supported_strategies self)));
    [discriminate Hr|].
  apply bind_raise in Hr as [Hr|[etype [_ Hr]]];
    [eapply getitem_raises; eassumption|].
  destruct (negb (in_strs etype (element_types self))); [discriminate Hr|].
  apply bind_raise in Hr as [Hr|[listed [_ Hr]]];
    [eapply contains_key_raises; eassumption|].
  destruct listed; [|discriminate Hr].
  apply bind_raise in Hr as [Hr|[actions [_ Hr]]];
    [eapply getitem_raises; eassumption|].
  apply bind_raise in Hr as [Hr|[entries [_ Hr]]];
    [eapply iter_raises; eassumption|].
  discriminate Hr.
Qed.

(** The validator returns a verdict on every parsed reply. *)
Lemma validate_total (self : AILocatorGenerator) (d : value) :
  exists b : bool, _validate_generated_locator self d = Ok b.
Proof.
  unfold _validate_generated_locator.
  destruct (validate_body self d) as [b|e] eqn:Hbody; [exists b; reflexivity|].
  apply validate_body_raises in Hbody as [->|[k ->]];
    exists false; reflexivity.
Qed.

(** On an object, the verdict is the conjunction of the four rules. *)
Lemma validate_object (self : AILocatorGenerator)
  (items : list (string * value)) :
  _validate_generated_locator self (PDict items) =
  Ok (required_present items && strategy_known self items
      && type_known self items && actions_known self items).
Proof.
  unfold _validate_generated_locator, validate_body, required_present,
    strategy_known, type_known, actions_known, required_fields, has_fields,
    contains_key.
  cbn [bind].
  destruct (lookup "element_name" items) as [name|]; cbn [bind negb];
    [|reflexivity].
  destruct (lookup "element_type" items) as [etype|] eqn:Etype;
    cbn [bind negb]; [|reflexivity].
  unfold getitem at 1.
  destruct (lookup "primary_locator" items) as [primary|] eqn:Eprimary;
    cbn [bind negb]; [|reflexivity].
  destruct (getitem primary "strategy") as [strategy|e] eqn:Estrategy;
    cbn [bind].
  2:{ apply getitem_raises in Estrategy as [->|[k ->]]; reflexivity. }
  destruct (in_strs strategy (supported_strategies self)); cbn [negb andb];
    [|reflexivity].
  unfold getitem at 1. rewrite Etype. cbn [bind].
  destruct (in_strs etype (element_types self)); cbn [negb andb];
    [|reflexivity].
  destruct (lookup "suggested_actions" items) as [actions|] eqn:Eactions;
    cbn [bind]; [|reflexivity].
  unfold getitem. rewrite Eactions. cbn [bind].
  destruct (iter actions) as [entries|e] eqn:Eiter; cbn [bind];
    [reflexivity|].
  apply iter_raises in Eiter as [->|[k ->]]; reflexivity.
Qed.

Example validate_rejects_number_actions :
  _validate_generated_locator replying_generator
    (PDict [("element_name", PStr "login");
            ("element_type", PStr "button");
            ("primary_locator", PDict [("strategy", PStr "id")]);
            ("suggested_actions", PInt 3)]) = Ok false.
Proof. reflexivity. Qed.

Example validate_rejects_non_object :
  _validate_generated_locator replying_generator (PList [PInt 1]) = Ok false.
Proof. reflexivity. Qed.

(** C6: on every candidate object the validator answers [False] when a
    required field is missing, when [primary_locator.strategy] is not a
    known strategy, when [element_type] is not a known element type, or when
    an entry of [suggested_actions] is not a known action; it answers [True]
    when the required fields are present with known enum values, whatever
    other fields the object has; and it returns a verdict, never an
    exception, on every parsed reply. *)
Theorem validate_generated_locator_rules
  (self : AILocatorGenerator) (items : list (string * value)) :
  let verdict := _validate_generated_locator self (PDict items) in
  verdict = Ok (required_present items && strategy_known self items
                && type_known self items && actions_known self items) /\
  (lookup "element_name" items = None \/ lookup "element_type" items = None \/
   lookup "primary_locator" items = None -> verdict = Ok false) /\
  (strategy_known self items = false -> verdict = Ok false) /\
  (type_known self items = false -> verdict = Ok false) /\
  (forall l : list value,
     lookup "suggested_actions" items = Some (PList l) ->
     (exists action : value,
        In action l /\ in_strs action (supported_actions self) = false) ->
     verdict = Ok false) /\
  (required_present items = true ->
   strategy_known self items = true ->
   type_known self items = true ->
   (lookup "suggested_actions" items = None \/
    exists l : list value,
      lookup "suggested_actions" items = Some (PList l) /\
      forall action : value,
        In action l -> in_strs action (supported_actions self) = true) ->
   verdict = Ok true) /\
  (forall d : value, exists b : bool, _validate_generated_locator self d = Ok b).
Proof.
  intros verdict.
  pose proof (validate_object self items) as E. fold verdict in E.
  split; [exact E|].
  split; [|split; [|split; [|split; [|split]]]].
  - intros Hmissing. rewrite E. unfold required_present.
    destruct Hmissing as [-> | [-> | ->]];
      repeat match goal with
             | |- context [match lookup ?k items with _ => _ end] =>
                 destruct (lookup k items)
             end; reflexivity.
  - intros Hs. rewrite E, Hs.
    destruct (required_present items); reflexivity.
  - intros Ht. rewrite E, Ht.
    destruct (required_present items), (strategy_known self items);
      reflexivity.
  - intros l Hl [action [Hin Hbad]]. rewrite E.
    assert (Ha : actions_known self items = false).
    { unfold actions_known. rewrite Hl. cbn [iter].
      destruct (forallb _ l) eqn:Hall; [|reflexivity].
      rewrite forallb_forall in Hall. rewrite (Hall action Hin) in Hbad.
      discriminate Hbad. }
    rewrite Ha. rewrite !andb_false_r. reflexivity.
  - intros Hr Hs Ht Ha. rewrite E, Hr, Hs, Ht. cbn [andb].
    unfold actions_known.
    destruct Ha as [-> | [l [-> Hall]]]; [reflexivity|].
    cbn [iter]. f_equal. apply forallb_forall. exact Hall.
  - apply validate_total.
Qed.

(** A registry, a complete candidate with an optional field the validator
    never reads, and its verdict. *)
Lemma validate_generated_locator_rules_witness :
  _validate_generated_locator
    (mkAILocatorGenerator ["id"; "xpath"] ["click"] ["button"]
       (fun _ => Raise (Exception "offline")) false
       (Raise (WebDriverException "Driver not initialized")))
    (PDict [("element_name", PStr "login");
            ("element_type", PStr "button");
            ("primary_locator", PDict [("strategy", PStr "id")]);
            ("suggested_actions", PList [PStr "click"]);
            ("validation_text", PInt 7)])
  = Ok true.
Proof.
  apply (validate_generated_locator_rules
           (mkAILocatorGenerator ["id"; "xpath"] ["click"] ["button"]
              (fun _ => Raise (Exception "offline")) false
              (Raise (WebDriverException "Driver not initialized")))
           [("element_name", PStr "login");
            ("element_type", PStr "button");
            ("primary_locator", PDict [("strategy", PStr "id")]);
            ("suggested_actions", PList [PStr "click"]);
            ("validation_text", PInt 7)]).
  - reflexivity.
  - reflexivity.
  - reflexivity.
  - right. exists [PStr "click"]. split; [reflexivity|].
    intros action [<-|[]]. reflexivity.
Defined.

(** ** The two inference entry points *)

(** The single-element entry point returns a record only for a reply the
    validator accepted, and builds the record from that reply. *)
Lemma analyze_element_validates
  (lib : Libs) (self : AILocatorGenerator) (target context : string)
  (page_source : option string) (r : LocatorAnalysis) :
  analyze_element lib self target context page_source = Ok r ->
  exists (json_text : string) (locator_data : value),
    json_loads lib json_text = Some locator_data /\
    _validate_generated_locator self locator_data = Ok true /\
    getitem locator_data "primary_locator" = Ok (primary_locator r) /\
    getitem locator_data "element_type" = Ok (element_type r).
Proof.
  unfold analyze_element. intros Hr.
  bind_inv Hr src Hsrc. bind_inv Hr text Htext.
  destruct (String.eqb text ""); [discriminate Hr|].
  bind_inv Hr json_text Hjson. bind_inv Hr locator_data Hdata.
  bind_inv Hr valid Hvalid.
  destruct valid; [|discriminate Hr]. cbn [negb] in Hr.
  bind_inv Hr primary Hprimary. bind_inv Hr quality Hquality.
  bind_inv Hr conf Hconf. bind_inv Hr f_name Hname.
  bind_inv Hr f_primary Hprimary'. bind_inv Hr f_fallbacks Hfallbacks.
  bind_inv Hr f_type Htype. bind_inv Hr f_actions Hactions.
  bind_inv Hr f_text Hvtext. bind_inv Hr f_context Hcontext.
  bind_inv Hr f_info Hinfo.
  apply Ok_inj in Hr. subst r. cbn [primary_locator element_type].
  exists json_text, locator_data.
  destruct (json_loads lib json_text) as [d|]; [|discriminate Hdata].
  apply Ok_inj in Hdata. subst d. auto.
Qed.

(** C5, on the whole-screen entry point: when the reply parses to
    [unvalidated_screen], [analyze_complete_screen] returns a record for the
    element [login] built from [unvalidated_candidate], although
    [_validate_generated_locator] answers [False] on that candidate (its
    strategy [css] is not a known strategy); the method never calls the
    validator. *)
Theorem complete_screen_returns_unvalidated_record
  (lib : Libs) (self : AILocatorGenerator)
  (merged_xml context text json_text : string) :
  generate_content self
    (format_complete_screen_prompt lib context (truncate 8000 merged_xml))
  = Ok text ->
  text <> "" ->
  _extract_json_from_response lib text = Ok json_text ->
  json_loads lib json_text = Some unvalidated_screen ->
  in_strs (PStr "css") (supported_strategies self) = false ->
  _validate_generated_locator self unvalidated_candidate = Ok false /\
  exists r : LocatorAnalysis,
    analyze_complete_screen lib self merged_xml context = Ok [("login", r)] /\
    primary_locator r
    = PDict [("strategy", PStr "css"); ("value", PStr "#login")] /\
    element_type r = PStr "hologram" /\
    quality_score r = POOR.
Proof.
  intros Hreply Hnonempty Hextract Hparse Hcss.
  split.
  - unfold unvalidated_candidate. rewrite validate_object.
    assert (Hs : strategy_known self
                   [("element_name", PStr "login");
                    ("element_type", PStr "hologram");
                    ("primary_locator",
                     PDict [("strategy", PStr "css");
                            ("value", PStr "#login")])] = false)
      by exact Hcss.
    rewrite Hs. rewrite andb_false_r. reflexivity.
  - unfold analyze_complete_screen.
    rewrite Hreply. cbn [bind].
    apply String.eqb_neq in Hnonempty. rewrite Hnonempty.
    rewrite Hextract. cbn [bind]. rewrite Hparse. cbn [bind].
    eexists. split; [reflexivity|].
    repeat split.
Qed.

(** The model reply [reply] under [reply_libs]. *)
Lemma complete_screen_returns_unvalidated_record_witness :
  _validate_generated_locator replying_generator unvalidated_candidate
  = Ok false /\
  exists r : LocatorAnalysis,
    analyze_complete_screen reply_libs replying_generator "<hierarchy/>"
      "login_screen" = Ok [("login", r)] /\
    primary_locator r
    = PDict [("strategy", PStr "css"); ("value", PStr "#login")] /\
    element_type r = PStr "hologram" /\
    quality_score r = POOR.
Proof.
  apply (complete_screen_returns_unvalidated_record
           reply_libs replying_generator "<hierarchy/>" "login_screen"
           "reply" "reply").
  - reflexivity.
  - discriminate.
  - reflexivity.
  - reflexivity.
  - reflexivity.
Defined.

(** ** Element resolution *)

Lemma planned_calls_cons (s : string) (order : list string) (v : string)
  (per : Z) :
  planned_calls (s :: order) v per =
  match by_of s strategies with
  | Some b => [(s, b, v, per)]
  | None => []
  end ++ planned_calls order v per.
Proof. reflexivity. Qed.

Lemma AppiumBy_eq_dec (a b : AppiumBy) : {a = b} + {a <> b}.
Proof. decide equality. Qed.

(** The strategy mapping gives each of its names its own [AppiumBy]. *)
Lemma by_of_injective (s1 s2 : string) (b : AppiumBy) :
  by_of s1 strategies = Some b -> by_of s2 strategies = Some b -> s1 = s2.
Proof.
  unfold by_of, strategies. intros H1 H2.
  repeat match type of H1 with
         | context [String.eqb ?k s1] =>
             let Hk := fresh "Hk" in
             destruct (String.eqb k s1) eqn:Hk;
             [apply String.eqb_eq in Hk|clear Hk]
         end;
  repeat match type of H2 with
         | context [String.eqb ?k s2] =>
             let Hk := fresh "Hk" in
             destruct (String.eqb k s2) eqn:Hk;
             [apply String.eqb_eq in Hk|clear Hk]
         end; congruence.
Qed.

Lemma by_of_key (s : string) (b : AppiumBy) :
  by_of s strategies = Some b -> In s (map fst strategies).
Proof.
  unfold by_of, strategies. intros Hb.
  repeat match type of Hb with
         | context [String.eqb ?k s] =>
             let Hk := fresh "Hk" in
             destruct (String.eqb k s) eqn:Hk;
             [apply String.eqb_eq in Hk; subst s; cbn; tauto|clear Hk]
         end.
  discriminate Hb.
Qed.

Lemma key_known (k : string) :
  In k (map fst strategies) -> by_of k strategies <> None.
Proof.
  cbn. intros [<-|[<-|[<-|[<-|[<-|[]]]]]]; discriminate.
Qed.

Lemma by_of_in_order (s s0 : string) (b0 : AppiumBy) :
  by_of s0 strategies = Some b0 -> In s0 (strategy_order s).
Proof.
  intros Hb. unfold strategy_order.
  destruct (String.eqb s0 s) eqn:Hs.
  - apply String.eqb_eq in Hs. left. congruence.
  - right. apply filter_In. split; [eapply by_of_key; eassumption|].
    rewrite Hs. reflexivity.
Qed.

Lemma planned_known (l : list string) (v : string) (per : Z) :
  (forall k, In k l -> by_of k strategies <> None) ->
  map call_strategy (planned_calls l v per) = l.
Proof.
  induction l as [|k l IH]; intros Hknown; [reflexivity|].
  rewrite planned_calls_cons, map_app, IH
    by (intros k' Hk'; apply Hknown; right; exact Hk').
  destruct (by_of k strategies) eqn:Hk; [reflexivity|].
  exfalso. apply (Hknown k); [left; reflexivity | exact Hk].
Qed.

(** The strategies a call plans to try: the primary one if the mapping
    knows it, then the other names of the mapping in its order. *)
Lemma planned_strategies (s v : string) (per : Z) :
  map call_strategy (planned_calls (strategy_order s) v per)
  = match by_of s strategies with
    | Some _ => [s]
    | None => []
    end ++ filter (fun k => negb (String.eqb k s)) (map fst strategies).
Proof.
  unfold strategy_order. rewrite planned_calls_cons, map_app.
  f_equal.
  - destruct (by_of s strategies); reflexivity.
  - apply planned_known. intros k Hk. apply filter_In in Hk as [Hk _].
    apply key_known. exact Hk.
Qed.

Section ResolverFacts.

Context {D E : Type} {W : WebDriver D E}.

Lemma attempt_crashed (d d1 : D) (t : Z) (b : AppiumBy) (v : string) (x : exn) :
  attempt d t b v = (d1, Crashed x) -> absorbed x = false.
Proof.
  unfold attempt.
  destruct (wait_presence d t b v) as [d' [element|y]].
  - destruct (is_displayed d' element) as [d'' [[|]|y]];
      try discriminate.
    destruct (absorbed y) eqn:Hy; [discriminate|].
    intros Heq. congruence.
  - destruct (absorbed y) eqn:Hy; [discriminate|].
    intros Heq. congruence.
Qed.

(** The shape of what the loop leaves behind: the planned lookups split
    into those made and rejected and those left; the loop ends on an
    accepted trial, on a trial that raised an exception the [except] clause
    does not name, or with nothing left. *)
Lemma try_strategies_shape (per : Z) (v : string) (order : list string) (d : D) :
  exists made rest : list call,
    planned_calls order v per = made ++ rest /\
    match snd (try_strategies d per v order) with
    | None =>
        rest = [] /\
        snd (fst (try_strategies d per v order)) = rejected_trials made
    | Some (Ok element) =>
        exists (s : string) (b : AppiumBy) (rest' : list call),
          rest = (s, b, v, per) :: rest' /\
          snd (fst (try_strategies d per v order))
          = rejected_trials made
            ++ [Trial s b v per (Accepted element);
                Info ("Element found using " ++ s)]
    | Some (Raise x) =>
        exists (s : string) (b : AppiumBy) (rest' : list call),
          rest = (s, b, v, per) :: rest' /\
          snd (fst (try_strategies d per v order))
          = rejected_trials made ++ [Trial s b v per (Crashed x)] /\
          absorbed x = false
    end.
Proof.
  revert d. induction order as [|s order IH]; intros d.
  - exists [], []. split; [reflexivity|]. cbn. auto.
  - rewrite planned_calls_cons. cbn [try_strategies].
    destruct (by_of s strategies) as [b|].
    + destruct (attempt d per b v) as [d1 o] eqn:Hattempt.
      destruct o as [element| |x].
      * exists [], ((s, b, v, per) :: planned_calls order v per).
        split; [reflexivity|]. cbn.
        exists s, b, (planned_calls order v per). auto.
      * destruct (IH d1) as [made [rest [Hsplit Hshape]]].
        exists ((s, b, v, per) :: made), rest.
        split; [cbn [app]; rewrite Hsplit; reflexivity|].
        destruct (try_strategies d1 per v order) as [[d2 tr] res].
        cbn [fst snd] in *.
        destruct res as [[element|x]|].
        -- destruct Hshape as [s' [b' [rest' [Hrest Htr]]]].
           exists s', b', rest'. split; [exact Hrest|].
           rewrite Htr. reflexivity.
        -- destruct Hshape as [s' [b' [rest' [Hrest [Htr Hx]]]]].
           exists s', b', rest'. split; [exact Hrest|].
           split; [rewrite Htr; reflexivity | exact Hx].
        -- destruct Hshape as [Hrest Htr]. split; [exact Hrest|].
           rewrite Htr. reflexivity.
      * exists [], ((s, b, v, per) :: planned_calls order v per).
        split; [reflexivity|]. cbn.
        exists s, b, (planned_calls order v per).
        split; [reflexivity|]. split; [reflexivity|].
        eapply attempt_crashed; eassumption.
    + cbn [app]. apply IH.
Qed.

(** How a call on an initialised driver ends: on an accepted trial, on a
    trial that raised an exception the loop does not absorb, on a text
    lookup that found an element, or exhausted. *)
Lemma find_element_safe_shape (d : D) (s v : string) (t : option Z) :
  let r := find_element_safe (Some d) s v t in
  let per := per_strategy_wait s t in
  exists made rest : list call,
    planned_calls (strategy_order s) v per = made ++ rest /\
    ((exists (element : E) (s' : string) (b : AppiumBy) (rest' : list call),
        rest = (s', b, v, per) :: rest' /\
        trace r = rejected_trials made
                  ++ [Trial s' b v per (Accepted element);
                      Info ("Element found using " ++ s')] /\
        outcome r = Ok (Some element)) \/
     (exists (x : exn) (s' : string) (b : AppiumBy) (rest' : list call),
        rest = (s', b, v, per) :: rest' /\
        trace r = rejected_trials made ++ [Trial s' b v per (Crashed x)] /\
        absorbed x = false /\
        outcome r = Raise x) \/
     (exists element : E,
        rest = [] /\
        trace r = rejected_trials made
                  ++ [TextFallback XPATH (text_xpath v) 2 (Some element);
                      Info "Element found using text fallback"] /\
        outcome r = Ok (Some element)) \/
     (rest = [] /\
      trace r = rejected_trials made
                ++ [TextFallback XPATH (text_xpath v) 2 None] /\
      outcome r = Raise (NoSuchElementException ("Element not found: " ++ v)))).
Proof.
  intros r per. subst r. unfold find_element_safe.
  fold (per_strategy_wait s t). fold per.
  destruct (try_strategies_shape per v (strategy_order s) d)
    as [made [rest [Hsplit Hshape]]].
  exists made, rest. split; [exact Hsplit|].
  destruct (try_strategies d per v (strategy_order s)) as [[d1 tr] res].
  cbn [fst snd] in Hshape.
  destruct res as [[element|x]|].
  - left. destruct Hshape as [s' [b [rest' [Hrest Htr]]]].
    exists element, s', b, rest'. cbn [trace outcome]. auto.
  - right; left. destruct Hshape as [s' [b [rest' [Hrest [Htr Hx]]]]].
    exists x, s', b, rest'. cbn [trace outcome]. auto.
  - destruct Hshape as [Hrest Htr].
    destruct (wait_presence d1 2 XPATH (text_xpath v)) as [d2 [element|x]].
    + right; right; left. exists element. cbn [trace outcome].
      rewrite Htr. auto.
    + right; right; right. cbn [trace outcome]. rewrite Htr. auto.
Qed.

Lemma trial_calls_app (tr1 tr2 : list (event E)) :
  trial_calls (tr1 ++ tr2) = trial_calls tr1 ++ trial_calls tr2.
Proof. apply flat_map_app. Qed.

Lemma trial_calls_rejected (made : list call) :
  trial_calls (E := E) (rejected_trials made) = made.
Proof.
  induction made as [|[[[s b] v] t] made IH]; [reflexivity|].
  cbn. f_equal. exact IH.
Qed.

Lemma fallback_waits_app (tr1 tr2 : list (event E)) :
  fallback_waits (tr1 ++ tr2) = fallback_waits tr1 ++ fallback_waits tr2.
Proof. apply flat_map_app. Qed.

Lemma fallback_waits_rejected (made : list call) :
  fallback_waits (E := E) (rejected_trials made) = [].
Proof. induction made as [|c made IH]; [reflexivity | exact IH]. Qed.

Lemma rejected_not_accepted (made : list call) (s : string) (b : AppiumBy)
  (v : string) (t : Z) (element : E) :
  ~ In (Trial s b v t (Accepted element)) (rejected_trials made).
Proof.
  induction made as [|c made IH]; cbn; [tauto|].
  intros [Heq|Hin]; [discriminate Heq | exact (IH Hin)].
Qed.

Lemma planned_calls_carry (order : list string) (v : string) (per : Z)
  (c : call) :
  In c (planned_calls order v per) ->
  call_value c = v /\ call_timeout c = per.
Proof.
  induction order as [|s order IH]; [intros []|].
  rewrite planned_calls_cons. intros Hin. apply in_app_or in Hin as [Hin|Hin].
  - destruct (by_of s strategies); [|destruct Hin].
    destruct Hin as [<-|[]]. split; reflexivity.
  - exact (IH Hin).
Qed.

Lemma planned_calls_length (order : list string) (v : string) (per : Z) :
  (List.length (planned_calls order v per) <= List.length order)%nat.
Proof.
  induction order as [|s order IH]; [apply le_n|].
  rewrite planned_calls_cons, length_app.
  destruct (by_of s strategies); simpl; lia.
Qed.

(** The lookups a call makes are an initial segment of the planned ones. *)
Lemma trial_calls_prefix (driver : option D) (s v : string) (t : option Z) :
  exists rest : list call,
    planned_calls (strategy_order s) v (per_strategy_wait s t)
    = trial_calls (trace (find_element_safe driver s v t)) ++ rest.
Proof.
  destruct driver as [d|].
  - destruct (find_element_safe_shape d s v t) as [made [rest [Hsplit Hend]]].
    destruct Hend as [[element [s' [b [rest' [Hrest [Htr _]]]]]]
                     |[[x [s' [b [rest' [Hrest [Htr _]]]]]]
                     |[[element [Hrest [Htr _]]]
                     |[Hrest [Htr _]]]]];
      rewrite Htr, trial_calls_app, trial_calls_rejected, Hsplit, Hrest;
      cbn [trial_calls flat_map call_of app].
    + exists rest'. rewrite <- app_assoc. reflexivity.
    + exists rest'. rewrite <- app_assoc. reflexivity.
    + exists []. rewrite !app_nil_r. reflexivity.
    + exists []. rewrite !app_nil_r. reflexivity.
  - eexists. cbn. reflexivity.
Qed.

Lemma total_constant (ws : list Z) (w : Z) :
  (forall x, In x ws -> x = w) ->
  total ws = (Z.of_nat (List.length ws) * w)%Z.
Proof.
  induction ws as [|x ws IH]; intros Hall; [reflexivity|].
  cbn [total fold_right List.length].
  fold (total ws). rewrite IH by (intros y Hy; apply Hall; right; exact Hy).
  rewrite (Hall x) by (left; reflexivity). lia.
Qed.

Lemma fallback_waits_fixed (driver : option D) (s v : string) (t : option Z)
  (w : Z) :
  In w (fallback_waits (trace (find_element_safe driver s v t))) -> w = 2%Z.
Proof.
  destruct driver as [d|]; [|intros []].
  destruct (find_element_safe_shape d s v t) as [made [rest [_ Hend]]].
  destruct Hend as [[element [s' [b [rest' [_ [Htr _]]]]]]
                   |[[x [s' [b [rest' [_ [Htr _]]]]]]
                   |[[element [_ [Htr _]]]
                   |[_ [Htr _]]]]];
    rewrite Htr, fallback_waits_app, fallback_waits_rejected;
    cbn; intros Hin; intuition congruence.
Qed.

(** C2, as amended: the budget [B] a call works with is the caller's
    timeout when one other than 0 is given, and the default 15 when none or
    0 is given.  With [N] names in the strategy order, every strategy trial
    waits [B // N], which is at most [B / N]; for [B >= 0] the waits of the
    trials a call makes, however many, sum to at most [B]; the text
    fallback waits 2 whatever [B] is. *)
Theorem per_strategy_waits_within_budget
  (driver : option D) (s v : string) (t : option Z) :
  let r := find_element_safe driver s v t in
  let B := effective_timeout t in
  let N := Z.of_nat (List.length (strategy_order s)) in
  (0 <= B)%Z ->
  (forall b : Z, t = Some b -> b <> 0%Z -> B = b) /\
  (t = None \/ t = Some 0%Z -> B = DEFAULT_TIMEOUT) /\
  (forall w : Z,
     In w (trial_waits (trace r)) -> w = (B / N)%Z /\ (N * w <= B)%Z) /\
  (total (trial_waits (trace r)) <= B)%Z /\
  (forall w : Z, In w (fallback_waits (trace r)) -> w = 2%Z).
Proof.
  intros r B N HB.
  split.
  { intros b -> Hb. subst B. unfold effective_timeout.
    destruct (b =? 0)%Z eqn:Hzero; [apply Z.eqb_eq in Hzero; contradiction|].
    reflexivity. }
  split.
  { intros [->| ->]; reflexivity. }
  assert (HN : (0 < N)%Z) by (subst N; cbn [strategy_order List.length]; lia).
  destruct (trial_calls_prefix driver s v t) as [rest Hprefix].
  fold r in Hprefix.
  change (per_strategy_wait s t) with (B / N)%Z in Hprefix.
  assert (Hwait : forall w : Z, In w (trial_waits (trace r)) -> w = (B / N)%Z).
  { intros w Hw. unfold trial_waits in Hw. apply in_map_iff in Hw as [c [<- Hc]].
    apply (planned_calls_carry (strategy_order s) v (B / N)%Z c).
    rewrite Hprefix. apply in_or_app. left. exact Hc. }
  pose proof (Z.mul_div_le B N HN) as Hfloor.
  split; [|split].
  - intros w Hw. rewrite (Hwait w Hw). split; [reflexivity | exact Hfloor].
  - rewrite (total_constant _ _ Hwait).
    assert (Hcount : (Z.of_nat (List.length (trial_waits (trace r))) <= N)%Z).
    { unfold trial_waits. rewrite length_map.
      pose proof (planned_calls_length (strategy_order s) v (B / N)%Z) as Hlen.
      rewrite Hprefix, length_app in Hlen. subst N. lia. }
    pose proof (Z.div_pos B N HB HN) as Hper.
    nia.
  - intros w. apply fallback_waits_fixed.
Qed.

(** On a surface where, at every moment, the lookups by [b0] for the value
    are accepted with [element] and all others rejected, the loop ends on
    the trial of the strategy [s0] mapped to [b0]. *)
Lemma try_strategies_reaches (per : Z) (v s0 : string) (b0 : AppiumBy)
  (element : E) (order : list string) (d : D) :
  In s0 order ->
  by_of s0 strategies = Some b0 ->
  (forall (d' : D) (t' : Z) (b : AppiumBy),
     b <> b0 -> snd (attempt d' t' b v) = Rejected) ->
  (forall (d' : D) (t' : Z), snd (attempt d' t' b0 v) = Accepted element) ->
  snd (try_strategies d per v order) = Some (Ok element) /\
  In (Info ("Element found using " ++ s0))
     (snd (fst (try_strategies d per v order))).
Proof.
  intros Hin Hb0 Hrej Hacc. revert d.
  induction order as [|s order IH]; intros d; [destruct Hin|].
  cbn [try_strategies].
  destruct (by_of s strategies) as [b|] eqn:Hb.
  - destruct (attempt d per b v) as [d1 o] eqn:Hattempt.
    destruct (AppiumBy_eq_dec b b0) as [->|Hne].
    + pose proof (Hacc d per) as Ho. rewrite Hattempt in Ho. cbn in Ho.
      subst o. rewrite (by_of_injective s s0 b0 Hb Hb0).
      cbn. auto.
    + pose proof (Hrej d per b Hne) as Ho. rewrite Hattempt in Ho. cbn in Ho.
      subst o.
      assert (Hin' : In s0 order).
      { destruct Hin as [->|Hin]; [congruence | exact Hin]. }
      destruct (IH Hin' d1) as [Hres Htr].
      destruct (try_strategies d1 per v order) as [[d2 tr] res].
      cbn [fst snd] in *. split; [exact Hres | right; exact Htr].
  - assert (Hin' : In s0 order).
    { destruct Hin as [->|Hin]; [congruence | exact Hin]. }
    apply IH. exact Hin'.
Qed.

(** On a surface that rejects every lookup for the value, the loop runs to
    its end. *)
Lemma try_strategies_all_rejected (per : Z) (v : string) (order : list string)
  (d : D) :
  (forall (d' : D) (t' : Z) (b : AppiumBy),
     snd (attempt d' t' b v) = Rejected) ->
  snd (try_strategies d per v order) = None.
Proof.
  intros Hrej. revert d.
  induction order as [|s order IH]; intros d; [reflexivity|].
  cbn [try_strategies].
  destruct (by_of s strategies) as [b|]; [|apply IH].
  destruct (attempt d per b v) as [d1 o] eqn:Hattempt.
  pose proof (Hrej d per b) as Ho. rewrite Hattempt in Ho. cbn in Ho. subst o.
  specialize (IH d1).
  destruct (try_strategies d1 per v order) as [[d2 tr] res].
  exact IH.
Qed.

(** A trace that ends on the failed text lookup ends no other way. *)
Lemma exhausted_outcome (driver : option D) (s v : string) (t : option Z) :
  exhausted s v (per_strategy_wait s t)
    (trace (find_element_safe driver s v t)) ->
  outcome (find_element_safe driver s v t)
  = Raise (NoSuchElementException ("Element not found: " ++ v)).
Proof.
  unfold exhausted. intros Hex.
  destruct driver as [d|].
  - destruct (find_element_safe_shape d s v t) as [made [rest [_ Hend]]].
    destruct Hend as [[element [s' [b [rest' [_ [Htr _]]]]]]
                     |[[x [s' [b [rest' [_ [Htr _]]]]]]
                     |[[element [_ [Htr _]]]
                     |[_ [_ Hout]]]]]; [| | |exact Hout]; exfalso;
      rewrite Htr in Hex.
    + change (rejected_trials made ++
              [Trial s' b v (per_strategy_wait s t) (Accepted element)]
              ++ [Info ("Element found using " ++ s')] = 
              rejected_trials
                (planned_calls (strategy_order s) v (per_strategy_wait s t))
              ++ [TextFallback XPATH (text_xpath v) 2 None]) in Hex.
      rewrite app_assoc in Hex. apply app_inj_tail in Hex as [_ Hex].
      discriminate Hex.
    + apply app_inj_tail in Hex as [_ Hex]. discriminate Hex.
    + change (rejected_trials made ++
              [TextFallback XPATH (text_xpath v) 2 (Some element)]
              ++ [Info "Element found using text fallback"] =
              rejected_trials
                (planned_calls (strategy_order s) v (per_strategy_wait s t))
              ++ [TextFallback XPATH (text_xpath v) 2 None]) in Hex.
      rewrite app_assoc in Hex. apply app_inj_tail in Hex as [_ Hex].
      discriminate Hex.
  - cbn in Hex. symmetry in Hex. apply app_eq_nil in Hex as [_ Hex].
    discriminate Hex.
Qed.

(** Every way a call can raise. *)
Lemma raise_cases (driver : option D) (s v : string) (t : option Z) (x : exn) :
  outcome (find_element_safe driver s v t) = Raise x ->
  (x = NoSuchElementException ("Element not found: " ++ v) /\
   exhausted s v (per_strategy_wait s t)
     (trace (find_element_safe driver s v t))) \/
  (absorbed x = false /\
   exists (made : list call) (s' : string) (b : AppiumBy),
     trace (find_element_safe driver s v t)
     = rejected_trials made
       ++ [Trial s' b v (per_strategy_wait s t) (Crashed x)]).
Proof.
  intros Hraise.
  destruct driver as [d|]; [|discriminate Hraise].
  destruct (find_element_safe_shape d s v t) as [made [rest [Hsplit Hend]]].
  destruct Hend as [[element [s' [b [rest' [_ [_ Hout]]]]]]
                   |[[y [s' [b [rest' [_ [Htr [Hy Hout]]]]]]]
                   |[[element [_ [_ Hout]]]
                   |[Hrest [Htr Hout]]]]]; rewrite Hout in Hraise.
  - discriminate Hraise.
  - right. assert (y = x) by congruence. subst y.
    split; [exact Hy|]. exists made, s', b. exact Htr.
  - discriminate Hraise.
  - left. split; [congruence|].
    unfold exhausted. rewrite Htr, Hsplit, Hrest, app_nil_r. reflexivity.
Qed.

(** C1, amended: a call tries the primary strategy first (if the strategy
    mapping knows it), then the other names of the mapping in its order,
    each with the caller's value; the lookups it makes are an initial
    segment of that plan; a call in which a trial, the first or a later
    one, is accepted returns its element; and on a surface where only one
    strategy locates a displayed element for the value, the call reaches
    that trial, returns the element and logs the strategy. *)
Theorem find_element_safe_trial_order
  (driver : option D) (s v : string) (t : option Z) :
  let r := find_element_safe driver s v t in
  let planned := planned_calls (strategy_order s) v (per_strategy_wait s t) in
  map call_strategy planned
  = match by_of s strategies with
    | Some _ => [s]
    | None => []
    end ++ filter (fun k => negb (String.eqb k s)) (map fst strategies) /\
  (exists rest : list call, planned = trial_calls (trace r) ++ rest) /\
  (forall c : call, In c (trial_calls (trace r)) -> call_value c = v) /\
  (forall (s' : string) (b : AppiumBy) (v' : string) (t' : Z) (element : E),
     In (Trial s' b v' t' (Accepted element)) (trace r) ->
     outcome r = Ok (Some element)) /\
  (forall (d : D) (s0 : string) (b0 : AppiumBy) (element : E),
     driver = Some d ->
     by_of s0 strategies = Some b0 ->
     (forall (d' : D) (t' : Z) (b : AppiumBy),
        b <> b0 -> snd (attempt d' t' b v) = Rejected) ->
     (forall (d' : D) (t' : Z), snd (attempt d' t' b0 v) = Accepted element) ->
     outcome r = Ok (Some element) /\
     In (Info ("Element found using " ++ s0)) (trace r)).
Proof.
  intros r planned.
  pose proof (trial_calls_prefix driver s v t) as Hprefix.
  fold r in Hprefix. fold planned in Hprefix.
  split; [apply planned_strategies|].
  split; [exact Hprefix|].
  split; [|split].
  - intros c Hc. destruct Hprefix as [rest Hprefix].
    apply (planned_calls_carry (strategy_order s) v (per_strategy_wait s t) c).
    fold planned. rewrite Hprefix. apply in_or_app. left. exact Hc.
  - intros s' b v' t' element Hin. subst r.
    destruct driver as [d|]; [|destruct Hin].
    destruct (find_element_safe_shape d s v t) as [made [rest [_ Hend]]].
    destruct Hend as [[e0 [s0 [b0 [rest' [_ [Htr Hout]]]]]]
                     |[[x [s0 [b0 [rest' [_ [Htr _]]]]]]
                     |[[e0 [_ [Htr _]]]
                     |[_ [Htr _]]]]];
      rewrite Htr in Hin; apply in_app_or in Hin as [Hin|Hin];
      try (exfalso; exact (rejected_not_accepted _ _ _ _ _ _ Hin));
      cbn in Hin; intuition (try discriminate).
    rewrite Hout. congruence.
  - intros d s0 b0 element -> Hb0 Hrej Hacc. subst r.
    pose proof (try_strategies_reaches (per_strategy_wait s t) v s0 b0 element
                  (strategy_order s) d (by_of_in_order s s0 b0 Hb0)
                  Hb0 Hrej Hacc) as [Hres Hlog].
    unfold find_element_safe. fold (per_strategy_wait s t).
    destruct (try_strategies d (per_strategy_wait s t) v (strategy_order s))
      as [[d1 tr] res].
    cbn [fst snd] in Hres, Hlog. subst res. cbn [trace outcome]. auto.
Qed.

(** C8, amended: on an initialised driver, when every strategy trial has
    been rejected and the text lookup for the value has found nothing, the
    call raises [NoSuchElementException] with the message
    [Element not found: <value>]; that exception is raised in no other case;
    and the only other way a call fails is on an exception other than
    timeout and not-found raised inside a strategy trial, which leaves the
    call unchanged before the remaining strategies and the text lookup are
    tried. *)
Theorem element_not_found_only_on_exhaustion
  (driver : option D) (s v : string) (t : option Z) :
  let r := find_element_safe driver s v t in
  let per := per_strategy_wait s t in
  (exhausted s v per (trace r) ->
   outcome r = Raise (NoSuchElementException ("Element not found: " ++ v))) /\
  (forall m : string,
     outcome r = Raise (NoSuchElementException m) ->
     m = ("Element not found: " ++ v)%string /\ exhausted s v per (trace r)) /\
  (forall x : exn,
     outcome r = Raise x ->
     (x = NoSuchElementException ("Element not found: " ++ v) /\
      exhausted s v per (trace r)) \/
     (absorbed x = false /\
      exists (made : list call) (s' : string) (b : AppiumBy),
        trace r = rejected_trials made ++ [Trial s' b v per (Crashed x)])) /\
  (forall d : D,
     driver = Some d ->
     (forall (d' : D) (t' : Z) (b : AppiumBy),
        snd (attempt d' t' b v) = Rejected) ->
     (forall d' : D,
        exists x : exn,
          snd (wait_presence d' 2 XPATH (text_xpath v)) = Raise x) ->
     outcome r = Raise (NoSuchElementException ("Element not found: " ++ v)) /\
     exhausted s v per (trace r)).
Proof.
  intros r per.
  split; [apply exhausted_outcome|].
  split; [|split].
  - intros m Hraise.
    destruct (raise_cases driver s v t _ Hraise) as [[Hx Hex]|[Hx _]].
    + split; [congruence | exact Hex].
    + discriminate Hx.
  - intros x Hraise. apply raise_cases. exact Hraise.
  - intros d -> Hrej Hnone.
    assert (Hout : outcome r
                   = Raise (NoSuchElementException ("Element not found: " ++ v))).
    { subst r. unfold find_element_safe. fold (per_strategy_wait s t).
      pose proof (try_strategies_all_rejected (per_strategy_wait s t) v
                    (strategy_order s) d Hrej) as Hres.
      destruct (try_strategies d (per_strategy_wait s t) v (strategy_order s))
        as [[d1 tr] res].
      cbn [snd] in Hres. subst res.
      destruct (Hnone d1) as [x Hx].
      destruct (wait_presence d1 2 XPATH (text_xpath v)) as [d2 [element|y]];
        [discriminate Hx | reflexivity]. }
    split; [exact Hout|].
    destruct (raise_cases (Some d) s v t _ Hout) as [[_ Hex]|[Hx _]];
      [exact Hex | discriminate Hx].
Qed.

End ResolverFacts.

Example text_fallback_is_a_success :
  let r := find_element_safe (W := text_only_surface)
             (Some tt) "id" "Login" (Some 2%Z) in
  outcome r = Ok (Some 7%nat) /\
  trial_waits (trace r) = [0; 0; 0; 0; 0]%Z /\
  fallback_waits (trace r) = [2%Z].
Proof. cbv zeta. repeat split. Qed.

Example unknown_primary_is_skipped :
  tried (trace (find_element_safe (W := empty_surface)
                  (Some tt) "name" "q" None))
  = [("id", "q"); ("xpath", "q"); ("accessibility_id", "q");
     ("class_name", "q"); ("android_uiautomator", "q")] /\
  trial_waits (trace (find_element_safe (W := empty_surface)
                        (Some tt) "name" "q" None))
  = [2; 2; 2; 2; 2]%Z.
Proof. split; reflexivity. Qed.

Example no_driver_returns_none :
  outcome (find_element_safe (W := empty_surface) None "id" "q" None)
  = Ok None.
Proof. reflexivity. Qed.

(** C1, as stated: take the record with primary locator [id login_btn] and
    the one fallback locator [xpath //Button[@text='Login']], on a surface
    where only that xpath locates a displayed element.  The call for the
    record tries [xpath] second, but with the value [login_btn]: the
    fallback locator of the record is never tried, the order differs from
    the one the specification gives, and the call fails. *)
Lemma record_fallback_locators_not_tried :
  let r := find_element_safe (W := login_button_surface)
             (Some tt) "id" "login_btn" None in
  tried (trace r)
  = [("id", "login_btn"); ("xpath", "login_btn");
     ("accessibility_id", "login_btn"); ("class_name", "login_btn");
     ("android_uiautomator", "login_btn")] /\
  spec_trial_order ("id", "login_btn") [("xpath", "//Button[@text='Login']")]
    (map fst strategies)
  = [("id", "login_btn"); ("xpath", "//Button[@text='Login']");
     ("accessibility_id", "login_btn"); ("class_name", "login_btn");
     ("android_uiautomator", "login_btn")] /\
  tried (trace r)
  <> spec_trial_order ("id", "login_btn")
       [("xpath", "//Button[@text='Login']")] (map fst strategies) /\
  outcome r = Raise (NoSuchElementException "Element not found: login_btn").
Proof.
  cbv zeta. split; [reflexivity|]. split; [reflexivity|].
  split; [|reflexivity].
  vm_compute. discriminate.
Qed.

(** A surface where only the xpath lookup locates a displayed element for
    the value: the call with primary strategy [id] returns that element. *)
Lemma find_element_safe_trial_order_witness :
  outcome (find_element_safe (W := xpath_only_surface)
             (Some tt) "id" "login_btn" None) = Ok (Some 1%nat) /\
  In (Info "Element found using xpath")
     (trace (find_element_safe (W := xpath_only_surface)
               (Some tt) "id" "login_btn" None)).
Proof.
  destruct (find_element_safe_trial_order (W := xpath_only_surface)
              (Some tt) "id" "login_btn" None)
    as [_ [_ [_ [_ Hreach]]]].
  apply (Hreach tt "xpath" XPATH 1%nat).
  - reflexivity.
  - reflexivity.
  - intros d' t' b Hb. destruct b; try reflexivity. contradiction Hb; reflexivity.
  - intros d' t'. reflexivity.
Defined.

(** A budget of 10 on a surface where nothing is found. *)
Lemma per_strategy_waits_within_budget_witness :
  (0 <= effective_timeout (Some 10%Z))%Z /\
  (total (trial_waits
            (trace (find_element_safe (W := empty_surface)
                      (Some tt) "id" "login_btn" (Some 10%Z)))) <= 10)%Z.
Proof.
  assert (Hbudget : (0 <= effective_timeout (Some 10%Z))%Z)
    by (vm_compute; discriminate).
  split; [exact Hbudget|].
  destruct (per_strategy_waits_within_budget (W := empty_surface)
              (Some tt) "id" "login_btn" (Some 10%Z) Hbudget)
    as [_ [_ [_ [Htotal _]]]].
  exact Htotal.
Defined.

(** C2, as stated: a budget of 0 is replaced by the default like a missing
    one; on a surface where nothing is found the five strategy trials of
    such a call wait 3 seconds each, 15 in all, which exceeds the budget
    the caller gave. *)
Lemma zero_budget_is_exceeded :
  trial_waits
    (trace (find_element_safe (W := empty_surface)
              (Some tt) "id" "login_btn" (Some 0%Z)))
  = [3; 3; 3; 3; 3]%Z /\
  (0 < total
         (trial_waits
            (trace (find_element_safe (W := empty_surface)
                      (Some tt) "id" "login_btn" (Some 0%Z)))))%Z.
Proof. split; vm_compute; reflexivity. Qed.

(** C8, as stated: on a surface whose session is lost, the call fails with
    the driver's [WebDriverException] on its first trial; four strategies
    and the text lookup are never tried, so the failure is not the
    exhaustion case. *)
Lemma resolution_fails_outside_exhaustion :
  let r := find_element_safe (W := broken_surface)
             (Some tt) "id" "login_btn" None in
  outcome r = Raise (WebDriverException "session deleted") /\
  trace r = [Trial "id" ID "login_btn" 3
               (Crashed (WebDriverException "session deleted"))] /\
  ~ exhausted "id" "login_btn" 3 (trace r).
Proof.
  cbv zeta. split; [reflexivity|]. split; [reflexivity|].
  unfold exhausted. vm_compute. discriminate.
Qed.

(** A surface where nothing is found, by no strategy and not by text. *)
Lemma element_not_found_only_on_exhaustion_witness :
  outcome (find_element_safe (W := empty_surface)
             (Some tt) "id" "Login" None)
  = Raise (NoSuchElementException "Element not found: Login").
Proof.
  destruct (element_not_found_only_on_exhaustion (W := empty_surface)
              (Some tt) "id" "Login" None)
    as [_ [_ [_ Hsurface]]].
  apply (Hsurface tt).
  - reflexivity.
  - intros d' t' b. reflexivity.
  - intros d'. exists TimeoutException. reflexivity.
Defined.

(** ** Scrolling *)

(** With a budget of 2 every strategy trial waits [2 // N = 0]: the
    strategy order has five or six names. *)
Lemma per_strategy_wait_of_two (s : string) :
  per_strategy_wait s (Some 2%Z) = 0%Z.
Proof.
  unfold per_strategy_wait, strategy_order, strategies.
  cbn [map fst filter effective_timeout Z.eqb].
  repeat match goal with
         | |- context [String.eqb ?k s] =>
             let Hk := fresh "Hk" in
             destruct (String.eqb k s) eqn:Hk;
             [apply String.eqb_eq in Hk|clear Hk]
         end; try reflexivity; congruence.
Qed.

Section ScrollFacts.

Context {D E : Type} {W : WebDriver D E} {X : AppiumBase.Session D}.

(** A call on a surface that rejects every lookup for the value and finds
    no text is exhausted. *)
Lemma find_element_safe_nothing_found (d : D) (s v : string) (t : option Z) :
  (forall (d' : D) (t' : Z) (b : AppiumBy),
     snd (attempt d' t' b v) = Rejected) ->
  (forall d' : D,
     exists x : exn, snd (wait_presence d' 2 XPATH (text_xpath v)) = Raise x) ->
  outcome (find_element_safe (Some d) s v t)
  = Raise (NoSuchElementException ("Element not found: " ++ v)).
Proof.
  intros Hrej Hnone.
  unfold find_element_safe. fold (per_strategy_wait s t).
  pose proof (try_strategies_all_rejected (per_strategy_wait s t) v
                (strategy_order s) d Hrej) as Hres.
  destruct (try_strategies d (per_strategy_wait s t) v (strategy_order s))
    as [[d1 tr] res].
  cbn [snd] in Hres. subst res.
  destruct (Hnone d1) as [x Hx].
  destruct (wait_presence d1 2 XPATH (text_xpath v)) as [d2 [element|y]];
    [discriminate Hx | reflexivity].
Qed.

(** Every attempt of the loop is a call of [find_element_safe] with the
    timeout 2, and the swipes never outnumber the iterations that may
    swipe. *)
Lemma scroll_attempts_bounds (s v : string) (width height max_scrolls : Z)
  (remaining : nat) (d : D) (attempt : Z) :
  let '(_, tr, _) :=
    AppiumBase.scroll_attempts d s v width height max_scrolls attempt
      remaining in
  (forall r : run D E,
     In r (attempts_of tr) ->
     exists d' : D, r = find_element_safe (Some d') s v (Some 2%Z)) /\
  (List.length (attempts_of tr) <= remaining)%nat /\
  (swipes_of tr <= List.length (attempts_of tr))%nat /\
  (Z.of_nat (swipes_of tr) <= Z.max 0 (max_scrolls - attempt))%Z.
Proof.
  revert d attempt.
  induction remaining as [|k IH]; intros d attempt.
  - cbn. split; [intros r []|]. repeat split; lia.
  - cbn [AppiumBase.scroll_attempts].
    set (r0 := find_element_safe (Some d) s v (Some 2%Z)).
    set (d1 := match final r0 with Some d' => d' | None => d end).
    assert (Hone : forall r : run D E,
               In r (attempts_of [AppiumBase.Attempt r0]) ->
               exists d' : D, r = find_element_safe (Some d') s v (Some 2%Z)).
    { intros r [<-|[]]. exists d. reflexivity. }
    assert (Hend : forall tail : list (AppiumBase.scroll_event D E),
               tail = [] \/ tail = [AppiumBase.Swipe width height] ->
               (forall r : run D E,
                  In r (attempts_of (AppiumBase.Attempt r0 :: tail)) ->
                  exists d' : D,
                    r = find_element_safe (Some d') s v (Some 2%Z))).
    { intros tail [->| ->] r [<-|[]]; exists d; reflexivity. }
    destruct (outcome r0) as [element|x].
    + split; [exact Hone|]. unfold attempts_of, swipes_of. cbn.
      repeat split; lia.
    + destruct x;
        try (split; [exact Hone|]; unfold attempts_of, swipes_of; cbn;
             repeat split; lia).
      destruct (attempt <? max_scrolls)%Z eqn:Hlt.
      * apply Z.ltb_lt in Hlt.
        destruct (AppiumBase.swipe d1 width height) as [d2 [u|x]].
        -- specialize (IH d2 (attempt + 1)%Z).
           destruct (AppiumBase.scroll_attempts d2 s v width height
                       max_scrolls (attempt + 1) k) as [[d3 tr] res].
           destruct IH as [Hcalls [Hlen [Hsw Hmax]]].
           split.
           ++ intros r [<-|Hr]; [exists d; reflexivity | exact (Hcalls r Hr)].
           ++ unfold attempts_of, swipes_of in *.
              cbn [flat_map filter app List.length] in *.
              repeat split; lia.
        -- split; [apply Hend; right; reflexivity|].
           unfold attempts_of, swipes_of. cbn. repeat split; lia.
      * apply Z.ltb_ge in Hlt.
        specialize (IH d1 (attempt + 1)%Z).
        destruct (AppiumBase.scroll_attempts d1 s v width height
                    max_scrolls (attempt + 1) k) as [[d3 tr] res].
        destruct IH as [Hcalls [Hlen [Hsw Hmax]]].
        split.
        -- intros r [<-|Hr]; [exists d; reflexivity | exact (Hcalls r Hr)].
        -- unfold attempts_of, swipes_of in *.
           cbn [flat_map filter app List.length] in *.
           repeat split; lia.
Qed.

(** How the loop ends, for a loop that has the iterations of
    [range(max_scrolls + 1)] from [attempt] on left: with the range used up after failed
    attempts only; on an attempt that returned; on an attempt that raised
    something else than [NoSuchElementException]; or on a swipe that
    raised.  Every failed attempt that is followed by another one is
    followed by a swipe first. *)
Lemma scroll_attempts_shape (s v : string) (width height max_scrolls : Z)
  (remaining : nat) (d : D) (attempt : Z) :
  Z.of_nat remaining = (max_scrolls + 1 - attempt)%Z ->
  let '(_, tr, res) :=
    AppiumBase.scroll_attempts d s v width height max_scrolls attempt
      remaining in
  match res with
  | None =>
      Forall failed (attempts_of tr) /\
      List.length (attempts_of tr) = remaining /\
      swipes_of tr = (remaining - 1)%nat
  | Some (Ok returned) =>
      exists (fails : list (run D E)) (r : run D E),
        attempts_of tr = fails ++ [r] /\ Forall failed fails /\
        outcome r = Ok returned /\ swipes_of tr = List.length fails
  | Some (Raise x) =>
      exists (fails : list (run D E)) (r : run D E),
        attempts_of tr = fails ++ [r] /\ Forall failed fails /\
        ((outcome r = Raise x /\ not_found x = false /\
          swipes_of tr = List.length fails) \/
         (failed r /\ swipes_of tr = Datatypes.S (List.length fails) /\
          exists d1 d2 : D,
            AppiumBase.swipe d1 width height = (d2, Raise x)))
  end.
Proof.
  revert d attempt.
  induction remaining as [|k IH]; intros d attempt Hrange.
  - cbn. repeat split. constructor.
  - cbn [AppiumBase.scroll_attempts].
    set (r0 := find_element_safe (Some d) s v (Some 2%Z)).
    set (d1 := match final r0 with Some d' => d' | None => d end).
    destruct (outcome r0) as [element|x] eqn:Hout.
    + exists [], r0. cbn. repeat split; auto.
    + assert (Hcrash : not_found x = false ->
                exists (fails : list (run D E)) (r : run D E),
                  attempts_of [AppiumBase.Attempt r0] = fails ++ [r] /\
                  Forall failed fails /\
                  ((outcome r = Raise x /\ not_found x = false /\
                    swipes_of [AppiumBase.Attempt r0] = List.length fails) \/
                   (failed r /\
                    swipes_of [AppiumBase.Attempt r0]
                    = Datatypes.S (List.length fails) /\
                    exists d1 d2 : D,
                      AppiumBase.swipe d1 width height = (d2, Raise x)))).
      { intros Hx. exists [], r0. cbn. repeat split; auto. }
      destruct x; try (apply Hcrash; reflexivity). clear Hcrash.
      assert (Hfailed : failed r0) by (eexists; exact Hout).
      destruct (attempt <? max_scrolls)%Z eqn:Hlt.
      * apply Z.ltb_lt in Hlt.
        destruct (AppiumBase.swipe d1 width height) as [d2 [u|x]] eqn:Hswipe.
        -- assert (Hrange' : Z.of_nat k = (max_scrolls + 1 - (attempt + 1))%Z)
             by lia.
           specialize (IH d2 (attempt + 1)%Z Hrange').
           destruct (AppiumBase.scroll_attempts d2 s v width height
                       max_scrolls (attempt + 1) k) as [[d3 tr] res].
           destruct res as [[returned|x]|].
           ++ destruct IH as [fails [r [Hatt [Hfails [Hr Hsw]]]]].
              exists (r0 :: fails), r.
              unfold attempts_of, swipes_of in *.
              cbn [flat_map filter app List.length] in *.
              rewrite Hatt, Hsw. repeat split; auto.
           ++ destruct IH as [fails [r [Hatt [Hfails Hcases]]]].
              exists (r0 :: fails), r.
              unfold attempts_of, swipes_of in *.
              cbn [flat_map filter app List.length] in *.
              rewrite Hatt. split; [reflexivity|]. split; [auto|].
              destruct Hcases as [[Hr [Hx Hsw]]|[Hr [Hsw Hraised]]];
                [left | right]; rewrite Hsw; auto.
           ++ destruct IH as [Hall [Hlen Hsw]].
              unfold attempts_of, swipes_of in *.
              cbn [flat_map filter app List.length] in *.
              rewrite Hlen, Hsw. repeat split; auto. lia.
        -- exists [], r0. cbn. repeat split; auto.
           right. repeat split; auto. exists d1, d2. exact Hswipe.
      * apply Z.ltb_ge in Hlt.
        assert (Hk : k = 0%nat) by lia. subst k.
        cbn. repeat split; auto.
Qed.

(** X1: inside [scroll_to_element] every strategy trial of every
    resolution attempt waits 0 (the budget 2 is divided by five or six
    strategies with integer division); only the text fallback waits, for
    2. *)
Theorem scroll_attempts_do_not_wait
  (driver : option D) (s v : string) (max_scrolls : Z) (r : run D E) :
  In r (attempts_of
          (AppiumBase.scroll_trace
             (AppiumBase.scroll_to_element driver s v max_scrolls))) ->
  (forall w : Z, In w (trial_waits (trace r)) -> w = 0%Z) /\
  (forall w : Z, In w (fallback_waits (trace r)) -> w = 2%Z).
Proof.
  intros Hr.
  assert (Hcall : exists d' : D, r = find_element_safe (Some d') s v (Some 2%Z)).
  { unfold AppiumBase.scroll_to_element in Hr.
    destruct driver as [d|]; [|destruct Hr].
    destruct (AppiumBase.get_window_size d) as [d0 [[width height]|x]];
      [|destruct Hr].
    pose proof (scroll_attempts_bounds s v width height max_scrolls
                  (Z.to_nat (max_scrolls + 1)) d0 0%Z) as Hb.
    destruct (AppiumBase.scroll_attempts d0 s v width height max_scrolls 0
                (Z.to_nat (max_scrolls + 1))) as [[d1 tr] res].
    destruct Hb as [Hcalls _].
    destruct res; apply Hcalls; exact Hr. }
  destruct Hcall as [d' ->].
  split.
  - intros w Hw. unfold trial_waits in Hw.
    apply in_map_iff in Hw as [c [<- Hc]].
    destruct (trial_calls_prefix (Some d') s v (Some 2%Z)) as [rest Hprefix].
    rewrite <- (per_strategy_wait_of_two s).
    apply (planned_calls_carry (strategy_order s) v
             (per_strategy_wait s (Some 2%Z)) c).
    rewrite Hprefix. apply in_or_app. left. exact Hc.
  - intros w. apply fallback_waits_fixed.
Qed.

(** X2: whatever the surface does, [scroll_to_element] makes at most
    [max_scrolls + 1] resolution attempts and at most [max_scrolls] swipes,
    and never more swipes than attempts; with a negative [max_scrolls] it
    makes none of either. *)
Theorem scroll_to_element_bounds
  (driver : option D) (s v : string) (max_scrolls : Z) :
  let tr := AppiumBase.scroll_trace
              (AppiumBase.scroll_to_element driver s v max_scrolls) in
  (List.length (attempts_of tr) <= Z.to_nat (max_scrolls + 1))%nat /\
  (swipes_of tr <= Z.to_nat max_scrolls)%nat /\
  (swipes_of tr <= List.length (attempts_of tr))%nat.
Proof.
  unfold AppiumBase.scroll_to_element.
  destruct driver as [d|]; [|cbn; repeat split; lia].
  destruct (AppiumBase.get_window_size d) as [d0 [[width height]|x]];
    [|cbn; repeat split; lia].
  pose proof (scroll_attempts_bounds s v width height max_scrolls
                (Z.to_nat (max_scrolls + 1)) d0 0%Z) as Hb.
  destruct (AppiumBase.scroll_attempts d0 s v width height max_scrolls 0
              (Z.to_nat (max_scrolls + 1))) as [[d1 tr] res].
  destruct Hb as [_ [Hlen [Hsw Hmax]]].
  destruct res; cbn [AppiumBase.scroll_trace]; repeat split; lia.
Qed.

(** X3: when [scroll_to_element] returns an element, it is the element the
    last resolution attempt returned; every earlier attempt ended in
    [NoSuchElementException] and was followed by exactly one swipe. *)
Theorem scroll_to_element_success
  (driver : option D) (s v : string) (max_scrolls : Z) (element : E) :
  let run := AppiumBase.scroll_to_element driver s v max_scrolls in
  AppiumBase.scroll_outcome run = Ok (Some element) ->
  exists (fails : list (Screen.run D E)) (r : Screen.run D E),
    attempts_of (AppiumBase.scroll_trace run) = fails ++ [r] /\
    Forall failed fails /\
    outcome r = Ok (Some element) /\
    swipes_of (AppiumBase.scroll_trace run) = List.length fails.
Proof.
  unfold AppiumBase.scroll_to_element.
  destruct driver as [d|]; [|discriminate].
  destruct (AppiumBase.get_window_size d) as [d0 [[width height]|x]];
    [|discriminate].
  destruct (Z_le_gt_dec 0 (max_scrolls + 1)) as [Hnonneg|Hneg].
  - pose proof (scroll_attempts_shape s v width height max_scrolls
                  (Z.to_nat (max_scrolls + 1)) d0 0%Z) as Hshape.
    destruct (AppiumBase.scroll_attempts d0 s v width height max_scrolls 0
                (Z.to_nat (max_scrolls + 1))) as [[d1 tr] res].
    specialize (Hshape ltac:(lia)).
    destruct res as [[returned|x]|];
      cbn [AppiumBase.scroll_outcome AppiumBase.scroll_trace]; intros Hout;
      try discriminate Hout.
    apply Ok_inj in Hout. subst returned. exact Hshape.
  - replace (Z.to_nat (max_scrolls + 1)) with 0%nat by lia.
    cbn. discriminate.
Qed.

(** X4: every exception that leaves [scroll_to_element] is its own
    [NoSuchElementException] with the message
    [Element not found after <max_scrolls> scrolls: <value>], or was raised
    by [get_window_size] or by a swipe, or is an exception other than
    [NoSuchElementException] raised by a resolution attempt. *)
Theorem scroll_to_element_failures
  (driver : option D) (s v : string) (max_scrolls : Z) (x : exn) :
  let run := AppiumBase.scroll_to_element driver s v max_scrolls in
  AppiumBase.scroll_outcome run = Raise x ->
  x = NoSuchElementException (not_found_after max_scrolls v) \/
  (exists d d' : D, AppiumBase.get_window_size d = (d', Raise x)) \/
  (exists (d1 d2 : D) (width height : Z),
     AppiumBase.swipe d1 width height = (d2, Raise x)) \/
  (not_found x = false /\
   exists r : Screen.run D E,
     In r (attempts_of (AppiumBase.scroll_trace run)) /\
     outcome r = Raise x).
Proof.
  unfold AppiumBase.scroll_to_element.
  destruct driver as [d|]; [|discriminate].
  destruct (AppiumBase.get_window_size d) as [d0 [[width height]|y]] eqn:Hsize.
  2:{ cbn. intros Hout. right; left. exists d, d0.
      rewrite Hsize. congruence. }
  destruct (Z_le_gt_dec 0 (max_scrolls + 1)) as [Hnonneg|Hneg].
  - pose proof (scroll_attempts_shape s v width height max_scrolls
                  (Z.to_nat (max_scrolls + 1)) d0 0%Z) as Hshape.
    destruct (AppiumBase.scroll_attempts d0 s v width height max_scrolls 0
                (Z.to_nat (max_scrolls + 1))) as [[d1 tr] res].
    specialize (Hshape ltac:(lia)).
    destruct res as [[returned|y]|];
      cbn [AppiumBase.scroll_outcome AppiumBase.scroll_trace]; intros Hout;
      try discriminate Hout.
    + assert (y = x) by congruence. subst y.
      destruct Hshape as [fails [r [Hatt [_ [[Hr [Hx _]]|[_ [_ Hraised]]]]]]].
      * right; right; right. split; [exact Hx|]. exists r.
        split; [|exact Hr]. rewrite Hatt. apply in_or_app. right. left.
        reflexivity.
      * right; right; left. destruct Hraised as [da [db Hraised]].
        exists da, db, width, height. exact Hraised.
    + left. unfold not_found_after. congruence.
  - replace (Z.to_nat (max_scrolls + 1)) with 0%nat by lia.
    cbn. intros Hout. left. unfold not_found_after. congruence.
Qed.

(** On a surface where nothing is ever found and the gestures succeed, the
    loop uses up its range. *)
Lemma scroll_attempts_run_out (s v : string) (width height max_scrolls : Z)
  (remaining : nat) (d : D) (attempt : Z) :
  (forall (d' : D) (t' : Z) (b : AppiumBy),
     snd (Screen.attempt d' t' b v) = Rejected) ->
  (forall d' : D,
     exists x : exn, snd (wait_presence d' 2 XPATH (text_xpath v)) = Raise x) ->
  (forall (d' : D) (w h : Z), snd (AppiumBase.swipe d' w h) = Ok tt) ->
  snd (AppiumBase.scroll_attempts d s v width height max_scrolls attempt
         remaining) = None.
Proof.
  intros Hrej Hnone Hswipe. revert d attempt.
  induction remaining as [|k IH]; intros d attempt; [reflexivity|].
  cbn [AppiumBase.scroll_attempts].
  rewrite (find_element_safe_nothing_found d s v (Some 2%Z) Hrej Hnone).
  set (d1 := match final (find_element_safe (Some d) s v (Some 2%Z)) with
             | Some d' => d'
             | None => d
             end).
  destruct (attempt <? max_scrolls)%Z.
  - pose proof (Hswipe d1 width height) as Hs.
    destruct (AppiumBase.swipe d1 width height) as [d2 [u|x]];
      [|discriminate Hs].
    specialize (IH d2 (attempt + 1)%Z).
    destruct (AppiumBase.scroll_attempts d2 s v width height max_scrolls
                (attempt + 1) k) as [[d3 tr] res].
    exact IH.
  - specialize (IH d1 (attempt + 1)%Z).
    destruct (AppiumBase.scroll_attempts d1 s v width height max_scrolls
                (attempt + 1) k) as [[d3 tr] res].
    exact IH.
Qed.

(** X5: on a surface where no strategy and no text lookup ever finds the
    value, while the window size can be read and the swipes succeed,
    [scroll_to_element] tries [max_scrolls + 1] times, swipes [max_scrolls]
    times (not after the last attempt) and raises [NoSuchElementException]
    with [Element not found after <max_scrolls> scrolls: <value>]. *)
Theorem scroll_to_element_exhaustion
  (d : D) (s v : string) (max_scrolls : Z) :
  let run := AppiumBase.scroll_to_element (Some d) s v max_scrolls in
  (exists (d0 : D) (size : Z * Z),
     AppiumBase.get_window_size d = (d0, Ok size)) ->
  (forall (d' : D) (t' : Z) (b : AppiumBy),
     snd (Screen.attempt d' t' b v) = Rejected) ->
  (forall d' : D,
     exists x : exn, snd (wait_presence d' 2 XPATH (text_xpath v)) = Raise x) ->
  (forall (d' : D) (w h : Z), snd (AppiumBase.swipe d' w h) = Ok tt) ->
  AppiumBase.scroll_outcome run
  = Raise (NoSuchElementException (not_found_after max_scrolls v)) /\
  List.length (attempts_of (AppiumBase.scroll_trace run))
  = Z.to_nat (max_scrolls + 1) /\
  swipes_of (AppiumBase.scroll_trace run) = Z.to_nat max_scrolls.
Proof.
  intros run [d0 [[width height] Hsize]] Hrej Hnone Hswipe.
  subst run. unfold AppiumBase.scroll_to_element. rewrite Hsize.
  pose proof (scroll_attempts_run_out s v width height max_scrolls
                (Z.to_nat (max_scrolls + 1)) d0 0%Z Hrej Hnone Hswipe) as Hres.
  destruct (Z_le_gt_dec 0 (max_scrolls + 1)) as [Hnonneg|Hneg].
  - pose proof (scroll_attempts_shape s v width height max_scrolls
                  (Z.to_nat (max_scrolls + 1)) d0 0%Z) as Hshape.
    destruct (AppiumBase.scroll_attempts d0 s v width height max_scrolls 0
                (Z.to_nat (max_scrolls + 1))) as [[d1 tr] res].
    specialize (Hshape ltac:(lia)).
    cbn [snd] in Hres. subst res.
    destruct Hshape as [_ [Hlen Hsw]].
    cbn [AppiumBase.scroll_outcome AppiumBase.scroll_trace].
    split; [reflexivity|]. split; [exact Hlen|]. rewrite Hsw. lia.
  - replace (Z.to_nat (max_scrolls + 1)) with 0%nat in * by lia.
    cbn. repeat split. lia.
Qed.

End ScrollFacts.

Lemma scroll_attempts_do_not_wait_witness :
  hd 1%Z (trial_waits
            (trace (find_element_safe (W := empty_surface)
                      (Some tt) "id" "q" (Some 2%Z)))) = 0%Z.
Proof.
  apply (proj1 (scroll_attempts_do_not_wait (W := empty_surface)
                  (X := steady_session "") (Some tt) "id" "q" 1%Z
                  (find_element_safe (W := empty_surface)
                     (Some tt) "id" "q" (Some 2%Z))
                  (or_introl eq_refl))).
  left. reflexivity.
Defined.

Lemma scroll_to_element_success_witness :
  exists (fails : list (run unit nat)) (r : run unit nat),
    attempts_of
      (AppiumBase.scroll_trace
         (AppiumBase.scroll_to_element (W := xpath_only_surface)
            (X := steady_session "") (Some tt) "id" "login_btn" 5%Z))
    = fails ++ [r] /\
    Forall failed fails /\
    outcome r = Ok (Some 1%nat) /\
    swipes_of
      (AppiumBase.scroll_trace
         (AppiumBase.scroll_to_element (W := xpath_only_surface)
            (X := steady_session "") (Some tt) "id" "login_btn" 5%Z))
    = List.length fails.
Proof.
  apply (scroll_to_element_success (W := xpath_only_surface)
           (X := steady_session "") (Some tt) "id" "login_btn" 5%Z 1%nat).
  reflexivity.
Defined.

Lemma scroll_to_element_failures_witness :
  AppiumBase.scroll_outcome
    (AppiumBase.scroll_to_element (W := broken_surface)
       (X := steady_session "") (Some tt) "id" "q" 3%Z)
  = Raise (WebDriverException "session deleted") /\
  (WebDriverException "session deleted"
   = NoSuchElementException (not_found_after 3 "q") \/
   (exists d d' : unit,
      AppiumBase.get_window_size (Session := steady_session "") d
      = (d', Raise (WebDriverException "session deleted"))) \/
   (exists (d1 d2 : unit) (width height : Z),
      AppiumBase.swipe (Session := steady_session "") d1 width height
      = (d2, Raise (WebDriverException "session deleted"))) \/
   (not_found (WebDriverException "session deleted") = false /\
    exists r : run unit nat,
      In r (attempts_of
              (AppiumBase.scroll_trace
                 (AppiumBase.scroll_to_element (W := broken_surface)
                    (X := steady_session "") (Some tt) "id" "q" 3%Z))) /\
      outcome r = Raise (WebDriverException "session deleted"))).
Proof.
  split; [reflexivity|].
  apply (scroll_to_element_failures (W := broken_surface)
           (X := steady_session "") (Some tt) "id" "q" 3%Z).
  reflexivity.
Defined.

Lemma scroll_to_element_exhaustion_witness :
  AppiumBase.scroll_outcome
    (AppiumBase.scroll_to_element (W := empty_surface)
       (X := steady_session "") (Some tt) "id" "Cart" 2%Z)
  = Raise (NoSuchElementException "Element not found after 2 scrolls: Cart") /\
  List.length
    (attempts_of
       (AppiumBase.scroll_trace
          (AppiumBase.scroll_to_element (W := empty_surface)
             (X := steady_session "") (Some tt) "id" "Cart" 2%Z)))
  = 3%nat /\
  swipes_of
    (AppiumBase.scroll_trace
       (AppiumBase.scroll_to_element (W := empty_surface)
          (X := steady_session "") (Some tt) "id" "Cart" 2%Z))
  = 2%nat.
Proof.
  apply (scroll_to_element_exhaustion (W := empty_surface)
           (X := steady_session "") tt "id" "Cart" 2%Z).
  - exists tt, (1080, 1920)%Z. reflexivity.
  - intros d' t' b. reflexivity.
  - intros d'. exists TimeoutException. reflexivity.
  - intros d' w h. reflexivity.
Defined.

(** ** Page source, closing and initialising the driver *)

Section SessionFacts.

Context {D E : Type} {W : WebDriver D E} {X : AppiumBase.Session D}.

(** X6: [get_page_source] returns only the page source the driver
    reports, unchanged, and only when it has at least 50 characters; every
    failure, whatever the driver raised, is a [WebDriverException] whose
    message is [Driver not initialized] (no driver) or starts with
    [Page source retrieval failed: ]. *)
Theorem get_page_source_contract
  (str_exn : exn -> string) (driver : option D) :
  let res := snd (AppiumBase.get_page_source str_exn driver) in
  (forall src : string,
     res = Ok src ->
     (50 <= List.length (chars src))%nat /\
     exists d d1 : D,
       driver = Some d /\ AppiumBase.page_source d = (d1, Ok src)) /\
  (forall x : exn,
     res = Raise x ->
     (driver = None /\ x = WebDriverException "Driver not initialized") \/
     (exists cause : exn,
        x = WebDriverException
              ("Page source retrieval failed: " ++ str_exn cause))) /\
  (forall (d d1 : D) (src : string),
     driver = Some d ->
     AppiumBase.page_source d = (d1, Ok src) ->
     (50 <= List.length (chars src))%nat ->
     res = Ok src).
Proof.
  unfold AppiumBase.get_page_source.
  destruct driver as [d|]; cbn zeta.
  - destruct (AppiumBase.page_source d) as [d1 [src|e]] eqn:Hsrc.
    + destruct (String.eqb src "") eqn:Hempty.
      * apply String.eqb_eq in Hempty. subst src. cbn.
        split; [intros src' Hs; discriminate Hs|].
        split.
        -- intros x Hx. right. eexists. injection Hx as <-. reflexivity.
        -- intros d' d1' src' Hd Hp Hlen. injection Hd as <-.
           rewrite Hsrc in Hp. injection Hp as _ <-. cbn in Hlen. lia.
      * cbn [orb].
        destruct (Z.of_nat (List.length (chars src)) <? 50)%Z eqn:Hshort.
        -- apply Z.ltb_lt in Hshort. cbn [snd].
           split; [intros src' Hs; discriminate Hs|].
           split.
           ++ intros x Hx. right. eexists. injection Hx as <-. reflexivity.
           ++ intros d' d1' src' Hd Hp Hlen. injection Hd as <-.
              rewrite Hsrc in Hp. injection Hp as _ <-. lia.
        -- apply Z.ltb_ge in Hshort. cbn [snd].
           split.
           ++ intros src' Hs. apply Ok_inj in Hs. subst src'.
              split; [lia|]. exists d, d1. auto.
           ++ split; [intros x Hx; discriminate Hx|].
              intros d' d1' src' Hd Hp Hlen. injection Hd as <-.
              rewrite Hsrc in Hp. injection Hp as _ <-. reflexivity.
    + cbn [snd]. split; [intros src' Hs; discriminate Hs|].
      split.
      * intros x Hx. right. exists e. injection Hx as <-. reflexivity.
      * intros d' d1' src' Hd Hp Hlen. injection Hd as <-.
        rewrite Hsrc in Hp. discriminate Hp.
  - cbn [snd]. split; [intros src' Hs; discriminate Hs|].
    split.
    + intros x Hx. left. split; [reflexivity|]. congruence.
    + intros d' d1' src' Hd. discriminate Hd.
Qed.

(** X7: after [close_driver] the driver field is empty whether or not
    [quit] raised, the success is audited only when [quit] returned, and
    the methods that need a driver then do nothing:
    [find_element_safe] and [scroll_to_element] return [None] without a
    lookup, [get_page_source] raises [Driver not initialized]. *)
Theorem close_driver_leaves_no_driver
  (str_exn : exn -> string) (driver : option D) (s v : string)
  (t : option Z) (max_scrolls : Z) :
  let closed := fst (AppiumBase.close_driver driver) in
  closed = None /\
  (snd (AppiumBase.close_driver driver) = [("driver_closure", "SUCCESS")] <->
   exists d : D, driver = Some d /\ AppiumBase.quit d = Ok tt) /\
  outcome (find_element_safe closed s v t) = Ok None /\
  trace (find_element_safe closed s v t) = [] /\
  AppiumBase.scroll_outcome
    (AppiumBase.scroll_to_element closed s v max_scrolls) = Ok None /\
  snd (AppiumBase.get_page_source str_exn closed)
  = Raise (WebDriverException "Driver not initialized").
Proof.
  unfold AppiumBase.close_driver.
  destruct driver as [d|].
  - destruct (AppiumBase.quit d) as [[]|e] eqn:Hquit; cbn.
    + repeat split; auto. intros _. exists d. auto.
    + repeat split; auto; try discriminate.
      intros [d' [Hd Hq]]. injection Hd as <-. rewrite Hquit in Hq.
      discriminate Hq.
  - cbn. repeat split; auto; try discriminate.
    intros [d' [Hd _]]. discriminate Hd.
Qed.

End SessionFacts.

Section InitialisationFacts.

Context {D : Type} {X : AppiumBase.Session D}
        {S : Type} {R : AppiumBase.Server S D}.

Lemma initialize_attempts_facts (str_exn : exn -> string)
  (remaining : nat) (s : S) (driver : option D) (attempt : Z) :
  Z.of_nat remaining = (AppiumBase.MAX_RETRY_ATTEMPTS - attempt)%Z ->
  (0 < remaining)%nat ->
  let r := AppiumBase.initialize_attempts str_exn s driver attempt remaining in
  (1 <= AppiumBase.remote_calls r <= remaining)%nat /\
  AppiumBase.sleeps r
  = backoff attempt (AppiumBase.remote_calls r - 1) /\
  (AppiumBase.returned r = true ->
   AppiumBase.audits r = [("driver_initialization", "SUCCESS")] /\
   exists d : D, AppiumBase.driver_field r = Some d) /\
  (AppiumBase.returned r = false ->
   AppiumBase.remote_calls r = remaining /\
   exists e : exn,
     AppiumBase.audits r
     = [("driver_initialization", ("FAILED: " ++ str_exn e)%string)]).
Proof.
  revert s driver attempt.
  induction remaining as [|k IH]; intros s driver attempt Hrange Hpos; [lia|].
  assert (Hfail : forall (e : exn) (s1 : S) (driver1 driver2 : option D),
            let r := AppiumBase.after_failure str_exn e attempt
                       (AppiumBase.initialize_attempts str_exn s1 driver1
                          (attempt + 1)%Z k) s1 driver2 in
            (1 <= AppiumBase.remote_calls r <= Datatypes.S k)%nat /\
            AppiumBase.sleeps r
            = backoff attempt (AppiumBase.remote_calls r - 1) /\
            (AppiumBase.returned r = true ->
             AppiumBase.audits r = [("driver_initialization", "SUCCESS")] /\
             exists d : D, AppiumBase.driver_field r = Some d) /\
            (AppiumBase.returned r = false ->
             AppiumBase.remote_calls r = Datatypes.S k /\
             exists e' : exn,
               AppiumBase.audits r
               = [("driver_initialization",
                   ("FAILED: " ++ str_exn e')%string)])).
  { intros e s1 driver1 driver2. unfold AppiumBase.after_failure.
    destruct (attempt <? AppiumBase.MAX_RETRY_ATTEMPTS - 1)%Z eqn:Hlt.
    - apply Z.ltb_lt in Hlt.
      assert (Hrange' : Z.of_nat k
                        = (AppiumBase.MAX_RETRY_ATTEMPTS - (attempt + 1))%Z)
        by lia.
      assert (Hpos' : (0 < k)%nat) by lia.
      destruct (IH s1 driver1 (attempt + 1)%Z Hrange' Hpos')
        as [Hcalls [Hsleeps [Htrue Hfalse]]].
      cbn [AppiumBase.remote_calls AppiumBase.sleeps AppiumBase.audits
           AppiumBase.returned AppiumBase.driver_field].
      split; [lia|]. split.
      + rewrite Hsleeps.
        replace (Datatypes.S
                   (AppiumBase.remote_calls
                      (AppiumBase.initialize_attempts str_exn s1 driver1
                         (attempt + 1) k)) - 1)%nat
          with (Datatypes.S
                  (AppiumBase.remote_calls
                     (AppiumBase.initialize_attempts str_exn s1 driver1
                        (attempt + 1) k) - 1)) by lia.
        reflexivity.
      + split; [exact Htrue|]. intros Hret.
        destruct (Hfalse Hret) as [Hn Haudit]. split; [lia | exact Haudit].
    - apply Z.ltb_ge in Hlt. assert (Hk : k = 0%nat) by lia. subst k.
      cbn. repeat split; try lia; try discriminate. exists e. reflexivity. }
  cbn [AppiumBase.initialize_attempts].
  destruct (AppiumBase.remote s) as [s1 [d|e]]; [|apply Hfail].
  destruct (AppiumBase.session_id d); cbn [negb]; [|apply Hfail].
  destruct (AppiumBase.page_source d) as [d1 [src|e]]; [|apply Hfail].
  destruct (Z.of_nat (List.length (chars src)) <? 100)%Z; [apply Hfail|].
  cbn. repeat split; try lia; try discriminate. exists d1. reflexivity.
Qed.

(** X8: [initialize_driver] asks the server for a session at most three
    times; it sleeps 2 seconds after the first failed attempt and 4 after
    the second, never after the third; it returns [True] with a driver and
    the audit entry [SUCCESS] as soon as an attempt passes the health
    check, and [False] with an audit entry [FAILED: ...] after exactly
    three failed attempts. *)
Theorem initialize_driver_retries
  (str_exn : exn -> string) (s : S) (driver : option D) :
  let r := AppiumBase.initialize_driver str_exn s driver in
  (1 <= AppiumBase.remote_calls r <= 3)%nat /\
  AppiumBase.sleeps r = firstn (AppiumBase.remote_calls r - 1) [2; 4]%Z /\
  (AppiumBase.returned r = true ->
   AppiumBase.audits r = [("driver_initialization", "SUCCESS")] /\
   exists d : D, AppiumBase.driver_field r = Some d) /\
  (AppiumBase.returned r = false ->
   AppiumBase.remote_calls r = 3%nat /\
   AppiumBase.sleeps r = [2; 4]%Z /\
   exists e : exn,
     AppiumBase.audits r
     = [("driver_initialization", ("FAILED: " ++ str_exn e)%string)]).
Proof.
  unfold AppiumBase.initialize_driver.
  pose proof (initialize_attempts_facts str_exn
                (Z.to_nat AppiumBase.MAX_RETRY_ATTEMPTS) s driver 0%Z
                eq_refl ltac:(cbn; lia)) as Hfacts.
  cbv zeta in Hfacts |- *.
  set (r := AppiumBase.initialize_attempts str_exn s driver 0
              (Z.to_nat AppiumBase.MAX_RETRY_ATTEMPTS)) in *.
  destruct Hfacts as [Hcalls [Hsleeps [Htrue Hfalse]]].
  change (Z.to_nat AppiumBase.MAX_RETRY_ATTEMPTS) with 3%nat in Hcalls, Hfalse.
  assert (Hprefix : AppiumBase.sleeps r
                    = firstn (AppiumBase.remote_calls r - 1) [2; 4]%Z).
  { rewrite Hsleeps.
    destruct (AppiumBase.remote_calls r) as [|[|[|[|n]]]]; try lia;
      reflexivity. }
  split; [exact Hcalls|]. split; [exact Hprefix|]. split; [exact Htrue|].
  intros Hret. destruct (Hfalse Hret) as [Hn Haudit].
  split; [exact Hn|]. split; [|exact Haudit].
  rewrite Hprefix, Hn. reflexivity.
Qed.

(** The loop when every session the server creates lacks a session id. *)
Lemma initialize_attempts_idless (str_exn : exn -> string)
  (remaining : nat) (s : S) (driver : option D) (attempt : Z) :
  Z.of_nat remaining = (AppiumBase.MAX_RETRY_ATTEMPTS - attempt)%Z ->
  (0 < remaining)%nat ->
  (forall s0 : S,
     exists (s1 : S) (d : D),
       AppiumBase.remote s0 = (s1, Ok d) /\ AppiumBase.session_id d = false) ->
  let r := AppiumBase.initialize_attempts str_exn s driver attempt remaining in
  AppiumBase.returned r = false /\
  exists d : D,
    AppiumBase.driver_field r = Some d /\ AppiumBase.session_id d = false.
Proof.
  intros Hrange Hpos Hidless. revert s driver attempt Hrange Hpos.
  induction remaining as [|k IH]; intros s driver attempt Hrange Hpos; [lia|].
  cbn [AppiumBase.initialize_attempts].
  destruct (Hidless s) as [s1 [d [Hremote Hid]]].
  rewrite Hremote, Hid. cbn [negb].
  unfold AppiumBase.after_failure.
  destruct (attempt <? AppiumBase.MAX_RETRY_ATTEMPTS - 1)%Z eqn:Hlt.
  - apply Z.ltb_lt in Hlt.
    destruct (IH s1 (Some d) (attempt + 1)%Z ltac:(lia) ltac:(lia))
      as [Hret Hdriver].
    cbn [AppiumBase.returned AppiumBase.driver_field]. auto.
  - cbn. split; [reflexivity|]. exists d. auto.
Qed.

(** X9: when every session the server creates fails the health check for
    lack of a session id, [initialize_driver] returns [False] after three
    attempts, and yet leaves such a session in the driver field: a later
    [find_element_safe] does not return [None] for want of a driver. *)
Theorem initialize_driver_keeps_unhealthy_session
  (str_exn : exn -> string) (s : S) (driver : option D) :
  (forall s0 : S,
     exists (s1 : S) (d : D),
       AppiumBase.remote s0 = (s1, Ok d) /\ AppiumBase.session_id d = false) ->
  let r := AppiumBase.initialize_driver str_exn s driver in
  AppiumBase.returned r = false /\
  AppiumBase.remote_calls r = 3%nat /\
  exists d : D,
    AppiumBase.driver_field r = Some d /\ AppiumBase.session_id d = false.
Proof.
  intros Hidless r.
  destruct (initialize_attempts_idless str_exn
              (Z.to_nat AppiumBase.MAX_RETRY_ATTEMPTS) s driver 0%Z
              eq_refl ltac:(cbn; lia) Hidless) as [Hret Hdriver].
  fold (AppiumBase.initialize_driver str_exn s driver) in Hret, Hdriver.
  fold r in Hret, Hdriver.
  split; [exact Hret|]. split; [|exact Hdriver].
  destruct (initialize_attempts_facts str_exn
              (Z.to_nat AppiumBase.MAX_RETRY_ATTEMPTS) s driver 0%Z
              eq_refl ltac:(cbn; lia)) as [_ [_ [_ Hfalse]]].
  fold (AppiumBase.initialize_driver str_exn s driver) in Hfalse.
  fold r in Hfalse. exact (proj1 (Hfalse Hret)).
Qed.

End InitialisationFacts.

Lemma initialize_driver_keeps_unhealthy_session_witness :
  AppiumBase.returned
    (AppiumBase.initialize_driver (X := idless_session) (R := willing_server)
       plain_message tt None) = false /\
  AppiumBase.remote_calls
    (AppiumBase.initialize_driver (X := idless_session) (R := willing_server)
       plain_message tt None) = 3%nat /\
  exists d : unit,
    AppiumBase.driver_field
      (AppiumBase.initialize_driver (X := idless_session) (R := willing_server)
         plain_message tt None) = Some d /\
    AppiumBase.session_id (Session := idless_session) d = false.
Proof.
  apply (initialize_driver_keeps_unhealthy_session (X := idless_session)
           (R := willing_server) plain_message tt None).
  intros []. exists tt, tt. split; reflexivity.
Defined.

(** ** The API key in the log *)

Lemma ascii_not_continuation (c : ascii) :
  (nat_of_ascii c <? 128)%nat = true -> is_continuation c = false.
Proof.
  intros Hc. apply Nat.ltb_lt in Hc. unfold is_continuation.
  destruct (128 <=? nat_of_ascii c)%nat eqn:Hge; [|reflexivity].
  apply Nat.leb_le in Hge. lia.
Qed.

(** The characters of an ASCII string are its bytes. *)
Lemma chars_ascii (s : string) :
  ascii_only s = true ->
  chars s = map (fun c => String c EmptyString) (list_ascii_of_string s).
Proof.
  induction s as [|c rest IH]; [reflexivity|].
  cbn [ascii_only]. intros Hs. apply andb_true_iff in Hs as [Hc Hrest].
  cbn [chars list_ascii_of_string map]. rewrite (IH Hrest).
  destruct rest as [|c' rest']; [reflexivity|].
  cbn [ascii_only] in Hrest. apply andb_true_iff in Hrest as [Hc' _].
  cbn [starts_with_continuation]. rewrite (ascii_not_continuation c' Hc').
  reflexivity.
Qed.

Lemma chars_ascii_length (s : string) :
  ascii_only s = true -> List.length (chars s) = String.length s.
Proof.
  intros Hs. rewrite (chars_ascii s Hs), length_map.
  clear Hs. induction s as [|c rest IH]; [reflexivity|]. cbn. congruence.
Qed.

Lemma stars_length (n : nat) : String.length (AILocator.stars n) = n.
Proof. induction n as [|k IH]; [reflexivity|]. cbn. congruence. Qed.

Lemma append_length (a b : string) :
  String.length (a ++ b) = (String.length a + String.length b)%nat.
Proof. induction a as [|c a IH]; [reflexivity|]. cbn. congruence. Qed.

(** On an ASCII key the mask is the first two characters followed by one
    star for each further character. *)
Lemma masked_key_ascii (key : string) :
  ascii_only key = true ->
  AILocator.masked_key key
  = (substring 0 2 key ++ AILocator.stars (String.length key - 2))%string.
Proof.
  intros Hkey. unfold AILocator.masked_key.
  rewrite (chars_ascii_length key Hkey), (chars_ascii key Hkey).
  f_equal.
  destruct key as [|c1 [|c2 rest]]; try reflexivity.
  cbn. destruct rest; reflexivity.
Qed.

(** X10: [_setup_ai_model] rejects an unset or empty key and a key that
    starts with [your_] before anything is logged or configured; for an
    accepted ASCII key the only line it logs shows the first two characters
    of the key and a star for each further one, so the line is as long as
    with the key itself, and a key of one or two characters is logged in
    full. *)
Theorem setup_ai_model_masks_key
  {M : Type} (configure : string -> result M) (key : string) :
  let '(log, _, res) := AILocator._setup_ai_model configure (Some key) in
  (key = "" \/ prefix "your_" key = true ->
   log = [] /\
   res = Raise (ValueError "GEMINI_API_KEY not configured properly")) /\
  (key <> "" -> prefix "your_" key = false -> ascii_only key = true ->
   log = [("Gemini API configured with key: " ++ substring 0 2 key
           ++ AILocator.stars (String.length key - 2))%string] /\
   res = configure key /\
   (2 <= String.length key ->
    String.length (AILocator.masked_key key) = String.length key)%nat /\
   (String.length key <= 2 -> AILocator.masked_key key = key)%nat).
Proof.
  unfold AILocator._setup_ai_model.
  destruct (String.eqb key "") eqn:Hempty.
  - apply String.eqb_eq in Hempty. cbn. split; [auto|]. intros Hne. contradiction.
  - apply String.eqb_neq in Hempty. cbn [orb].
    destruct (prefix "your_" key) eqn:Hprefix.
    + split; [auto|]. intros _ Hp. discriminate Hp.
    + assert (Hfacts : ascii_only key = true ->
                (2 <= String.length key ->
                 String.length (AILocator.masked_key key) = String.length key)%nat /\
                (String.length key <= 2 -> AILocator.masked_key key = key)%nat).
      { intros Hascii. rewrite (masked_key_ascii key Hascii). split.
        - intros Hlen. rewrite append_length, stars_length.
          destruct key as [|c1 [|c2 rest]]; cbn in Hlen |- *; try lia.
          destruct rest; cbn; lia.
        - intros Hlen.
          destruct key as [|c1 [|c2 [|c3 rest]]]; cbn in Hlen |- *;
            try reflexivity; lia. }
      destruct (configure key) as [model|e] eqn:Hconf.
      * split; [intros [H|H]; [contradiction | discriminate H]|].
        intros _ _ Hascii. rewrite (masked_key_ascii key Hascii).
        split; [reflexivity|]. split; [reflexivity|].
        rewrite <- (masked_key_ascii key Hascii). exact (Hfacts Hascii).
      * split; [intros [H|H]; [contradiction | discriminate H]|].
        intros _ _ Hascii. rewrite (masked_key_ascii key Hascii).
        split; [reflexivity|]. split; [reflexivity|].
        rewrite <- (masked_key_ascii key Hascii). exact (Hfacts Hascii).
Qed.

Example masked_key_sample :
  AILocator.masked_key "AIzaSyExample" = "AI***********".
Proof. reflexivity. Qed.

(** ** Script validation *)

Lemma check_imports_spec (names : list string) (script_content : string)
  (v : ScriptGenerator.validation_result) :
  ScriptGenerator.check_imports names script_content v
  = ScriptGenerator.mkValidation (ScriptGenerator.is_valid v)
      (ScriptGenerator.issues v
       ++ map (fun imp => ("Missing import: " ++ imp)%string)
              (missing names script_content))
      (ScriptGenerator.warnings v)
      (ScriptGenerator.score v
       - 10 * Z.of_nat (List.length (missing names script_content))).
Proof.
  revert v. induction names as [|imp rest IH]; intros v.
  - cbn. rewrite app_nil_r. destruct v; cbn. f_equal. lia.
  - cbn [ScriptGenerator.check_imports missing filter].
    fold (missing rest script_content). rewrite IH.
    destruct (contains imp script_content); cbn [negb]; [reflexivity|].
    cbn [ScriptGenerator.is_valid ScriptGenerator.issues
         ScriptGenerator.warnings ScriptGenerator.score map List.length].
    rewrite <- app_assoc. f_equal. lia.
Qed.

Lemma check_warnings_spec (label : string) (names : list string)
  (script_content : string) (v : ScriptGenerator.validation_result) :
  ScriptGenerator.check_warnings label names script_content v
  = ScriptGenerator.mkValidation (ScriptGenerator.is_valid v)
      (ScriptGenerator.issues v)
      (ScriptGenerator.warnings v
       ++ map (fun name => (label ++ name)%string)
              (missing names script_content))
      (ScriptGenerator.score v
       - 5 * Z.of_nat (List.length (missing names script_content))).
Proof.
  revert v. induction names as [|name rest IH]; intros v.
  - cbn. rewrite app_nil_r. destruct v; cbn. f_equal. lia.
  - cbn [ScriptGenerator.check_warnings missing filter].
    fold (missing rest script_content). rewrite IH.
    destruct (contains name script_content); cbn [negb]; [reflexivity|].
    cbn [ScriptGenerator.is_valid ScriptGenerator.issues
         ScriptGenerator.warnings ScriptGenerator.score map List.length].
    rewrite <- app_assoc. f_equal. lia.
Qed.

Lemma missing_length (names : list string) (script_content : string) :
  (List.length (missing names script_content) <= List.length names)%nat.
Proof. apply filter_length_le. Qed.

(** The score and the verdict in closed form. *)
Lemma validate_generated_script_closed_form (script_content : string) :
  let v := ScriptGenerator.validate_generated_script script_content in
  ScriptGenerator.score v = (100 - penalty script_content)%Z /\
  ScriptGenerator.is_valid v = (70 <=? ScriptGenerator.score v)%Z.
Proof.
  unfold ScriptGenerator.validate_generated_script.
  rewrite check_imports_spec, !check_warnings_spec.
  cbn [ScriptGenerator.is_valid ScriptGenerator.issues
       ScriptGenerator.warnings ScriptGenerator.score app].
  unfold penalty. fold (too_short script_content).
  destruct (too_short script_content);
    cbn [ScriptGenerator.is_valid ScriptGenerator.issues
         ScriptGenerator.warnings ScriptGenerator.score];
    match goal with
    | |- context [(?sc <? 70)%Z] => destruct (sc <? 70)%Z eqn:Hlow
    end;
    cbn [ScriptGenerator.is_valid ScriptGenerator.issues
         ScriptGenerator.warnings ScriptGenerator.score];
    try apply Z.ltb_lt in Hlow; try apply Z.ltb_ge in Hlow;
    (split; [lia|]);
    symmetry; first [apply Z.leb_le; lia | apply Z.leb_gt; lia].
Qed.

(** X11: the score [validate_generated_script] gives is 100 minus 10 for
    each missing import, 5 for each missing function or feature and 20 for
    a script under 300 characters; it lies between -10 and 100; the script
    is valid exactly when the score is at least 70; and the issues and
    warnings list what is missing, in the order of the checks. *)
Theorem validate_generated_script_score (script_content : string) :
  let v := ScriptGenerator.validate_generated_script script_content in
  ScriptGenerator.score v = (100 - penalty script_content)%Z /\
  (-10 <= ScriptGenerator.score v <= 100)%Z /\
  ScriptGenerator.is_valid v = (70 <=? ScriptGenerator.score v)%Z /\
  ScriptGenerator.issues v
  = map (fun imp => ("Missing import: " ++ imp)%string)
        (missing ScriptGenerator.required_imports script_content)
    ++ (if too_short script_content
        then ["Script too short for comprehensive flows"] else []) /\
  ScriptGenerator.warnings v
  = map (fun name => ("Missing function: " ++ name)%string)
        (missing ScriptGenerator.required_functions script_content)
    ++ map (fun name => ("Missing feature: " ++ name)%string)
           (missing ScriptGenerator.required_features script_content).
Proof.
  unfold ScriptGenerator.validate_generated_script.
  rewrite check_imports_spec, !check_warnings_spec.
  cbn [ScriptGenerator.is_valid ScriptGenerator.issues
       ScriptGenerator.warnings ScriptGenerator.score app].
  pose proof (missing_length ScriptGenerator.required_imports script_content)
    as Hi.
  pose proof (missing_length ScriptGenerator.required_functions script_content)
    as Hf.
  pose proof (missing_length ScriptGenerator.required_features script_content)
    as Hg.
  cbn [ScriptGenerator.required_imports ScriptGenerator.required_functions
       ScriptGenerator.required_features List.length] in Hi, Hf, Hg.
  unfold penalty. fold (too_short script_content).
  set (i := List.length (missing ScriptGenerator.required_imports
                           script_content)) in *.
  set (f := List.length (missing ScriptGenerator.required_functions
                           script_content)) in *.
  set (g := List.length (missing ScriptGenerator.required_features
                           script_content)) in *.
  destruct (too_short script_content);
    cbn [ScriptGenerator.is_valid ScriptGenerator.issues
         ScriptGenerator.warnings ScriptGenerator.score];
    match goal with
    | |- context [(?sc <? 70)%Z] => destruct (sc <? 70)%Z eqn:Hlow
    end;
    cbn [ScriptGenerator.is_valid ScriptGenerator.issues
         ScriptGenerator.warnings ScriptGenerator.score];
    try apply Z.ltb_lt in Hlow; try apply Z.ltb_ge in Hlow;
    rewrite ?app_nil_r;
    (split; [lia|]); (split; [lia|]);
    (split; [symmetry; first [apply Z.leb_le; lia | apply Z.leb_gt; lia]|]);
    split; reflexivity.
Qed.

(** X12: a script gets the full score 100 exactly when it contains each
    of the fifteen required names and has at least 300 characters; and it
    is valid exactly when what it misses weighs at most 30 (10 for an
    import, 5 for a function or feature, 20 for being short). *)
Theorem validate_generated_script_validity (script_content : string) :
  let v := ScriptGenerator.validate_generated_script script_content in
  (ScriptGenerator.score v = 100%Z <->
   (forall name : string,
      In name (ScriptGenerator.required_imports
               ++ ScriptGenerator.required_functions
               ++ ScriptGenerator.required_features) ->
      contains name script_content = true) /\
   (300 <= List.length (chars script_content))%nat) /\
  (ScriptGenerator.is_valid v = true <-> (penalty script_content <= 30)%Z).
Proof.
  intros v.
  destruct (validate_generated_script_closed_form script_content)
    as [Hscore Hvalid].
  fold v in Hscore, Hvalid.
  split.
  - rewrite Hscore. unfold penalty, too_short.
    assert (Hnone : forall names : list string,
              List.length (missing names script_content) = 0%nat <->
              (forall name, In name names ->
                            contains name script_content = true)).
    { intros names. unfold missing. induction names as [|n rest IH].
      - cbn. split; [intros _ name []|reflexivity].
      - cbn [filter]. destruct (contains n script_content) eqn:Hn; cbn [negb].
        + rewrite IH. split.
          * intros Hall name [<-|Hin]; [exact Hn | exact (Hall name Hin)].
          * intros Hall name Hin. apply Hall. right. exact Hin.
        + cbn. split; [discriminate|].
          intros Hall. rewrite (Hall n (or_introl eq_refl)) in Hn.
          discriminate Hn. }
    pose proof (Hnone ScriptGenerator.required_imports) as H1.
    pose proof (Hnone ScriptGenerator.required_functions) as H2.
    pose proof (Hnone ScriptGenerator.required_features) as H3.
    destruct (Z.of_nat (List.length (chars script_content)) <? 300)%Z eqn:Hs;
      [apply Z.ltb_lt in Hs | apply Z.ltb_ge in Hs].
    + split; [lia|]. intros [_ Hlen]. lia.
    + split.
      * intros Hsum. split; [|lia].
        intros name Hin. apply in_app_or in Hin as [Hin|Hin];
          [|apply in_app_or in Hin as [Hin|Hin]];
          [apply H1 | apply H2 | apply H3]; try exact Hin; lia.
      * intros [Hall _].
        assert (E1 : List.length (missing ScriptGenerator.required_imports
                                    script_content) = 0%nat).
        { apply H1. intros name Hin. apply Hall. apply in_or_app. left.
          exact Hin. }
        assert (E2 : List.length (missing ScriptGenerator.required_functions
                                    script_content) = 0%nat).
        { apply H2. intros name Hin. apply Hall. apply in_or_app. right.
          apply in_or_app. left. exact Hin. }
        assert (E3 : List.length (missing ScriptGenerator.required_features
                                    script_content) = 0%nat).
        { apply H3. intros name Hin. apply Hall. apply in_or_app. right.
          apply in_or_app. right. exact Hin. }
        rewrite E1, E2, E3. reflexivity.
  - rewrite Hvalid, Hscore. rewrite Z.leb_le. lia.
Qed.

(** ** Records of the single-element analysis *)

(** What a returned record was read from. *)
Lemma analyze_element_fields
  (lib : Libs) (self : AILocatorGenerator) (target context : string)
  (page_source : option string) (r : LocatorAnalysis) :
  analyze_element lib self target context page_source = Ok r ->
  exists (items : list (string * value)) (src : string),
    _validate_generated_locator self (PDict items) = Ok true /\
    lookup "element_name" items = Some (element_name r) /\
    lookup "element_type" items = Some (element_type r) /\
    lookup "primary_locator" items = Some (primary_locator r) /\
    get (PDict items) "suggested_actions" (PList []) = Ok (suggested_actions r) /\
    get (PDict items) "screen_context" (PStr context) = Ok (screen_context r) /\
    _assess_locator_quality (primary_locator r) = Ok (quality_score r) /\
    _calculate_confidence (PDict items) src = Ok (confidence r).
Proof.
  unfold analyze_element. intros Hr.
  bind_inv Hr src Hsrc. bind_inv Hr text Htext.
  destruct (String.eqb text ""); [discriminate Hr|].
  bind_inv Hr json_text Hjson. bind_inv Hr locator_data Hdata.
  bind_inv Hr valid Hvalid.
  destruct valid; [|discriminate Hr]. cbn [negb] in Hr.
  bind_inv Hr primary Hprimary. bind_inv Hr quality Hquality.
  bind_inv Hr conf Hconf. bind_inv Hr f_name Hname.
  bind_inv Hr f_primary Hprimary'. bind_inv Hr f_fallbacks Hfallbacks.
  bind_inv Hr f_type Htype. bind_inv Hr f_actions Hactions.
  bind_inv Hr f_text Hvtext. bind_inv Hr f_context Hcontext.
  bind_inv Hr f_info Hinfo.
  apply Ok_inj in Hr. subst r.
  cbn [primary_locator element_type element_name suggested_actions
       screen_context quality_score confidence].
  destruct locator_data as [| | | | | |items]; try discriminate Hprimary.
  exists items, src.
  rewrite Hprimary in Hprimary'. apply Ok_inj in Hprimary'. subst f_primary.
  unfold getitem in Hname, Htype, Hprimary.
  destruct (lookup "element_name" items); [|discriminate Hname].
  destruct (lookup "element_type" items); [|discriminate Htype].
  destruct (lookup "primary_locator" items); [|discriminate Hprimary].
  apply Ok_inj in Hname, Htype, Hprimary. subst.
  repeat split; assumption.
Qed.

(** The rules of the validator, read on a record. *)
Lemma analyze_element_rules
  (lib : Libs) (self : AILocatorGenerator) (target context : string)
  (page_source : option string) (r : LocatorAnalysis) :
  analyze_element lib self target context page_source = Ok r ->
  record_strategy_known self r /\
  in_strs (element_type r) (element_types self) = true /\
  record_actions_known self r.
Proof.
  intros Hr.
  destruct (analyze_element_fields _ _ _ _ _ _ Hr)
    as [items [src [Hvalid [Hname [Htype [Hprimary [Hactions _]]]]]]].
  rewrite validate_object in Hvalid. apply Ok_inj in Hvalid.
  apply andb_true_iff in Hvalid as [Hvalid Hact].
  apply andb_true_iff in Hvalid as [Hvalid Hty].
  apply andb_true_iff in Hvalid as [_ Hstrat].
  unfold strategy_known in Hstrat. rewrite Hprimary in Hstrat.
  unfold type_known in Hty. rewrite Htype in Hty.
  unfold actions_known in Hact. unfold get in Hactions.
  split; [|split].
  - unfold record_strategy_known.
    destruct (getitem (primary_locator r) "strategy") as [s|e];
      [|discriminate Hstrat].
    exists s. split; [reflexivity | exact Hstrat].
  - exact Hty.
  - unfold record_actions_known.
    destruct (lookup "suggested_actions" items) as [actions|].
    + apply Ok_inj in Hactions. subst actions.
      destruct (iter (suggested_actions r)) as [entries|e];
        [|discriminate Hact].
      exists entries. split; [reflexivity|].
      intros a Ha. rewrite forallb_forall in Hact. exact (Hact a Ha).
    + apply Ok_inj in Hactions. rewrite <- Hactions.
      exists []. split; [reflexivity|]. intros a [].
Qed.

(** X13: every record [analyze_element] returns is within the schema and
    consistently rated: the strategy of its primary locator is a supported
    strategy, its element type is a known element type, each of its
    suggested actions is a supported action, its quality score is the tier
    [_assess_locator_quality] gives its primary locator, and its confidence
    lies between 0.5 and 1. *)
Theorem analyze_element_record_in_schema
  (lib : Libs) (self : AILocatorGenerator) (target context : string)
  (page_source : option string) (r : LocatorAnalysis) :
  analyze_element lib self target context page_source = Ok r ->
  record_strategy_known self r /\
  in_strs (element_type r) (element_types self) = true /\
  record_actions_known self r /\
  _assess_locator_quality (primary_locator r) = Ok (quality_score r) /\
  0.5 <= confidence r <= 1.
Proof.
  intros Hr.
  destruct (analyze_element_rules _ _ _ _ _ _ Hr) as [Hs [Ht Ha]].
  destruct (analyze_element_fields _ _ _ _ _ _ Hr)
    as [items [src [_ [_ [_ [_ [_ [_ [Hquality Hconf]]]]]]]]].
  repeat split; try assumption; apply (confidence_range _ _ _ Hconf).
Qed.

(** The reply [reply] under [login_libs], with the page source given. *)
Lemma analyze_element_record_in_schema_witness :
  exists r : LocatorAnalysis,
    analyze_element login_libs replying_generator "login_button"
      "login_screen" (Some "<hierarchy/>") = Ok r /\
    record_strategy_known replying_generator r /\
    in_strs (element_type r) (element_types replying_generator) = true /\
    record_actions_known replying_generator r /\
    _assess_locator_quality (primary_locator r) = Ok (quality_score r) /\
    0.5 <= confidence r <= 1.
Proof.
  eexists. split; [vm_compute; reflexivity|].
  apply (analyze_element_record_in_schema login_libs replying_generator
           "login_button" "login_screen" (Some "<hierarchy/>")).
  vm_compute. reflexivity.
Defined.

(** ** Saved locators *)

Lemma lookup_store_same {A : Type} (key : string) (v : A)
  (items : list (string * A)) (f : A -> value) :
  lookup key (map (fun kv => (fst kv, f (snd kv))) (store key v items))
  = Some (f v).
Proof.
  induction items as [|[k w] rest IH]; cbn.
  - rewrite String.eqb_refl. reflexivity.
  - destruct (String.eqb k key) eqn:Hk; cbn; rewrite Hk; [reflexivity|].
    exact IH.
Qed.

Lemma lookup_store (key name : string) (v : value)
  (items : list (string * value)) :
  lookup name (store key v items)
  = if String.eqb key name then Some v else lookup name items.
Proof.
  induction items as [|[k w] rest IH]; cbn [store lookup].
  - reflexivity.
  - destruct (String.eqb k key) eqn:Hk; cbn [lookup].
    + apply String.eqb_eq in Hk. subst k.
      destruct (String.eqb key name); reflexivity.
    + destruct (String.eqb k name) eqn:Hn; [|exact IH].
      destruct (String.eqb key name) eqn:Hkn; [|reflexivity].
      apply String.eqb_eq in Hn, Hkn. subst. rewrite String.eqb_refl in Hk.
      discriminate Hk.
Qed.

Lemma store_fresh {A : Type} (key : string) (v : A)
  (items : list (string * A)) :
  ~ In key (map fst items) -> store key v items = items ++ [(key, v)].
Proof.
  induction items as [|[k w] rest IH]; cbn [store map fst In app]; intros Hin.
  - reflexivity.
  - destruct (String.eqb k key) eqn:Hk.
    + apply String.eqb_eq in Hk. exfalso. apply Hin. left. exact Hk.
    + rewrite IH; [reflexivity|]. intros H. apply Hin. right. exact H.
Qed.

(** The entries after the loop, read at one name. *)
Lemma element_locators_lookup (lib : Libs)
  (locators : list (string * LocatorAnalysis))
  (entries : list (string * value)) (name : string) :
  lookup name (AILocator.element_locators lib locators entries)
  = match
      lookup name
        (map (fun kv => (fst kv, AILocator.locator_entry lib (snd kv)))
             (rev locators))
    with
    | Some entry => Some entry
    | None => lookup name entries
    end.
Proof.
  revert entries. induction locators as [|[k r] rest IH]; intros entries.
  - reflexivity.
  - cbn [AILocator.element_locators rev]. rewrite IH, map_app.
    cbn [map fst snd].
    set (older := map (fun kv => (fst kv, AILocator.locator_entry lib (snd kv)))
                      (rev rest)).
    assert (Happ : forall a b : list (string * value),
              lookup name (a ++ b)
              = match lookup name a with
                | Some e => Some e
                | None => lookup name b
                end).
    { intros a b. induction a as [|[k' w] a IHa]; [reflexivity|].
      cbn [app lookup]. destruct (String.eqb k' name); [reflexivity|].
      exact IHa. }
    rewrite Happ. destruct (lookup name older); [reflexivity|].
    rewrite lookup_store. cbn [lookup].
    destruct (String.eqb k name); reflexivity.
Qed.

Lemma lookup_in_nodup {A : Type} (f : A -> value) (name : string) (a : A)
  (l : list (string * A)) :
  NoDup (map fst l) -> In (name, a) l ->
  lookup name (map (fun kv => (fst kv, f (snd kv))) l) = Some (f a).
Proof.
  induction l as [|[k w] rest IH]; cbn [map fst snd In lookup];
    intros Hnodup Hin; [contradiction|].
  inversion Hnodup as [|? ? Hfresh Hrest]; subst.
  destruct Hin as [Heq|Hin].
  - injection Heq as -> ->. rewrite String.eqb_refl. reflexivity.
  - destruct (String.eqb k name) eqn:Hk.
    + apply String.eqb_eq in Hk. subst k. exfalso. apply Hfresh.
      apply (in_map fst) in Hin. exact Hin.
    + exact (IH Hrest Hin).
Qed.

Lemma lookup_absent {A : Type} (f : A -> value) (name : string)
  (l : list (string * A)) :
  ~ In name (map fst l) ->
  lookup name (map (fun kv => (fst kv, f (snd kv))) l) = None.
Proof.
  induction l as [|[k w] rest IH]; cbn [map fst snd In lookup]; intros Hin;
    [reflexivity|].
  destruct (String.eqb k name) eqn:Hk.
  - apply String.eqb_eq in Hk. exfalso. apply Hin. left. exact Hk.
  - apply IH. intros H. apply Hin. right. exact H.
Qed.

Lemma element_locators_keys (lib : Libs)
  (locators : list (string * LocatorAnalysis))
  (entries : list (string * value)) :
  NoDup (map fst entries ++ map fst locators) ->
  map fst (AILocator.element_locators lib locators entries)
  = map fst entries ++ map fst locators.
Proof.
  revert entries. induction locators as [|[k r] rest IH]; intros entries Hnodup.
  - cbn. rewrite app_nil_r. reflexivity.
  - cbn [AILocator.element_locators map fst] in *.
    assert (Hfresh : ~ In k (map fst entries)).
    { intros Hin. apply NoDup_remove_2 in Hnodup. apply Hnodup.
      apply in_or_app. left. exact Hin. }
    rewrite (store_fresh k _ entries Hfresh).
    rewrite IH; rewrite map_app; cbn [map fst]; rewrite <- app_assoc;
      [reflexivity | exact Hnodup].
Qed.

(** X14: the document [save_locators_schema_compliant] hands to
    [json.dump] holds, for a dictionary of records (no name twice), one
    entry per record under its name, in the order of the dictionary; an
    entry carries the name, type, primary locator and suggested actions of
    its record, and neither its quality score nor its confidence; a name
    outside the dictionary has no entry. *)
Theorem save_locators_entries
  (lib : Libs) (self : AILocatorGenerator)
  (locators : list (string * LocatorAnalysis)) (test_case_name : string) :
  NoDup (map fst locators) ->
  exists entries : list (string * value),
    getitem (snd (AILocator.save_locators_schema_compliant
                    lib self locators test_case_name)) "element_locators"
    = Ok (PDict entries) /\
    map fst entries = map fst locators /\
    (forall (name : string) (r : LocatorAnalysis),
       In (name, r) locators ->
       exists fields : list (string * value),
         lookup name entries = Some (PDict fields) /\
         lookup "element_name" fields = Some (element_name r) /\
         lookup "element_type" fields = Some (element_type r) /\
         lookup "primary_locator" fields = Some (primary_locator r) /\
         lookup "fallback_locators" fields = Some (fallback_locators r) /\
         lookup "suggested_actions" fields = Some (suggested_actions r) /\
         lookup "quality_score" fields = None /\
         lookup "confidence" fields = None) /\
    (forall name : string,
       ~ In name (map fst locators) -> lookup name entries = None).
Proof.
  intros Hnodup.
  exists (AILocator.element_locators lib locators []).
  split; [reflexivity|]. split; [|split].
  - apply (element_locators_keys lib locators []). exact Hnodup.
  - intros name r Hin. rewrite element_locators_lookup.
    rewrite (lookup_in_nodup (AILocator.locator_entry lib) name r (rev locators)).
    + unfold AILocator.locator_entry. eexists. split; [reflexivity|].
      cbn. repeat split; reflexivity.
    + rewrite map_rev. apply NoDup_rev. exact Hnodup.
    + apply in_rev. rewrite rev_involutive. exact Hin.
  - intros name Hout. rewrite element_locators_lookup.
    rewrite lookup_absent; [reflexivity|].
    rewrite map_rev. intros Hin. apply Hout. apply in_rev. exact Hin.
Qed.

(** X15: what is saved for a record that [analyze_element] returned passes
    [_validate_generated_locator] again: the saved entry keeps the
    required fields, the strategy, the element type and the suggested
    actions the validator accepted. *)
Theorem saved_entry_validates
  (lib : Libs) (self : AILocatorGenerator) (target context : string)
  (page_source : option string) (r : LocatorAnalysis) :
  analyze_element lib self target context page_source = Ok r ->
  _validate_generated_locator self (AILocator.locator_entry lib r) = Ok true.
Proof.
  intros Hr.
  destruct (analyze_element_rules _ _ _ _ _ _ Hr)
    as [[s [Hs Hknown]] [Htype [actions [Hiter Hall]]]].
  unfold AILocator.locator_entry. rewrite validate_object. f_equal.
  unfold required_present, strategy_known, type_known, actions_known.
  cbn [lookup String.eqb Ascii.eqb Bool.eqb].
  rewrite Hs, Hknown, Htype, Hiter. cbn [andb].
  apply forallb_forall. exact Hall.
Qed.

Lemma saved_entry_validates_witness :
  exists r : LocatorAnalysis,
    analyze_element login_libs replying_generator "login_button"
      "login_screen" (Some "<hierarchy/>") = Ok r /\
    _validate_generated_locator replying_generator
      (AILocator.locator_entry login_libs r) = Ok true.
Proof.
  eexists. split; [vm_compute; reflexivity|].
  apply (saved_entry_validates login_libs replying_generator
           "login_button" "login_screen" (Some "<hierarchy/>")).
  vm_compute. reflexivity.
Defined.

Lemma save_locators_entries_witness :
  exists r : LocatorAnalysis,
    analyze_element login_libs replying_generator "login_button"
      "login_screen" (Some "<hierarchy/>") = Ok r /\
    exists entries : list (string * value),
      getitem (snd (AILocator.save_locators_schema_compliant
                      login_libs replying_generator [("login_button", r)]
                      "login")) "element_locators"
      = Ok (PDict entries) /\
      map fst entries = ["login_button"].
Proof.
  eexists. split; [vm_compute; reflexivity|].
  match goal with
  | |- context [AILocator.save_locators_schema_compliant _ _ ?locs _] =>
      destruct (save_locators_entries login_libs replying_generator locs
                  "login") as [entries [Hget [Hkeys _]]]
  end.
  - repeat constructor. intros [].
  - exists entries. split; [exact Hget | exact Hkeys].
Defined.

(** ** Locators for a test case *)

Section TestCaseFacts.

Variable lib : Libs.
Variable self : AILocatorGenerator.
Variable analyze_other : value -> result LocatorAnalysis.
Variable context : string.
Variable page_source : option string.

Lemma key_eqb_str (k : value) (s : string) :
  AILocator.key_eqb k (PStr s) = true -> k = PStr s.
Proof.
  destruct k as [|[]|n|q|t|l|d]; cbn; try discriminate.
  intros H. apply String.eqb_eq in H. congruence.
Qed.

Lemma key_lookup_app (key : value)
  (d e : list (value * LocatorAnalysis)) :
  AILocator.key_lookup key (d ++ e)
  = match AILocator.key_lookup key d with
    | Some r => Some r
    | None => AILocator.key_lookup key e
    end.
Proof.
  induction d as [|[k r] d IH]; [reflexivity|].
  cbn [app AILocator.key_lookup].
  destruct (AILocator.key_eqb k key); [reflexivity | exact IH].
Qed.

Lemma key_store_fresh (key : value) (a : LocatorAnalysis)
  (d : list (value * LocatorAnalysis)) :
  AILocator.key_lookup key d = None ->
  AILocator.key_store key a d = d ++ [(key, a)].
Proof.
  induction d as [|[k r] d IH]; [reflexivity|].
  cbn [AILocator.key_lookup AILocator.key_store app].
  destruct (AILocator.key_eqb k key); [discriminate|].
  intros H. rewrite (IH H). reflexivity.
Qed.

(** On plain steps the loop returns. *)
Lemma locators_of_steps_returns (steps : list value) :
  (forall step : value, In step steps -> plain_step step) ->
  forall acc : list (value * LocatorAnalysis),
    exists locs : list (value * LocatorAnalysis),
      AILocator.locators_of_steps lib self analyze_other context page_source
        steps acc = Ok locs.
Proof.
  induction steps as [|step rest IH]; intros Hplain acc.
  - exists acc. reflexivity.
  - assert (Hrest : forall s : value, In s rest -> plain_step s).
    { intros s Hs. apply Hplain. right. exact Hs. }
    destruct (Hplain step (or_introl eq_refl)) as [items [-> Helement]].
    cbn [AILocator.locators_of_steps get].
    destruct Helement as [Hnone|[name Hname]].
    + rewrite Hnone. cbn [bind truthy]. apply (IH Hrest).
    + rewrite Hname. cbn [bind truthy hashable].
      destruct (negb (String.eqb name "")); [|apply (IH Hrest)].
      destruct (AILocator.key_lookup (PStr name) acc); [apply (IH Hrest)|].
      destruct (AILocator.analyze_target lib self analyze_other (PStr name)
                  context page_source); apply (IH Hrest).
Qed.

End TestCaseFacts.

(** ** Analyses of a test case over a service with state *)

Section ServiceFacts.

Context {M : Type}.
Variable analyse :
  M -> value -> string -> option string -> M * result LocatorAnalysis.
Variable read_source : M -> M * result string.
Variable driver_present : bool.
Variable context : string.

Lemma key_eqb_str_refl (name : string) :
  AILocator.key_eqb (PStr name) (PStr name) = true.
Proof. apply String.eqb_refl. Qed.

Lemma successes_cons (key : value) (outcome : result LocatorAnalysis)
  (calls : list (value * result LocatorAnalysis)) :
  successes ((key, outcome) :: calls)
  = match outcome with
    | Ok r => [(key, r)]
    | Raise _ => []
    end ++ successes calls.
Proof. reflexivity. Qed.

(** A step names [name] exactly when its element is the [str] [name]. *)
Lemma naming_cons (name : string) (step : value) (rest : list value)
  (element : value) :
  get step "element" PNone = Ok element ->
  naming name (step :: rest)
  = if AILocator.key_eqb element (PStr name)
    then step :: naming name rest else naming name rest.
Proof.
  intros Hget. unfold naming. cbn [filter]. rewrite Hget.
  destruct element as [|[]|n|q|t|l|d]; try reflexivity.
Qed.

(** The loop, from any dictionary: it adds the records of the analyses
    that returned; an element with a record is not analysed; an element
    without one is analysed until an analysis returns. *)
Lemma locators_of_steps_in_spec (page_source : option string)
  (steps : list value) :
  forall (m : M) (acc locs : list (value * LocatorAnalysis)),
    let g := AILocator.locators_of_steps_in analyse context page_source
               steps m acc in
    AILocator.generated g = Ok locs ->
    locs = acc ++ successes (AILocator.analyses g) /\
    forall name : string,
      (name = "" -> calls_for name (AILocator.analyses g) = []) /\
      (name <> "" ->
       match AILocator.key_lookup (PStr name) acc with
       | Some _ => calls_for name (AILocator.analyses g) = []
       | None =>
           analysed_until_success name (AILocator.analyses g)
             (List.length (naming name steps)) locs
       end).
Proof.
  induction steps as [|step rest IH]; intros m acc locs g Hrun; subst g.
  - cbn in Hrun |- *. apply Ok_inj in Hrun. subst locs.
    rewrite app_nil_r. split; [reflexivity|].
    intros name. split; [reflexivity|]. intros Hne.
    destruct (AILocator.key_lookup (PStr name) acc) eqn:Hacc; [reflexivity|].
    left. cbn. repeat split; [constructor | exact Hacc].
  - cbn [AILocator.locators_of_steps_in] in Hrun |- *.
    destruct (get step "element" PNone) as [element|e] eqn:Hget;
      [|discriminate Hrun].
    assert (Hskip :
      forall name : string,
        name <> "" ->
        AILocator.key_eqb element (PStr name) = false \/
        (exists r, AILocator.key_lookup (PStr name) acc = Some r) ->
        match AILocator.key_lookup (PStr name) acc with
        | Some _ =>
            calls_for name
              (AILocator.analyses
                 (AILocator.locators_of_steps_in analyse context page_source
                    rest m acc)) = []
        | None =>
            analysed_until_success name
              (AILocator.analyses
                 (AILocator.locators_of_steps_in analyse context page_source
                    rest m acc))
              (List.length (naming name rest)) locs
        end ->
        match AILocator.key_lookup (PStr name) acc with
        | Some _ =>
            calls_for name
              (AILocator.analyses
                 (AILocator.locators_of_steps_in analyse context page_source
                    rest m acc)) = []
        | None =>
            analysed_until_success name
              (AILocator.analyses
                 (AILocator.locators_of_steps_in analyse context page_source
                    rest m acc))
              (List.length (naming name (step :: rest))) locs
        end).
    { intros name Hne Hother H.
      destruct (AILocator.key_lookup (PStr name) acc) eqn:Hacc; [exact H|].
      rewrite (naming_cons name step rest element Hget).
      destruct Hother as [-> | [r Hr]]; [exact H | discriminate Hr]. }
    destruct (truthy element) eqn:Htruthy.
    2:{ destruct (IH m acc locs Hrun) as [Hlocs Hnames].
        split; [exact Hlocs|]. intros name.
        destruct (Hnames name) as [Hempty Hfull].
        split; [exact Hempty|]. intros Hne.
        apply (Hskip name Hne); [|exact (Hfull Hne)].
        left. destruct (AILocator.key_eqb element (PStr name)) eqn:Hk;
          [|reflexivity].
        apply key_eqb_str in Hk. subst element. cbn in Htruthy.
        apply negb_false_iff, String.eqb_eq in Htruthy. contradiction. }
    destruct (hashable element) eqn:Hhash; [|discriminate Hrun].
    destruct (AILocator.key_lookup element acc) as [old|] eqn:Hold.
    { destruct (IH m acc locs Hrun) as [Hlocs Hnames].
      split; [exact Hlocs|]. intros name.
      destruct (Hnames name) as [Hempty Hfull].
      split; [exact Hempty|]. intros Hne.
      apply (Hskip name Hne); [|exact (Hfull Hne)].
      destruct (AILocator.key_eqb element (PStr name)) eqn:Hk;
        [|left; reflexivity].
      apply key_eqb_str in Hk. subst element. right. exists old. exact Hold. }
    destruct (analyse m element context page_source) as [m1 outcome]
      eqn:Hanalyse.
    cbn [AILocator.generated AILocator.analyses] in Hrun |- *.
    assert (Hnot_empty : AILocator.key_eqb element (PStr "") = false).
    { destruct (AILocator.key_eqb element (PStr "")) eqn:Hk; [|reflexivity].
      apply key_eqb_str in Hk. subst element. discriminate Htruthy. }
    destruct outcome as [analysis|e].
    + rewrite (key_store_fresh element analysis acc Hold) in Hrun |- *.
      destruct (IH m1 _ locs Hrun) as [Hlocs Hnames].
      split.
      { rewrite successes_cons, Hlocs, <- app_assoc. reflexivity. }
      intros name. destruct (Hnames name) as [Hempty Hfull].
      unfold calls_for in *. cbn [filter fst].
      split.
      { intros ->. rewrite Hnot_empty. exact (Hempty eq_refl). }
      intros Hne. specialize (Hfull Hne).
      rewrite key_lookup_app in Hfull. cbn [AILocator.key_lookup] in Hfull.
      destruct (AILocator.key_eqb element (PStr name)) eqn:Hk.
      * apply key_eqb_str in Hk. subst element. rewrite Hold in Hfull |- *.
        right. exists [], analysis.
        change (filter (fun c => AILocator.key_eqb (fst c) (PStr name))
                  (AILocator.analyses
                     (AILocator.locators_of_steps_in analyse context
                        page_source rest m1 (acc ++ [(PStr name, analysis)]))))
          with (calls_for name
                  (AILocator.analyses
                     (AILocator.locators_of_steps_in analyse context
                        page_source rest m1 (acc ++ [(PStr name, analysis)]))))
          in Hfull |- *.
        unfold analysed_until_success, calls_for. cbn [filter fst].
        rewrite key_eqb_str_refl. unfold calls_for in Hfull. rewrite Hfull.
        split; [reflexivity|]. split; [constructor|].
        split.
        { rewrite (naming_cons name step rest (PStr name) Hget),
            key_eqb_str_refl. cbn. lia. }
        rewrite Hlocs, key_lookup_app, key_lookup_app, Hold.
        cbn [AILocator.key_lookup]. rewrite key_eqb_str_refl. reflexivity.
      * rewrite (naming_cons name step rest element Hget), Hk.
        destruct (AILocator.key_lookup (PStr name) acc) eqn:Hacc;
          [exact Hfull|].
        unfold analysed_until_success, calls_for in Hfull |- *.
        cbn [filter fst]. rewrite Hk. exact Hfull.
    + destruct (IH m1 acc locs Hrun) as [Hlocs Hnames].
      split.
      { rewrite successes_cons. exact Hlocs. }
      intros name. destruct (Hnames name) as [Hempty Hfull].
      unfold calls_for in *. cbn [filter fst].
      split.
      { intros ->. rewrite Hnot_empty. exact (Hempty eq_refl). }
      intros Hne. specialize (Hfull Hne).
      rewrite (naming_cons name step rest element Hget).
      destruct (AILocator.key_eqb element (PStr name)) eqn:Hk.
      * apply key_eqb_str in Hk. subst element. rewrite Hold in Hfull |- *.
        unfold analysed_until_success, calls_for in Hfull |- *.
        cbn [filter fst List.length]. rewrite key_eqb_str_refl.
        destruct Hfull as [[Hfails [Hlen Hnone]]
                          |[fails [r [Hcalls [Hfails [Hlen Hsome]]]]]].
        -- left. split; [|split].
           ++ constructor; [exists e; reflexivity | exact Hfails].
           ++ cbn [List.length]. rewrite Hlen. reflexivity.
           ++ exact Hnone.
        -- right. exists ((PStr name, Raise e) :: fails), r.
           split; [rewrite Hcalls; reflexivity|].
           split; [constructor; [exists e; reflexivity | exact Hfails]|].
           split; [cbn [List.length]; lia | exact Hsome].
      * destruct (AILocator.key_lookup (PStr name) acc) eqn:Hacc;
          [exact Hfull|].
        unfold analysed_until_success, calls_for in Hfull |- *.
        cbn [filter fst]. rewrite Hk. exact Hfull.
Qed.

(** X16: when [generate_locators_for_test_case] returns, over a model
    service and a session that may answer differently at each call, its
    dictionary holds the records of the analyses that returned, in the
    order of the calls; and an element named by a non-empty [str] is
    analysed at each step that names it until an analysis of it returns,
    and not after: either every step that names it made an analysis that
    failed and it has no record, or the last analysis of it returned its
    record, the ones before failed, and there are no more analyses of it
    than steps that name it.  A step with an empty name makes no
    analysis. *)
Theorem generate_locators_for_test_case_analyses
  (m : M) (test_case : value) (locators : list (value * LocatorAnalysis)) :
  let g := AILocator.generate_locators_for_test_case_in analyse read_source
             driver_present m test_case context in
  AILocator.generated g = Ok locators ->
  exists steps : list value,
    bind (get test_case "steps" (PList [])) iter = Ok steps /\
    locators = successes (AILocator.analyses g) /\
    forall name : string,
      (name = "" -> calls_for name (AILocator.analyses g) = []) /\
      (name <> "" ->
       analysed_until_success name (AILocator.analyses g)
         (List.length (naming name steps)) locators).
Proof.
  intros g Hrun. subst g.
  unfold AILocator.generate_locators_for_test_case_in in *.
  destruct (if driver_present
            then match read_source m with
                 | (m1, Ok src) => (m1, Ok (Some src))
                 | (m1, Raise e) => (m1, Raise e)
                 end
            else (m, Ok None)) as [m1 [source|e]]; [|discriminate Hrun].
  destruct (bind (get test_case "steps" (PList [])) iter) as [steps|e];
    [|discriminate Hrun].
  exists steps. split; [reflexivity|].
  destruct (locators_of_steps_in_spec source steps m1 [] locators Hrun)
    as [Hlocs Hnames].
  split; [exact Hlocs|]. intros name.
  destruct (Hnames name) as [Hempty Hfull].
  split; [exact Hempty|]. intros Hne. exact (Hfull Hne).
Qed.

End ServiceFacts.

(** The test case [login_test_case] over a service that fails on its first
    call: the button is analysed at both steps that name it, and the second
    analysis gives its record. *)
Lemma generate_locators_for_test_case_analyses_witness :
  AILocator.analyses
    (AILocator.generate_locators_for_test_case_in flaky_analyse steady_source
       true 0%nat login_test_case "login_screen")
  = [(PStr "login_button", Raise (Exception "Empty response from Gemini API"));
     (PStr "login_button", Ok login_record)] /\
  exists steps : list value,
    bind (get login_test_case "steps" (PList [])) iter = Ok steps /\
    [(PStr "login_button", login_record)]
    = successes
        (AILocator.analyses
           (AILocator.generate_locators_for_test_case_in flaky_analyse
              steady_source true 0%nat login_test_case "login_screen")) /\
    forall name : string,
      (name = "" ->
       calls_for name
         (AILocator.analyses
            (AILocator.generate_locators_for_test_case_in flaky_analyse
               steady_source true 0%nat login_test_case "login_screen"))
       = []) /\
      (name <> "" ->
       analysed_until_success name
         (AILocator.analyses
            (AILocator.generate_locators_for_test_case_in flaky_analyse
               steady_source true 0%nat login_test_case "login_screen"))
         (List.length (naming name steps))
         [(PStr "login_button", login_record)]).
Proof.
  split; [vm_compute; reflexivity|].
  apply (generate_locators_for_test_case_analyses flaky_analyse steady_source
           true "login_screen" 0%nat login_test_case
           [(PStr "login_button", login_record)]).
  vm_compute. reflexivity.
Defined.

(** With a service that has no state, the run is the one of
    [generate_locators_for_test_case] above. *)
Lemma locators_of_steps_stateless
  (lib : Libs) (self : AILocatorGenerator)
  (analyze_other : value -> result LocatorAnalysis)
  (context : string) (page_source : option string) (steps : list value) :
  forall acc : list (value * LocatorAnalysis),
    AILocator.generated
      (AILocator.locators_of_steps_in
         (fun (m : unit) name c p =>
            (m, AILocator.analyze_target lib self analyze_other name c p))
         context page_source steps tt acc)
    = AILocator.locators_of_steps lib self analyze_other context page_source
        steps acc.
Proof.
  induction steps as [|step rest IH]; intros acc; [reflexivity|].
  cbn [AILocator.locators_of_steps_in AILocator.locators_of_steps].
  destruct (get step "element" PNone) as [element|e]; [|reflexivity].
  cbn [bind].
  destruct (truthy element); [|apply IH].
  destruct (hashable element); [|reflexivity].
  destruct (AILocator.key_lookup element acc); [apply IH|].
  destruct (AILocator.analyze_target lib self analyze_other element context
              page_source); cbn [AILocator.generated]; apply IH.
Qed.

Lemma generate_locators_stateless
  (lib : Libs) (self : AILocatorGenerator)
  (analyze_other : value -> result LocatorAnalysis)
  (test_case : value) (context : string) :
  AILocator.generated
    (AILocator.generate_locators_for_test_case_in
       (fun (m : unit) name c p =>
          (m, AILocator.analyze_target lib self analyze_other name c p))
       (fun m : unit => (m, get_page_source self)) (has_driver self)
       tt test_case context)
  = AILocator.generate_locators_for_test_case lib self analyze_other
      test_case context.
Proof.
  unfold AILocator.generate_locators_for_test_case_in,
    AILocator.generate_locators_for_test_case.
  destruct (has_driver self).
  - destruct (get_page_source self) as [src|e]; [|reflexivity].
    cbn [bind].
    destruct (get test_case "steps" (PList [])) as [v|e]; [|reflexivity].
    cbn [bind]. destruct (iter v) as [steps|e]; [|reflexivity].
    cbn [bind]. apply locators_of_steps_stateless.
  - cbn [bind].
    destruct (get test_case "steps" (PList [])) as [v|e]; [|reflexivity].
    cbn [bind]. destruct (iter v) as [steps|e]; [|reflexivity].
    cbn [bind]. apply locators_of_steps_stateless.
Qed.

Section TestCaseTotality.

Variable lib : Libs.
Variable self : AILocatorGenerator.
Variable analyze_other : value -> result LocatorAnalysis.
Variable context : string.

(** X17: on a test case object whose steps are objects naming their
    element, if any, by a [str], [generate_locators_for_test_case] returns
    whatever the analyses do, provided the page source can be read when
    there is a driver: a failed analysis never ends the call. *)
Theorem generate_locators_for_test_case_returns
  (items : list (string * value)) (steps : list value) :
  source_readable self ->
  steps_of items steps ->
  (forall step : value, In step steps -> plain_step step) ->
  exists locators : list (value * LocatorAnalysis),
    AILocator.generate_locators_for_test_case lib self analyze_other
      (PDict items) context = Ok locators.
Proof.
  intros Hsource Hsteps Hplain.
  unfold AILocator.generate_locators_for_test_case, steps_of, get in *.
  assert (Hiter :
    forall page_source,
    exists locators,
      (steps_value <- match lookup "steps" items with
                      | Some v => Ok v
                      | None => Ok (PList [])
                      end ;;
       steps0 <- iter steps_value ;;
       AILocator.locators_of_steps lib self analyze_other context page_source
         steps0 []) = Ok locators).
  { intros page_source.
    destruct (lookup "steps" items) as [v|]; subst; cbn [bind iter].
    - apply locators_of_steps_returns. exact Hplain.
    - exists []. reflexivity. }
  unfold source_readable in Hsource.
  destruct (has_driver self).
  - destruct (Hsource eq_refl) as [src ->]. cbn [bind]. apply Hiter.
  - cbn [bind]. apply Hiter.
Qed.

(** X18: the handler of [generate_locators_for_test_case] does not cover
    the lookup of the name: a step whose element is a non-empty list,
    reached after plain steps, ends the whole call with [TypeError]
    (unhashable), and the locators found so far are lost. *)
Theorem generate_locators_for_test_case_unhashable
  (items : list (string * value)) (before after : list value) (step : value) :
  source_readable self ->
  lookup "steps" items = Some (PList (before ++ step :: after)) ->
  (forall s : value, In s before -> plain_step s) ->
  list_step step ->
  AILocator.generate_locators_for_test_case lib self analyze_other
    (PDict items) context = Raise TypeError.
Proof.
  intros Hsource Hsteps Hplain [fields [x [l [-> Hlist]]]].
  unfold AILocator.generate_locators_for_test_case, get.
  rewrite Hsteps. clear Hsteps.
  assert (Hloop :
    forall page_source acc,
      AILocator.locators_of_steps lib self analyze_other context page_source
        (before ++ PDict fields :: after) acc = Raise TypeError).
  { intros page_source. induction before as [|s rest IH]; intros acc.
    - cbn [app AILocator.locators_of_steps get]. rewrite Hlist. reflexivity.
    - assert (Hrest : forall s0 : value, In s0 rest -> plain_step s0).
      { intros s0 Hs0. apply Hplain. right. exact Hs0. }
      destruct (Hplain s (or_introl eq_refl)) as [its [-> Helement]].
      cbn [app AILocator.locators_of_steps get].
      destruct Helement as [Hnone|[name Hname]].
      + rewrite Hnone. cbn [bind truthy]. apply (IH Hrest).
      + rewrite Hname. cbn [bind truthy hashable].
        destruct (negb (String.eqb name "")); [|apply (IH Hrest)].
        destruct (AILocator.key_lookup (PStr name) acc); [apply (IH Hrest)|].
        destruct (AILocator.analyze_target lib self analyze_other (PStr name)
                    context page_source); apply (IH Hrest). }
  unfold source_readable in Hsource.
  destruct (has_driver self).
  - destruct (Hsource eq_refl) as [src ->]. cbn [bind iter]. apply Hloop.
  - cbn [bind iter]. apply Hloop.
Qed.

End TestCaseTotality.

Lemma generate_locators_for_test_case_returns_witness :
  exists locators : list (value * LocatorAnalysis),
    AILocator.generate_locators_for_test_case reply_libs replying_generator
      (fun _ => Raise TypeError) login_test_case "login_screen" = Ok locators.
Proof.
  apply (generate_locators_for_test_case_returns reply_libs replying_generator
           (fun _ => Raise TypeError) "login_screen" _
           [PDict [("action", PStr "click"); ("element", PStr "login_button")];
            PDict [("action", PStr "wait")];
            PDict [("action", PStr "verify_text");
                   ("element", PStr "login_button")]]).
  - intros H. discriminate H.
  - reflexivity.
  - intros step [<-|[<-|[<-|[]]]]; eexists; (split; [reflexivity|]).
    + right. exists "login_button". reflexivity.
    + left. reflexivity.
    + right. exists "login_button". reflexivity.
Defined.

Lemma generate_locators_for_test_case_unhashable_witness :
  AILocator.generate_locators_for_test_case login_libs sourced_generator
    (fun _ => Raise TypeError)
    (PDict [("steps",
             PList [PDict [("element", PStr "login_button")];
                    PDict [("element", PList [PStr "a"; PStr "b"])];
                    PDict [("element", PStr "password")]])])
    "login_screen" = Raise TypeError.
Proof.
  apply (generate_locators_for_test_case_unhashable login_libs
           sourced_generator (fun _ => Raise TypeError) "login_screen" _
           [PDict [("element", PStr "login_button")]]
           [PDict [("element", PStr "password")]]
           (PDict [("element", PList [PStr "a"; PStr "b"])])).
  - intros _. exists login_page_source. reflexivity.
  - reflexivity.
  - intros s [<-|[]]. eexists. split; [reflexivity|].
    right. exists "login_button". reflexivity.
  - eexists _, _, _. split; reflexivity.
Defined.

(** ** Records of the whole-screen analysis *)

Lemma in_store {A : Type} (key name : string) (v a : A)
  (items : list (string * A)) :
  In (name, a) (store key v items) -> (name, a) = (key, v) \/ In (name, a) items.
Proof.
  induction items as [|[k w] rest IH]; cbn [store In].
  - intros [H|[]]. left. symmetry. exact H.
  - destruct (String.eqb k key) eqn:Hk; cbn [In].
    + apply String.eqb_eq in Hk. subst k.
      intros [H|H]; [left; symmetry; exact H | right; right; exact H].
    + intros [H|H]; [right; left; exact H|].
      destruct (IH H) as [H'|H']; [left; exact H' | right; right; exact H'].
Qed.

Lemma store_keys {A : Type} (key name : string) (v : A)
  (items : list (string * A)) :
  name = key \/ In name (map fst items) -> In name (map fst (store key v items)).
Proof.
  induction items as [|[k w] rest IH]; cbn [store map fst In].
  - intros [H|[]]. left. symmetry. exact H.
  - destruct (String.eqb k key) eqn:Hk; cbn [map fst In].
    + apply String.eqb_eq in Hk. subst k.
      intros [H|[H|H]]; [left; symmetry; exact H | left; exact H
                        | right; exact H].
    + intros [H|[H|H]]; [right; apply IH; left; exact H | left; exact H
                        | right; apply IH; right; exact H].
Qed.

(** A record of the whole-screen loop: its rating and its context. *)
Lemma analysis_of_element_facts (lib : Libs) (merged_xml context : string)
  (element_data : value) (r : LocatorAnalysis) :
  analysis_of_element lib merged_xml context element_data = Ok r ->
  getitem element_data "primary_locator" = Ok (primary_locator r) /\
  getitem element_data "element_name" = Ok (element_name r) /\
  getitem element_data "element_type" = Ok (element_type r) /\
  _assess_locator_quality (primary_locator r) = Ok (quality_score r) /\
  0.5 <= confidence r <= 1 /\
  exists position : value,
    get element_data "scroll_position" (PStr "unknown") = Ok position /\
    screen_context r = PStr (context ++ "_" ++ str_of lib position).
Proof.
  unfold analysis_of_element. intros Hr.
  bind_inv Hr primary Hprimary. bind_inv Hr quality Hquality.
  bind_inv Hr conf Hconf. bind_inv Hr f_name Hname.
  bind_inv Hr f_primary Hprimary'. bind_inv Hr f_fallbacks Hfallbacks.
  bind_inv Hr f_type Htype. bind_inv Hr f_actions Hactions.
  bind_inv Hr f_text Hvtext. bind_inv Hr position Hposition.
  bind_inv Hr f_info Hinfo.
  apply Ok_inj in Hr. subst r.
  cbn [primary_locator element_type element_name screen_context
       quality_score confidence].
  rewrite Hprimary in Hprimary'. apply Ok_inj in Hprimary'. subst f_primary.
  repeat split; try assumption; try apply (confidence_range _ _ _ Hconf).
  exists position. split; [exact Hposition | reflexivity].
Qed.

(** The loop of the whole-screen analysis: every item is analysed, and the
    dictionary holds analyses of items only. *)
Lemma analyse_items_spec (lib : Libs) (merged_xml context : string)
  (items : list (string * value)) :
  forall acc out : list (string * LocatorAnalysis),
    analyse_items lib merged_xml context items acc = Ok out ->
    (forall (name : string) (data : value),
       In (name, data) items ->
       exists r : LocatorAnalysis,
         analysis_of_element lib merged_xml context data = Ok r) /\
    (forall name : string,
       In name (map fst acc) \/ In name (map fst items) ->
       In name (map fst out)) /\
    (forall (name : string) (r : LocatorAnalysis),
       In (name, r) out ->
       In (name, r) acc \/
       exists data : value,
         In (name, data) items /\
         analysis_of_element lib merged_xml context data = Ok r).
Proof.
  induction items as [|[k data] rest IH]; intros acc out Hrun.
  - cbn in Hrun. apply Ok_inj in Hrun. subst out. split; [|split].
    + intros name d [].
    + intros name [H|[]]. exact H.
    + intros name r H. left. exact H.
  - cbn [analyse_items] in Hrun. bind_inv Hrun analysis Hanalysis.
    destruct (IH _ _ Hrun) as [Hall [Hkeys Hrecords]].
    split; [|split].
    + intros name d [Heq|Hin].
      * injection Heq as _ <-. exists analysis. exact Hanalysis.
      * exact (Hall name d Hin).
    + intros name Hname. apply Hkeys. cbn [map fst In] in Hname.
      destruct Hname as [H|[H|H]].
      * left. apply store_keys. right. exact H.
      * left. apply store_keys. left. symmetry. exact H.
      * right. exact H.
    + intros name r Hin. destruct (Hrecords name r Hin) as [H|[d [Hd Hr]]].
      * apply in_store in H as [H|H]; [|left; exact H].
        injection H as -> ->. right. exists data.
        split; [left; reflexivity | exact Hanalysis].
      * right. exists d. split; [right; exact Hd | exact Hr].
Qed.

(** X19: [analyze_complete_screen] is all or nothing: when it returns,
    every element of [screen_elements] in the parsed reply was analysed
    without error and has a record under its name, and every record comes
    from an element of that name, is rated with the tier of its own primary
    locator, has a confidence between 0.5 and 1, and carries the screen
    context followed by [_] and the scroll position of the element
    ([unknown] when the element has none). *)
Theorem analyze_complete_screen_records
  (lib : Libs) (self : AILocatorGenerator) (merged_xml context : string)
  (analyses : list (string * LocatorAnalysis)) :
  analyze_complete_screen lib self merged_xml context = Ok analyses ->
  exists (json_text : string) (screen_data : value)
         (elements : list (string * value)),
    json_loads lib json_text = Some screen_data /\
    get screen_data "screen_elements" (PDict []) = Ok (PDict elements) /\
    (forall (name : string) (data : value),
       In (name, data) elements ->
       (exists r : LocatorAnalysis,
          analysis_of_element lib merged_xml context data = Ok r) /\
       In name (map fst analyses)) /\
    (forall (name : string) (r : LocatorAnalysis),
       In (name, r) analyses ->
       exists data : value,
         In (name, data) elements /\
         getitem data "primary_locator" = Ok (primary_locator r) /\
         _assess_locator_quality (primary_locator r) = Ok (quality_score r) /\
         0.5 <= confidence r <= 1 /\
         exists position : value,
           get data "scroll_position" (PStr "unknown") = Ok position /\
           screen_context r = PStr (context ++ "_" ++ str_of lib position)).
Proof.
  unfold analyze_complete_screen. intros Hrun.
  bind_inv Hrun text Htext.
  destruct (String.eqb text ""); [discriminate Hrun|].
  bind_inv Hrun json_text Hjson. bind_inv Hrun screen_data Hdata.
  bind_inv Hrun screen_elements Helements. bind_inv Hrun its Hits.
  destruct screen_elements as [| | | | | |elements]; try discriminate Hits.
  apply Ok_inj in Hits. subst its.
  destruct (json_loads lib json_text) as [d|] eqn:Hloads; [|discriminate Hdata].
  apply Ok_inj in Hdata. subst d.
  destruct (analyse_items_spec _ _ _ _ _ _ Hrun) as [Hall [Hkeys Hrecords]].
  exists json_text, screen_data, elements.
  split; [exact Hloads|]. split; [exact Helements|]. split.
  - intros name data Hin. split; [exact (Hall name data Hin)|].
    apply Hkeys. right. apply (in_map fst) in Hin. exact Hin.
  - intros name r Hin.
    destruct (Hrecords name r Hin) as [[]|[data [Hdata Hr]]].
    destruct (analysis_of_element_facts _ _ _ _ _ Hr)
      as [Hprimary [_ [_ [Hquality [Hconf Hcontext]]]]].
    exists data. repeat split; try assumption; apply Hconf.
Qed.

(** The reply [reply] under [screen_libs]: two elements, one of them
    outside the schema. *)
Lemma analyze_complete_screen_records_witness :
  exists (analyses : list (string * LocatorAnalysis))
         (json_text : string) (screen_data : value)
         (elements : list (string * value)),
    map fst analyses = ["login"; "odd"] /\
    json_loads screen_libs json_text = Some screen_data /\
    get screen_data "screen_elements" (PDict []) = Ok (PDict elements) /\
    (forall (name : string) (data : value),
       In (name, data) elements ->
       (exists r : LocatorAnalysis,
          analysis_of_element screen_libs "<hierarchy/>" "login_screen" data
          = Ok r) /\
       In name (map fst analyses)) /\
    (forall (name : string) (r : LocatorAnalysis),
       In (name, r) analyses ->
       exists data : value,
         In (name, data) elements /\
         getitem data "primary_locator" = Ok (primary_locator r) /\
         _assess_locator_quality (primary_locator r) = Ok (quality_score r) /\
         0.5 <= confidence r <= 1 /\
         exists position : value,
           get data "scroll_position" (PStr "unknown") = Ok position /\
           screen_context r
           = PStr ("login_screen" ++ "_" ++ str_of screen_libs position)).
Proof.
  eexists.
  match goal with
  | |- exists _ _ _, map fst ?a = _ /\ _ =>
      assert (Hrun : analyze_complete_screen screen_libs replying_generator
                       "<hierarchy/>" "login_screen" = Ok a)
        by (vm_compute; reflexivity)
  end.
  destruct (analyze_complete_screen_records screen_libs replying_generator
              "<hierarchy/>" "login_screen" _ Hrun)
    as [json_text [screen_data [elements H]]].
  exists json_text, screen_data, elements.
  split; [reflexivity | exact H].
Defined.

(** ** The generated scripts *)

Section FlowFacts.

Context {D E : Type} {F : GeneratedScripts.Finder D E}.

(** One guarded lookup: it makes the lookup the dictionary stands for, and
    that lookup missed unless an element is returned. *)
Lemma find_with_shape (d : D) (locator : value) :
  let r := GeneratedScripts.find_with d locator in
  map fst (GeneratedScripts.lookups r) = locator_lookup locator /\
  match GeneratedScripts.found r with
  | Ok _ => exists c, GeneratedScripts.lookups r = [(c, true)]
  | Raise _ => forallb missed (GeneratedScripts.lookups r) = true
  end.
Proof.
  unfold GeneratedScripts.find_with, locator_lookup.
  destruct (getitem locator "strategy") as [s|e]; [|split; reflexivity].
  destruct (getitem locator "value") as [v|e]; [|split; reflexivity].
  destruct (GeneratedScripts.find_element_by d (GeneratedScripts.Raw s) v)
    as [d' [e|x]]; cbn; split; try reflexivity.
  exists (GeneratedScripts.Raw s, v). reflexivity.
Qed.

(** The loop over fallbacks that all carry a strategy: it never raises, and
    its lookups are those of the fallbacks, in order, up to the first that
    finds an element. *)
Lemma try_fallbacks_shape (fallbacks : list value) :
  (forall loc : value, In loc fallbacks ->
                       exists s : value, getitem loc "strategy" = Ok s) ->
  forall d : D,
    match GeneratedScripts.try_fallbacks d fallbacks with
    | (_, calls, None) =>
        map fst calls = flat_map locator_lookup fallbacks /\
        forallb missed calls = true
    | (_, calls, Some (Ok _)) =>
        exists done c rest,
          calls = done ++ [(c, true)] /\
          forallb missed done = true /\
          flat_map locator_lookup fallbacks = map fst done ++ c :: rest
    | (_, _, Some (Raise _)) => False
    end.
Proof.
  induction fallbacks as [|loc rest IH]; intros Hstrategy d.
  - cbn. split; reflexivity.
  - cbn [GeneratedScripts.try_fallbacks flat_map].
    destruct (find_with_shape d loc) as [Hcalls Hfound].
    destruct (GeneratedScripts.found (GeneratedScripts.find_with d loc))
      as [e|x] eqn:Hres.
    + destruct Hfound as [c Hc]. rewrite Hc in Hcalls |- *.
      exists [], c, (flat_map locator_lookup rest).
      split; [reflexivity|]. split; [reflexivity|].
      rewrite <- Hcalls. reflexivity.
    + destruct (Hstrategy loc (or_introl eq_refl)) as [s ->].
      assert (Hrest : forall l : value, In l rest ->
                exists s0 : value, getitem l "strategy" = Ok s0).
      { intros l Hl. apply Hstrategy. right. exact Hl. }
      specialize (IH Hrest
                    (GeneratedScripts.after (GeneratedScripts.find_with d loc))).
      destruct (GeneratedScripts.try_fallbacks
                  (GeneratedScripts.after (GeneratedScripts.find_with d loc))
                  rest) as [[d' calls] [[e|x']|]].
      * destruct IH as [done [c [tail [Hcalls' [Hmissed Hplan]]]]].
        exists (GeneratedScripts.lookups (GeneratedScripts.find_with d loc)
                ++ done), c, tail.
        rewrite Hcalls', Hplan, <- Hcalls, forallb_app, Hfound, Hmissed,
          map_app, <- !app_assoc.
        repeat split; reflexivity.
      * exact IH.
      * destruct IH as [Hcalls' Hmissed].
        rewrite map_app, forallb_app, Hcalls, Hcalls', Hfound, Hmissed.
        split; reflexivity.
Qed.

(** The shape of a run of the login flow on a record whose fallbacks all
    carry a strategy. *)
Lemma find_element_with_fallback_shape
  (d : D) (element_name : string)
  (locators element_data primary : value) (fallbacks : list value) :
  getitem locators element_name = Ok element_data ->
  getitem element_data "primary_locator" = Ok primary ->
  bind (get element_data "fallback_locators" (PList [])) iter = Ok fallbacks ->
  (forall loc : value, In loc fallbacks ->
                       exists s : value, getitem loc "strategy" = Ok s) ->
  let run := GeneratedScripts.find_element_with_fallback d element_name
               locators in
  let plan := fallback_plan primary fallbacks element_name in
  match GeneratedScripts.found run with
  | Ok _ =>
      exists done c rest,
        GeneratedScripts.lookups run = done ++ [(c, true)] /\
        forallb missed done = true /\
        plan = map fst done ++ c :: rest
  | Raise x =>
      map fst (GeneratedScripts.lookups run) = plan /\
      forallb missed (GeneratedScripts.lookups run) = true /\
      exists d0 : D,
        GeneratedScripts.find_element_by d0
          (GeneratedScripts.Member XPATH) (PStr (text_xpath element_name))
        = (GeneratedScripts.after run, Raise x)
  end.
Proof.
  intros Hdata Hprimary Hfallbacks Hstrategy.
  unfold GeneratedScripts.find_element_with_fallback, fallback_plan.
  rewrite Hdata, Hprimary, Hfallbacks.
  destruct (find_with_shape d primary) as [Hcalls Hfound].
  destruct (GeneratedScripts.found (GeneratedScripts.find_with d primary))
    as [e|x] eqn:Hres.
  - cbn zeta. rewrite Hres. destruct Hfound as [c Hc].
    rewrite Hc in Hcalls |- *.
    exists [], c,
      (flat_map locator_lookup fallbacks
       ++ [(GeneratedScripts.Member XPATH, PStr (text_xpath element_name))]).
    split; [reflexivity|]. split; [reflexivity|].
    rewrite <- Hcalls. reflexivity.
  - pose proof (try_fallbacks_shape fallbacks Hstrategy
                  (GeneratedScripts.after
                     (GeneratedScripts.find_with d primary))) as Hloop.
    destruct (GeneratedScripts.try_fallbacks
                (GeneratedScripts.after (GeneratedScripts.find_with d primary))
                fallbacks) as [[d' calls] [[e|x']|]].
    + cbn [GeneratedScripts.found GeneratedScripts.lookups].
      destruct Hloop as [done [c [tail [Hcalls' [Hmissed Hplan]]]]].
      exists (GeneratedScripts.lookups (GeneratedScripts.find_with d primary)
              ++ done), c,
        (tail ++ [(GeneratedScripts.Member XPATH,
                   PStr (text_xpath element_name))]).
      rewrite Hcalls', Hplan, <- Hcalls, forallb_app, Hfound, Hmissed,
        map_app, <- !app_assoc.
      repeat split; reflexivity.
    + contradiction.
    + destruct Hloop as [Hcalls' Hmissed].
      destruct (GeneratedScripts.find_element_by d'
                  (GeneratedScripts.Member XPATH)
                  (PStr (text_xpath element_name))) as [d'' [e|x']] eqn:Htext;
        cbn [GeneratedScripts.found GeneratedScripts.lookups
             GeneratedScripts.after GeneratedScripts.is_ok].
      * exists (GeneratedScripts.lookups (GeneratedScripts.find_with d primary)
                ++ calls),
          (GeneratedScripts.Member XPATH, PStr (text_xpath element_name)), [].
        rewrite forallb_app, Hfound, Hmissed, map_app, Hcalls, Hcalls',
          <- !app_assoc.
        repeat split; reflexivity.
      * rewrite !map_app, !forallb_app, Hcalls, Hcalls', Hfound, Hmissed.
        cbn. repeat split; try reflexivity.
        exists d'. exact Htext.
Qed.

(** X20: [find_element_with_fallback] of the login flow script, on a record
    whose fallback locators all carry a strategy, looks the element up by
    its primary locator, then by its fallback locators in their order, then
    by the text of its name (a locator without a value is skipped); it
    stops at the first lookup that finds an element and returns that
    element; and when it raises, every lookup of the plan was made and
    missed, and the exception is the one of the text lookup. *)
Theorem login_flow_fallback_order
  (d : D) (element_name : string)
  (locators element_data primary : value) (fallbacks : list value) :
  getitem locators element_name = Ok element_data ->
  getitem element_data "primary_locator" = Ok primary ->
  bind (get element_data "fallback_locators" (PList [])) iter = Ok fallbacks ->
  (forall loc : value, In loc fallbacks ->
                       exists s : value, getitem loc "strategy" = Ok s) ->
  let run := GeneratedScripts.find_element_with_fallback d element_name
               locators in
  let plan := fallback_plan primary fallbacks element_name in
  (forall e : E,
     GeneratedScripts.found run = Ok e ->
     exists done c rest,
       GeneratedScripts.lookups run = done ++ [(c, true)] /\
       forallb missed done = true /\
       plan = map fst done ++ c :: rest) /\
  (forall x : exn,
     GeneratedScripts.found run = Raise x ->
     map fst (GeneratedScripts.lookups run) = plan /\
     forallb missed (GeneratedScripts.lookups run) = true /\
     exists d0 : D,
       GeneratedScripts.find_element_by d0
         (GeneratedScripts.Member XPATH) (PStr (text_xpath element_name))
       = (GeneratedScripts.after run, Raise x)).
Proof.
  intros Hdata Hprimary Hfallbacks Hstrategy run plan.
  pose proof (find_element_with_fallback_shape d element_name locators
                element_data primary fallbacks Hdata Hprimary Hfallbacks
                Hstrategy) as Hshape.
  cbn zeta in Hshape. fold run plan in Hshape.
  destruct (GeneratedScripts.found run) as [e|x].
  - split; [intros e' _; exact Hshape | intros x H; discriminate H].
  - split; [intros e H; discriminate H|].
    intros x' Hx'. apply (f_equal (fun r => match r with
                                            | Raise y => y
                                            | Ok _ => x
                                            end)) in Hx'.
    subst x'. exact Hshape.
Qed.

(** X21: the handler of the fallback loop formats the strategy of the
    fallback it failed on, so a fallback without a strategy ends
    [find_element_with_fallback] with the error of reading it ([KeyError]
    on an object): on a surface where nothing is found by a locator, the
    fallbacks after it and the text of the name are never tried. *)
Theorem login_flow_malformed_fallback
  (d : D) (element_name : string)
  (locators element_data primary bad : value) (before rest : list value)
  (x : exn) :
  finds_nothing F ->
  getitem locators element_name = Ok element_data ->
  getitem element_data "primary_locator" = Ok primary ->
  bind (get element_data "fallback_locators" (PList [])) iter
  = Ok (before ++ bad :: rest) ->
  (forall loc : value, In loc before ->
                       exists s : value, getitem loc "strategy" = Ok s) ->
  getitem bad "strategy" = Raise x ->
  let run := GeneratedScripts.find_element_with_fallback d element_name
               locators in
  GeneratedScripts.found run = Raise x /\
  map fst (GeneratedScripts.lookups run)
  = locator_lookup primary ++ flat_map locator_lookup before.
Proof.
  intros Hblind Hdata Hprimary Hfallbacks Hstrategy Hbad.
  unfold GeneratedScripts.find_element_with_fallback.
  rewrite Hdata, Hprimary, Hfallbacks. clear Hfallbacks.
  assert (Hmiss : forall d0 loc,
            exists y, GeneratedScripts.found
                        (GeneratedScripts.find_with d0 loc) = Raise y).
  { intros d0 loc. unfold GeneratedScripts.find_with.
    destruct (getitem loc "strategy") as [s|y]; [|exists y; reflexivity].
    destruct (getitem loc "value") as [v|y]; [|exists y; reflexivity].
    destruct (Hblind d0 (GeneratedScripts.Raw s) v) as [d' [y ->]].
    exists y. reflexivity. }
  assert (Hloop : forall d0,
            exists d' calls,
              GeneratedScripts.try_fallbacks d0 (before ++ bad :: rest)
              = (d', calls, Some (Raise x)) /\
              map fst calls = flat_map locator_lookup before).
  { induction before as [|loc more IH]; intros d0.
    - cbn [app GeneratedScripts.try_fallbacks flat_map].
      destruct (Hmiss d0 bad) as [y Hy]. rewrite Hy, Hbad.
      eexists _, _. split; [reflexivity|].
      unfold GeneratedScripts.find_with. rewrite Hbad. reflexivity.
    - cbn [app GeneratedScripts.try_fallbacks flat_map].
      destruct (Hmiss d0 loc) as [y Hy]. rewrite Hy.
      destruct (Hstrategy loc (or_introl eq_refl)) as [s ->].
      assert (Hmore : forall l : value, In l more ->
                exists s0 : value, getitem l "strategy" = Ok s0).
      { intros l Hl. apply Hstrategy. right. exact Hl. }
      destruct (IH Hmore
                  (GeneratedScripts.after (GeneratedScripts.find_with d0 loc)))
        as [d' [calls [-> Hcalls]]].
      eexists _, _. split; [reflexivity|].
      rewrite map_app, Hcalls.
      rewrite (proj1 (find_with_shape d0 loc)). reflexivity. }
  destruct (Hmiss d primary) as [y Hy]. rewrite Hy.
  destruct (Hloop (GeneratedScripts.after (GeneratedScripts.find_with d primary)))
    as [d' [calls [-> Hcalls]]].
  cbn [GeneratedScripts.found GeneratedScripts.lookups].
  split; [reflexivity|].
  rewrite map_app, Hcalls, (proj1 (find_with_shape d primary)). reflexivity.
Qed.

(** X22: [find_element] of the checkout flow script reads its second
    locator under the key [secondary_locator], which no saved entry has
    (records keep their alternatives under [fallback_locators]): on what
    [save_locators_schema_compliant] stores for a record it makes at most
    the lookup of the primary locator, and when that finds nothing it
    raises [KeyError] for [secondary_locator]. *)
Theorem checkout_flow_on_saved_entry
  (d : D) (lib : Libs) (r : LocatorAnalysis) :
  let run := GeneratedScripts.find_element d (AILocator.locator_entry lib r) in
  map fst (GeneratedScripts.lookups run) = locator_lookup (primary_locator r) /\
  (forall x : exn,
     GeneratedScripts.found run = Raise x ->
     x = KeyError "secondary_locator" /\
     forallb missed (GeneratedScripts.lookups run) = true).
Proof.
  unfold GeneratedScripts.find_element, GeneratedScripts.find_by_key,
    AILocator.locator_entry, locator_lookup.
  cbn [getitem lookup String.eqb Ascii.eqb Bool.eqb bind].
  destruct (getitem (primary_locator r) "strategy") as [s|e];
    cbn [GeneratedScripts.found GeneratedScripts.lookups GeneratedScripts.after
         app map].
  2:{ split; [reflexivity|]. intros x Hx. split; [congruence | reflexivity]. }
  destruct (getitem (primary_locator r) "value") as [v|e];
    cbn [GeneratedScripts.found GeneratedScripts.lookups GeneratedScripts.after
         app map].
  2:{ split; [reflexivity|]. intros x Hx. split; [congruence | reflexivity]. }
  destruct (GeneratedScripts.find_element_by d (GeneratedScripts.Raw s) v)
    as [d' [e|y]];
    cbn [GeneratedScripts.found GeneratedScripts.lookups GeneratedScripts.after
         GeneratedScripts.is_ok app map fst].
  - split; [reflexivity|]. intros x Hx. discriminate Hx.
  - split; [reflexivity|]. intros x Hx. split; [congruence | reflexivity].
Qed.

End FlowFacts.

(** The button found by its xpath, the first fallback. *)
Lemma login_flow_fallback_order_witness :
  GeneratedScripts.found
    (GeneratedScripts.find_element_with_fallback (F := xpath_finder) 0%nat
       "login_button" login_locators) = Ok "button" /\
  exists done c rest,
    GeneratedScripts.lookups
      (GeneratedScripts.find_element_with_fallback (F := xpath_finder) 0%nat
         "login_button" login_locators) = done ++ [(c, true)] /\
    forallb missed done = true /\
    [(GeneratedScripts.Raw (PStr "id"), PStr "login_btn");
     (GeneratedScripts.Raw (PStr "xpath"), PStr "//Button[@text='Login']");
     (GeneratedScripts.Raw (PStr "accessibility_id"), PStr "Login");
     (GeneratedScripts.Member XPATH,
      PStr "//*[contains(@text, 'login_button')]")]
    = map fst done ++ c :: rest.
Proof.
  split; [reflexivity|].
  refine (proj1 (login_flow_fallback_order (F := xpath_finder) 0%nat
                   "login_button" login_locators _ _ _
                   eq_refl eq_refl eq_refl _) "button" eq_refl).
  intros loc [<-|[<-|[]]]; eexists; reflexivity.
Defined.

(** A second fallback without a strategy, on a surface that finds
    nothing. *)
Lemma login_flow_malformed_fallback_witness :
  GeneratedScripts.found
    (GeneratedScripts.find_element_with_fallback (F := blind_finder) 0%nat
       "login_button" malformed_locators) = Raise (KeyError "strategy") /\
  map fst (GeneratedScripts.lookups
             (GeneratedScripts.find_element_with_fallback (F := blind_finder)
                0%nat "login_button" malformed_locators))
  = [(GeneratedScripts.Raw (PStr "id"), PStr "login_btn");
     (GeneratedScripts.Raw (PStr "xpath"), PStr "//Button")].
Proof.
  refine (login_flow_malformed_fallback (F := blind_finder) 0%nat
            "login_button" malformed_locators _ _
            (PDict [("value", PStr "Login")])
            [PDict [("strategy", PStr "xpath"); ("value", PStr "//Button")]]
            [PDict [("strategy", PStr "class_name"); ("value", PStr "Button")]]
            (KeyError "strategy") _ eq_refl eq_refl eq_refl _ eq_refl).
  - intros d b v. exists (S d), (NoSuchElementException "no such element").
    reflexivity.
  - intros loc [<-|[]]. eexists. reflexivity.
Defined.

(** ** Script extraction and generation *)

(** What the loop over the patterns leaves in [matches]. *)
Lemma matches_after_loop_last (lib : ScriptGenerator.ScriptLibs)
  (response_text : string) :
  ScriptGenerator.matches_after_loop lib response_text
  = ScriptGenerator.re_findall lib last_pattern response_text.
Proof. reflexivity. Qed.

(** X23: the first three patterns of
    [_extract_python_code_from_response], the two for fenced code blocks
    among them, have no effect on what it returns: [matches] is tested
    after the loop, so two regular-expression engines that agree on the
    last pattern for a reply (and on [strip] and the final [re.sub]) give
    the same result on it, whatever the fence patterns find. *)
Theorem extraction_ignores_fence_patterns
  (lib lib' : ScriptGenerator.ScriptLibs) (response_text : string) :
  ScriptGenerator.re_findall lib last_pattern response_text
  = ScriptGenerator.re_findall lib' last_pattern response_text ->
  (forall s : string,
     ScriptGenerator.str_strip lib s = ScriptGenerator.str_strip lib' s) ->
  (forall s : string,
     ScriptGenerator.re_sub_first_line lib s
     = ScriptGenerator.re_sub_first_line lib' s) ->
  ScriptGenerator._extract_python_code_from_response lib response_text
  = ScriptGenerator._extract_python_code_from_response lib' response_text.
Proof.
  intros Hlast Hstrip Hsub.
  unfold ScriptGenerator._extract_python_code_from_response,
    ScriptGenerator.cleaned_response.
  rewrite !matches_after_loop_last, Hlast.
  destruct (ScriptGenerator.re_findall lib' last_pattern response_text)
    as [|m rest]; rewrite ?Hstrip, ?Hsub; reflexivity.
Qed.

(** A reply whose fenced block the first pattern finds under [fence_libs]:
    the result is the one under [plain_libs], where only the last pattern
    finds anything, and it is the reply itself, not the block. *)
Lemma extraction_ignores_fence_patterns_witness :
  ScriptGenerator.re_findall fence_libs ScriptGenerator.first_pattern "reply"
  = [fenced_code] /\
  ScriptGenerator._extract_python_code_from_response fence_libs "reply"
  = ScriptGenerator._extract_python_code_from_response plain_libs "reply" /\
  ScriptGenerator._extract_python_code_from_response fence_libs "reply"
  = "reply".
Proof.
  split; [reflexivity|]. split; [|reflexivity].
  apply (extraction_ignores_fence_patterns fence_libs plain_libs "reply").
  - reflexivity.
  - intros s. reflexivity.
  - intros s. reflexivity.
Defined.

(** What the extraction returns, by cases. *)
Lemma extraction_cases (lib : ScriptGenerator.ScriptLibs)
  (response_text : string) :
  let script :=
    ScriptGenerator._extract_python_code_from_response lib response_text in
  script = ScriptGenerator.cleaned_response lib response_text \/
  exists (m : string) (rest : list string),
    ScriptGenerator.re_findall lib last_pattern response_text = m :: rest /\
    script = ScriptGenerator.str_strip lib m /\
    (100 < char_length script)%Z.
Proof.
  unfold ScriptGenerator._extract_python_code_from_response.
  rewrite matches_after_loop_last.
  destruct (ScriptGenerator.re_findall lib last_pattern response_text)
    as [|m rest]; [left; reflexivity|].
  cbn zeta.
  destruct (100 <? Z.of_nat (List.length
                               (chars (ScriptGenerator.str_strip lib m))))%Z
    eqn:Hlong; [|left; reflexivity].
  right. exists m, rest. split; [reflexivity|]. split; [reflexivity|].
  apply Z.ltb_lt in Hlong. exact Hlong.
Qed.

(** X24: the contract of [generate_comprehensive_flow_script]: a script it
    returns has at least 200 characters and was extracted from a non-empty
    reply of the model, as the reply cleaned of its first line or as the
    stripped first match of the last pattern; an error it raises is either
    raised while the prompt is built ([AttributeError] of a test case that
    is no object, or the error of [json.dumps] on the locators), or an
    [Exception] whose message starts with [Failed to generate
    comprehensive flow script: ]. *)
Theorem generate_comprehensive_flow_script_contract
  (lib : ScriptGenerator.ScriptLibs) (generate : string -> result string)
  (test_case locators : value) (page_source flow_type : string) :
  let outcome :=
    ScriptGenerator.generate_comprehensive_flow_script lib generate test_case
      locators page_source flow_type in
  (forall script : string,
     outcome = Ok script ->
     (200 <= char_length script)%Z /\
     exists prompt text : string,
       generate prompt = Ok text /\ text <> "" /\
       script = ScriptGenerator._extract_python_code_from_response lib text /\
       (script = ScriptGenerator.cleaned_response lib text \/
        exists (m : string) (rest : list string),
          ScriptGenerator.re_findall lib last_pattern text = m :: rest /\
          script = ScriptGenerator.str_strip lib m)) /\
  (forall e : exn,
     outcome = Raise e ->
     (e = AttributeError /\ forall items, test_case <> PDict items) \/
     ScriptGenerator.json_dumps lib locators = Raise e \/
     wrapped_failure e).
Proof.
  unfold ScriptGenerator.generate_comprehensive_flow_script.
  destruct test_case as [| | | | | |items];
    try (cbn [get bind]; split;
         [intros script H; discriminate H
         |intros e H; left; split; [congruence | intros items; discriminate]]).
  unfold get.
  destruct (lookup "test_name" items) as [name|];
    destruct (lookup "description" items) as [description|]; cbn [bind];
    (destruct (ScriptGenerator.json_dumps lib locators) as [dumped|x];
     cbn [bind];
     [|split; [intros script H; discriminate H
              |intros e H; right; left; exact H]]);
    match goal with
    | |- context [ScriptGenerator.generate_body lib generate ?p] =>
        set (prompt := p)
    end;
    unfold ScriptGenerator.generate_body;
    (destruct (generate prompt) as [text|x] eqn:Hgen; cbn [bind];
     [|split; [intros script H; discriminate H
              |intros e H; right; right;
               exists (ScriptGenerator.str_of_exn lib x); congruence]]);
    (destruct (String.eqb text "") eqn:Hempty;
     [split; [intros script H; discriminate H
             |intros e H; right; right; eexists; symmetry;
              apply (f_equal (fun r => match r with
                                       | Raise y => y
                                       | Ok _ => e
                                       end)) in H; exact H]|]);
    apply String.eqb_neq in Hempty;
    (destruct (Z.of_nat (List.length
                 (chars (ScriptGenerator._extract_python_code_from_response
                           lib text))) <? 200)%Z eqn:Hshort;
     [split; [intros script H; discriminate H
             |intros e H; right; right; eexists; symmetry;
              apply (f_equal (fun r => match r with
                                       | Raise y => y
                                       | Ok _ => e
                                       end)) in H; exact H]|]);
    apply Z.ltb_ge in Hshort;
    (split; [|intros e H; discriminate H]);
    intros script H; apply Ok_inj in H; subst script;
    (split; [exact Hshort|]);
    exists prompt, text;
    (split; [exact Hgen|]); (split; [exact Hempty|]);
    (split; [reflexivity|]);
    (destruct (extraction_cases lib text) as [Hc|[m [rest [Hm [Hs _]]]]];
     [left; exact Hc | right; exists m, rest; split; assumption]).
Qed.
